(** * pgcplus: document indexing pipeline and citation resolution

    A shallow embedding of the TypeScript sources of the policy-document
    search application, and the properties of its specification that were
    checked against it.

    Conventions of the embedding.

    - A JavaScript string is a Rocq [string]; text outside ASCII is a
      sequence of characters above 127, none of which is an ASCII letter, a
      dot or a digit.  The [/i] flag of a regular expression without the
      [u] flag folds the letters [A-Z] and [a-z] and no other character
      onto them.  [String.prototype.toLowerCase] follows the case tables of
      the run time: where it is applied to titles, which are arbitrary
      text, it is a parameter ([Unicode.toLowerCase]), and what is proved
      holds whatever the tables are; where its result is only looked up in
      a table of ASCII words (the file extensions), the conversion of the
      letters [A-Z] decides the lookup and is what is modelled.
    - An optional field ([x?: string], or a field read through [?.]) is an
      [option]; [undefined] is [None].
    - [a || b] on strings keeps [a] when it is truthy, that is, present and
      not the empty string.
    - A [Map] is an association list in insertion order; a plain object
      written to by number is a [gmap nat]; a read [obj[key]] on an object
      literal sees its own properties and those of [Object.prototype].
    - Code that throws, reads the clock or talks to a collaborator runs in a
      state-and-exception monad over an explicit [World]; an exception keeps
      the writes made before it.  Calls run one after the other.
    - The clock advances by the sleeps of the code; the time its other
      steps take is left out, so two readings with no sleep between them
      give the same instant.
    - The table of documents and the blob container answer every call
      once they are configured.  A row is kept as it was written: the
      [Timestamp] that the table service sets on every write is left out,
      and the field is compared nowhere.  The table of the store registry
      may reject any call ([configFaults]).
    - Console output has no effect on any result and is left out. *)

From Stdlib Require Import Ascii String NArith.
From stdpp Require Import gmap strings list fin_maps pretty sorting.

Open Scope string_scope.
Open Scope list_scope.

(* ===================================================================== *)
(** * JavaScript values and string primitives                             *)
(* ===================================================================== *)

Module Js.

(** Truthiness of a string: every string but the empty one. *)
Definition truthyStr (s : string) : bool :=
  match s with EmptyString => false | String _ _ => true end.

(** Truthiness of an optional string: [undefined] and [''] are falsy. *)
Definition truthy (o : option string) : bool :=
  match o with Some s => truthyStr s | None => false end.

(** [a || b] where [a] may be [undefined] and [b] is a string. *)
Definition orStr (a : option string) (b : string) : string :=
  match a with
  | Some s => if truthyStr s then s else b
  | None => b
  end.

Definition toLowerChar (c : ascii) : ascii :=
  let n := N_of_ascii c in
  if ((65 <=? n) && (n <=? 90))%N then ascii_of_N (n + 32) else c.

(** [String.prototype.toLowerCase] on the letters [A-Z], every other
    character kept: the conversion as the extension tables see it, whose
    keys are words over [a-z] that no character outside ASCII is converted
    to, and the folding of the [i] flag. *)
Fixpoint toLowerCase (s : string) : string :=
  match s with
  | EmptyString => EmptyString
  | String c r => String (toLowerChar c) (toLowerCase r)
  end.

(** [s.split('.')]: never empty; a string without a dot is its own only
    segment.  The accumulator [cur] is the segment being read. *)
Fixpoint splitDotFrom (cur : string) (s : string) : list string :=
  match s with
  | EmptyString => [cur]
  | String c r =>
      if Ascii.eqb c "."%char
      then cur :: splitDotFrom EmptyString r
      else splitDotFrom (cur +:+ String c EmptyString) r
  end.

Definition splitDot (s : string) : list string := splitDotFrom EmptyString s.

(** [Array.prototype.pop] read for its result only: the last element, or
    [undefined] on the empty array. *)
Definition pop (l : list string) : option string := last l.

(** Whether the whole of [s] is matched by [\.(pdf|docx?|txt)] under the
    [i] flag. *)
Definition isDocExtension (s : string) : bool :=
  let l := toLowerCase s in
  (l =? ".pdf") || (l =? ".doc") || (l =? ".docx") || (l =? ".txt").

(** [s.replace(/\.(pdf|docx?|txt)$/i, '')].  The search tries each start
    position from the left; the pattern is anchored at the end of the
    input, so a match at a position is a match of the whole rest, which the
    replacement then drops. *)
Fixpoint stripDocExtension (s : string) : string :=
  if isDocExtension s then EmptyString
  else match s with
       | EmptyString => EmptyString
       | String c r => String c (stripDocExtension r)
       end.

(** A value a property read can produce where the source expects a string:
    a string, or one of the built-in objects reachable through
    [Object.prototype]. *)
Inductive value :=
| VString (s : string)
| VBuiltin (name : string).

#[global] Instance value_eq_dec : EqDecision value.
Proof. solve_decision. Defined.

(** The properties every object literal inherits from [Object.prototype],
    with the built-in each one evaluates to. *)
Definition objectPrototype : list (string * value) :=
  [ ("constructor", VBuiltin "Object");
    ("__proto__", VBuiltin "Object.prototype");
    ("hasOwnProperty", VBuiltin "Object.prototype.hasOwnProperty");
    ("isPrototypeOf", VBuiltin "Object.prototype.isPrototypeOf");
    ("propertyIsEnumerable", VBuiltin "Object.prototype.propertyIsEnumerable");
    ("toLocaleString", VBuiltin "Object.prototype.toLocaleString");
    ("toString", VBuiltin "Object.prototype.toString");
    ("valueOf", VBuiltin "Object.prototype.valueOf");
    ("__defineGetter__", VBuiltin "Object.prototype.__defineGetter__");
    ("__defineSetter__", VBuiltin "Object.prototype.__defineSetter__");
    ("__lookupGetter__", VBuiltin "Object.prototype.__lookupGetter__");
    ("__lookupSetter__", VBuiltin "Object.prototype.__lookupSetter__") ].

Fixpoint assoc {A} (k : string) (l : list (string * A)) : option A :=
  match l with
  | [] => None
  | (k', v) :: r => if k' =? k then Some v else assoc k r
  end.

(** [obj[key]] on an object literal whose own properties are the strings
    of [own]: own properties first, then the prototype chain. *)
Definition getProperty (own : list (string * string)) (key : string)
  : option value :=
  match assoc key own with
  | Some s => Some (VString s)
  | None => assoc key objectPrototype
  end.

(** Truthiness of a property read: strings as above, objects always. *)
Definition truthyValue (o : option value) : bool :=
  match o with
  | Some (VString s) => truthyStr s
  | Some (VBuiltin _) => true
  | None => false
  end.

(** [v || d] on a property read. *)
Definition orValue (v : option value) (d : string) : value :=
  match v with
  | Some x => if truthyValue v then x else VString d
  | None => VString d
  end.

(** Interpolation of an optional string in a template literal. *)
Definition interpolate (o : option string) : string :=
  match o with Some s => s | None => "undefined" end.

End Js.

(* ===================================================================== *)
(** * The metadata record (lib/db/table-storage.ts, data part)            *)
(* ===================================================================== *)

Inductive Status := processing | ready | failed.

#[global] Instance Status_eq_dec : EqDecision Status.
Proof. solve_decision. Defined.

Record Document := mkDocument {
  partitionKey : string;
  rowKey : string;
  id : string;
  title : string;
  category : string;
  version : string;
  status : Status;
  storageUri : string;
  blobName : string;
  fileSize : option string;
  fileType : option string;
  geminiDocumentId : option string;
  geminiFileSearchStoreName : option string;
  errorMessage : option string;
  createdAt : N;
  timestamp : N
}.

(* ===================================================================== *)
(** * Citation resolution (app/api/search/route.ts)                       *)
(* ===================================================================== *)

(** [String.prototype.toLowerCase] in full.  Titles are arbitrary text, so
    the comparison of lines 100-110 depends on the case tables of the run
    time ([CAFÉ POLICY] and [café policy] are the same title to it).  The
    tables are a parameter of the matcher. *)
Module Unicode.
Class CaseTables := toLowerCase : string -> string.
End Unicode.

Module Search.
Import Js.

(** One of the two places ([web], [retrievedContext]) where a grounding
    chunk can carry its reference, title and text. *)
Record Source := mkSource {
  uri : option string;
  url : option string;
  stitle : option string;
  text : option string
}.

Record GroundingChunk := mkChunk {
  web : option Source;
  retrievedContext : option Source
}.

(** [chunk.web?.f], [chunk.retrievedContext?.f]. *)
Definition field (f : Source -> option string) (s : option Source)
  : option string :=
  match s with Some x => f x | None => None end.

(** Lines 79-83. *)
Definition geminiFileId (chunk : GroundingChunk) : string :=
  orStr (field uri (web chunk))
    (orStr (field uri (retrievedContext chunk))
       (orStr (field url (web chunk))
          (orStr (field url (retrievedContext chunk)) ""))).

(** Line 86. *)
Definition chunkTitle (chunk : GroundingChunk) : string :=
  orStr (field stitle (web chunk))
    (orStr (field stitle (retrievedContext chunk)) "").

(** The value type of [citationMap]. *)
Record Entry := mkEntry {
  documentId : string;
  etitle : string;
  snippet : string;
  chunkIndices : list nat
}.

(** [Map<string, Entry>]: keys in insertion order. *)
Abbreviation CitationMap := (list (string * Entry)).

Section Matching.
Context {tables : Unicode.CaseTables}.

(** [doc.geminiDocumentId === geminiFileId]: an absent handle equals no
    string. *)
Definition handleIs (fileId : string) (doc : Document) : bool :=
  match geminiDocumentId doc with
  | Some h => h =? fileId
  | None => false
  end.

Definition isNone {A} (o : option A) : bool :=
  match o with None => true | Some _ => false end.

(** Lines 89-117: the variable [matchedDoc] is assigned by [find] after
    [find], each later one guarded by the earlier ones having failed. *)
Definition matchDocument (allDocuments : list Document)
    (chunk : GroundingChunk) : option Document :=
  let fileId := geminiFileId chunk in
  let ctitle := chunkTitle chunk in
  let matchedDoc := List.find (handleIs fileId) allDocuments in
  if isNone matchedDoc && truthyStr ctitle then
    let matchedDoc :=
      List.find (fun doc => title doc =? ctitle) allDocuments in
    let matchedDoc :=
      if isNone matchedDoc then
        List.find
          (fun doc =>
             Unicode.toLowerCase (title doc) =? Unicode.toLowerCase ctitle)
          allDocuments
      else matchedDoc in
    let matchedDoc :=
      if isNone matchedDoc then
        let chunkTitleNoExt := stripDocExtension ctitle in
        List.find
          (fun doc =>
             let docTitleNoExt := stripDocExtension (title doc) in
             Unicode.toLowerCase docTitleNoExt
             =? Unicode.toLowerCase chunkTitleNoExt)
          allDocuments
      else matchedDoc in
    matchedDoc
  else matchedDoc.

(** Line 119: [matchedDoc?.id || geminiFileId]. *)
Definition documentIdOf (allDocuments : list Document)
    (chunk : GroundingChunk) : string :=
  orStr (option_map id (matchDocument allDocuments chunk))
    (geminiFileId chunk).

(** Line 125: [matchedDoc?.title || chunk.web?.title ||
    chunk.retrievedContext?.title || 'Unknown Document']. *)
Definition entryTitle (allDocuments : list Document)
    (chunk : GroundingChunk) : string :=
  orStr (option_map title (matchDocument allDocuments chunk))
    (orStr (field stitle (web chunk))
       (orStr (field stitle (retrievedContext chunk)) "Unknown Document")).

(** Line 126. *)
Definition entrySnippet (chunk : GroundingChunk) : string :=
  orStr (field text (retrievedContext chunk)) "".

Definition mapGet (k : string) (m : CitationMap) : option Entry :=
  assoc k m.

Definition mapHas (k : string) (m : CitationMap) : bool :=
  negb (isNone (mapGet k m)).

(** [m.set(k, v)]: a present key keeps its place and takes the new value,
    a new key goes last. *)
Fixpoint mapSet (k : string) (v : Entry) (m : CitationMap) : CitationMap :=
  match m with
  | [] => [(k, v)]
  | (k', v') :: r =>
      if k' =? k then (k', v) :: r else (k', v') :: mapSet k v r
  end.

(** [m.get(k)!.chunkIndices.push(i)]: the entry stored under [k] is
    mutated in place. *)
Fixpoint pushIndex (k : string) (i : nat) (m : CitationMap) : CitationMap :=
  match m with
  | [] => []
  | (k', e) :: r =>
      if k' =? k
      then (k', mkEntry (documentId e) (etitle e) (snippet e)
                  (chunkIndices e ++ [i])) :: r
      else (k', e) :: pushIndex k i r
  end.

(** Lines 77-133, the body of the [forEach] callback. *)
Definition visitChunk (allDocuments : list Document) (m : CitationMap)
    (chunk : GroundingChunk) (chunkIndex : nat) : CitationMap :=
  let docId := documentIdOf allDocuments chunk in
  if negb (mapHas docId m) then
    mapSet docId
      (mkEntry docId (entryTitle allDocuments chunk) (entrySnippet chunk)
         [chunkIndex]) m
  else pushIndex docId chunkIndex m.

(** [groundingChunks.forEach(...)], from index [chunkIndex] on. *)
Fixpoint forEachChunk (allDocuments : list Document)
    (chunks : list GroundingChunk) (chunkIndex : nat) (m : CitationMap)
  : CitationMap :=
  match chunks with
  | [] => m
  | chunk :: rest =>
      forEachChunk allDocuments rest (S chunkIndex)
        (visitChunk allDocuments m chunk chunkIndex)
  end.

Definition citationMap (allDocuments : list Document)
    (groundingChunks : list GroundingChunk) : CitationMap :=
  forEachChunk allDocuments groundingChunks 0 [].

(** An element of the [citations] array of the response. *)
Record Citation := mkCitation {
  c_documentId : string;
  c_title : string;
  c_snippet : string;
  c_index : nat;
  c_chunkIndices : list nat
}.

(** Lines 136-142: [Array.from(citationMap.values()).map(...)]. *)
Definition citationsOf (m : CitationMap) : list Citation :=
  imap (fun index kv =>
          let citation := snd kv in
          mkCitation (documentId citation) (etitle citation)
            (snippet citation) (index + 1) (chunkIndices citation)) m.

(** Lines 146-151: the nested [forEach] filling [chunkToCitationMap]. *)
Definition recordCitation (acc : gmap nat nat) (citation : Citation)
  : gmap nat nat :=
  fold_left (fun acc chunkIndex => <[chunkIndex := c_index citation]> acc)
    (c_chunkIndices citation) acc.

Definition chunkToCitationMapOf (citations : list Citation) : gmap nat nat :=
  fold_left recordCitation citations ∅.

(** The part of the response the citation engine computes. *)
Definition citations (allDocuments : list Document)
    (groundingChunks : list GroundingChunk) : list Citation :=
  citationsOf (citationMap allDocuments groundingChunks).

Definition chunkToCitationMap (allDocuments : list Document)
    (groundingChunks : list GroundingChunk) : gmap nat nat :=
  chunkToCitationMapOf (citations allDocuments groundingChunks).

(** ** The resolution order in the words of the specification

    A list of strategies tried in order, the first success wins; the three
    title strategies apply to a fragment that carries a title.  The
    strategies are stated on their own: equality of the stored handle and
    the reference, equality of titles, equality of titles in lower case,
    and equality in lower case of what is left of each title when a
    trailing extension is cut off.  None of them goes through [handleIs],
    [stripDocExtension] or the conditionals of [matchDocument]. *)

Definition extensions : list string := [".pdf"; ".doc"; ".docx"; ".txt"].

(** [s] ends in the extension [e], in whatever case its letters are. *)
Definition endsIn (e s : string) : bool :=
  let n := String.length s in
  let k := String.length e in
  (k <=? n)%nat && bool_decide (Js.toLowerCase (substring (n - k) k s) = e).

(** [s] without the extension it ends in, if it ends in one. *)
Definition withoutExtension (s : string) : string :=
  match List.find (fun e => endsIn e s) extensions with
  | Some e => substring 0 (String.length s - String.length e) s
  | None => s
  end.

Definition carriesTitle (chunk : GroundingChunk) : Prop :=
  chunkTitle chunk <> "".

Definition byHandle (chunk : GroundingChunk) (doc : Document) : bool :=
  bool_decide (geminiDocumentId doc = Some (geminiFileId chunk)).

Definition byExactTitle (chunk : GroundingChunk) (doc : Document) : bool :=
  bool_decide (carriesTitle chunk /\ title doc = chunkTitle chunk).

Definition byTitleIgnoringCase (chunk : GroundingChunk) (doc : Document)
  : bool :=
  bool_decide
    (carriesTitle chunk
     /\ Unicode.toLowerCase (title doc)
        = Unicode.toLowerCase (chunkTitle chunk)).

Definition byTitleWithoutExtension (chunk : GroundingChunk)
    (doc : Document) : bool :=
  bool_decide
    (carriesTitle chunk
     /\ Unicode.toLowerCase (withoutExtension (title doc))
        = Unicode.toLowerCase (withoutExtension (chunkTitle chunk))).

Definition strategies
  : list (GroundingChunk -> Document -> bool) :=
  [byHandle; byExactTitle; byTitleIgnoringCase; byTitleWithoutExtension].

Fixpoint firstSuccess (ss : list (GroundingChunk -> Document -> bool))
    (allDocuments : list Document) (chunk : GroundingChunk)
  : option Document :=
  match ss with
  | [] => None
  | s :: rest =>
      match List.find (s chunk) allDocuments with
      | Some d => Some d
      | None => firstSuccess rest allDocuments chunk
      end
  end.

Definition specMatch (allDocuments : list Document)
    (chunk : GroundingChunk) : option Document :=
  firstSuccess strategies allDocuments chunk.

End Matching.

End Search.

(** ** Vocabulary for the properties of the citation map *)

Module SearchSpec.
Import Search.

Section Vocabulary.
Context {tables : Unicode.CaseTables}.

(** The entry [e] after chunk index [i] has been pushed on it. *)
Definition pushed (e : Entry) (i : nat) : Entry :=
  mkEntry (documentId e) (etitle e) (snippet e) (chunkIndices e ++ [i]).

(** The citation made of the entry at place [p] of the map. *)
Definition citationAt (p : nat) (e : Entry) : Citation :=
  mkCitation (documentId e) (etitle e) (snippet e) (p + 1) (chunkIndices e).

(** [c], at position [j], is the first fragment of [seen] whose document
    ID is [k]. *)
Definition firstWith (allDocuments : list Document)
    (seen : list GroundingChunk) (k : string) (j : nat)
    (c : GroundingChunk) : Prop :=
  seen !! j = Some c /\ documentIdOf allDocuments c = k
  /\ forall j' c', j' < j -> seen !! j' = Some c' ->
                   documentIdOf allDocuments c' <> k.

(** The state of [citationMap] once the fragments [seen] have been
    visited: one entry per document ID met, holding the positions of the
    fragments with that ID and the title and snippet of the first. *)
Record Inv (allDocuments : list Document) (seen : list GroundingChunk)
    (m : CitationMap) : Prop := {
  inv_keys : NoDup m.*1;
  inv_id : forall k e, (k, e) ∈ m -> documentId e = k;
  inv_indices : forall k e, (k, e) ∈ m ->
    forall j, j ∈ chunkIndices e
              <-> exists c, seen !! j = Some c
                            /\ documentIdOf allDocuments c = k;
  inv_first : forall k e, (k, e) ∈ m ->
    exists j c, firstWith allDocuments seen k j c
                /\ etitle e = entryTitle allDocuments c
                /\ snippet e = entrySnippet c;
  inv_all : forall j c, seen !! j = Some c ->
                        documentIdOf allDocuments c ∈ m.*1
}.

(** [c], at position [i], matches no document and carries the raw
    reference [r]. *)
Definition unresolvedAt (allDocuments : list Document)
    (groundingChunks : list GroundingChunk) (r : string) (i : nat)
    (c : GroundingChunk) : Prop :=
  groundingChunks !! i = Some c
  /\ matchDocument allDocuments c = None
  /\ geminiFileId c = r.

(** [c], at position [i], is the first such fragment. *)
Definition firstUnresolvedAt (allDocuments : list Document)
    (groundingChunks : list GroundingChunk) (r : string) (i : nat)
    (c : GroundingChunk) : Prop :=
  unresolvedAt allDocuments groundingChunks r i c
  /\ forall j c', j < i ->
                  ~ unresolvedAt allDocuments groundingChunks r j c'.

(** The strings of [ids] in the order in which each is first met, given
    those met before. *)
Fixpoint firstAppearances (seen ids : list string) : list string :=
  match ids with
  | [] => []
  | k :: rest =>
      if bool_decide (k ∈ seen) then firstAppearances seen rest
      else k :: firstAppearances (seen ++ [k]) rest
  end.

(** A fragment or document accepted by one of the four strategies. *)
Definition accepted (chunk : GroundingChunk) (doc : Document) : bool :=
  byHandle chunk doc || byExactTitle chunk doc
  || byTitleIgnoringCase chunk doc || byTitleWithoutExtension chunk doc.

End Vocabulary.

End SearchSpec.

(* ===================================================================== *)
(** * The world outside the pure code                                     *)
(* ===================================================================== *)

(** The result of a call that may throw; [msg] is the [message] of the
    thrown [Error]. *)
Inductive Outcome (A : Type) :=
| Returned (a : A)
| Thrown (msg : string).
Arguments Returned {A} a.
Arguments Thrown {A} msg.

(** [process.env]. *)
Record Env := mkEnv {
  AZURE_STORAGE_ACCOUNT_NAME : option string;
  AZURE_STORAGE_ACCOUNT_KEY : option string;
  AZURE_STORAGE_CONNECTION_STRING : option string;
  AZURE_STORAGE_CONTAINER_NAME : option string;
  GEMINI_API_KEY : option string
}.

(** The long-running operation of the retrieval service
    ([uploadToFileSearchStore], [operations.get]). *)
Module Operation.
Record Error := mkError { message : option string }.
Record Response := mkResponse { rname : option string }.
Record t := mk {
  done : bool;
  error : option Error;
  response : option Response;
  name : option string
}.
End Operation.

(** The retrieval service, as the sequence of its replies.  The reply to
    [fileSearchStores.create] and to [operations.get] may change from call
    to call, so both take the number of earlier calls of their kind. *)
Record Gemini := mkGemini {
  fileSearchStores_create : nat -> Outcome (option string);
  uploadToFileSearchStore :
    string -> string -> Js.value -> Outcome Operation.t;
  operations_get : nat -> Operation.t -> Outcome Operation.t;
  files_delete : string -> Outcome unit
}.

(** A stored blob: bytes, content type, metadata. *)
Record Blob := mkBlob {
  bytes : string;
  blobContentType : Js.value;
  blobMetadata : list (string * string)
}.

(** The row [('config', 'file-search-store')] of the table. *)
Record FileSearchStoreConfig := mkConfig {
  storeName : string;
  displayName : string;
  configCreatedAt : N
}.

(** What the code does that an observer outside can see, in order. *)
Inductive Event :=
| Slept (ms : N)
| Polled
| StoreCreationCalled (reply : Outcome (option string))
| StatusWritten (docId : string) (s : Status).

Record World := mkWorld {
  env : Env;
  (** the blob container *)
  blobs : gmap string Blob;
  (** partition ['doc'] of the table, by row key *)
  documents : gmap string Document;
  (** partition ['config'] of the table *)
  storeConfig : option FileSearchStoreConfig;
  (** the module variable [cachedStoreName] of file-search-store.ts *)
  cachedStoreName : option string;
  (** [Date.now()], in milliseconds *)
  now : N;
  trace : list Event;
  (** what the table service will answer the coming reads and writes of
      the registration row with, in order, apart from what the row itself
      decides: [Some msg] for a call it rejects with [msg] (a network
      failure, a throttled request, a write that lost against another
      process), [None] for a call it serves; past the end of the list
      every call is served *)
  configFaults : list (option string)
}.

Definition isPolled (e : Event) : bool :=
  match e with Polled => true | _ => false end.

Definition isStoreCreation (e : Event) : bool :=
  match e with StoreCreationCalled _ => true | _ => false end.

Definition pollCount (w : World) : nat := length (filter isPolled (trace w)).

Definition storeCreationCount (tr : list Event) : nat :=
  length (filter isStoreCreation tr).

(** ** The monad of the effectful code *)

Definition M (A : Type) : Type := World -> Outcome A * World.

Definition ret {A} (a : A) : M A := fun w => (Returned a, w).

Definition throw {A} (msg : string) : M A := fun w => (Thrown msg, w).

Definition bind {A B} (m : M A) (k : A -> M B) : M B :=
  fun w =>
    match m w with
    | (Returned a, w') => k a w'
    | (Thrown e, w') => (Thrown e, w')
    end.

(** [try { m } catch (error) { h(error.message) }]. *)
Definition tryCatch {A} (m : M A) (h : string -> M A) : M A :=
  fun w =>
    match m w with
    | (Returned a, w') => (Returned a, w')
    | (Thrown e, w') => h e w'
    end.

Definition getWorld : M World := fun w => (Returned w, w).

Definition modify (f : World -> World) : M unit := fun w => (Returned tt, f w).

(** A reply of a collaborator, returned or rethrown. *)
Definition lift {A} (r : Outcome A) : M A := fun w => (r, w).

#[global] Instance M_ret : MRet M := @ret.
#[global] Instance M_bind : MBind M := fun A B k m => bind m k.

Definition setBlobs (f : gmap string Blob -> gmap string Blob) (w : World)
  : World :=
  mkWorld (env w) (f (blobs w)) (documents w) (storeConfig w)
    (cachedStoreName w) (now w) (trace w) (configFaults w).

Definition setDocuments
    (f : gmap string Document -> gmap string Document) (w : World) : World :=
  mkWorld (env w) (blobs w) (f (documents w)) (storeConfig w)
    (cachedStoreName w) (now w) (trace w) (configFaults w).

Definition setStoreConfig (c : option FileSearchStoreConfig) (w : World)
  : World :=
  mkWorld (env w) (blobs w) (documents w) c (cachedStoreName w) (now w)
    (trace w) (configFaults w).

Definition setCachedStoreName (c : option string) (w : World) : World :=
  mkWorld (env w) (blobs w) (documents w) (storeConfig w) c (now w)
    (trace w) (configFaults w).

Definition setConfigFaults (l : list (option string)) (w : World) : World :=
  mkWorld (env w) (blobs w) (documents w) (storeConfig w)
    (cachedStoreName w) (now w) (trace w) l.

(** The first of the coming replies of the table service. *)
Definition nextFault (w : World) : option string :=
  match configFaults w with
  | fault :: _ => fault
  | [] => None
  end.

(** The world once that reply has been given. *)
Definition answered (w : World) : World :=
  setConfigFaults (tail (configFaults w)) w.

Definition emit (e : Event) (w : World) : World :=
  mkWorld (env w) (blobs w) (documents w) (storeConfig w)
    (cachedStoreName w) (now w) (trace w ++ [e]) (configFaults w).

Definition advance (ms : N) (w : World) : World :=
  mkWorld (env w) (blobs w) (documents w) (storeConfig w)
    (cachedStoreName w) (now w + ms) (trace w) (configFaults w).

(** [await new Promise(resolve => setTimeout(resolve, ms))]. *)
Definition sleep (ms : N) : M unit :=
  modify (fun w => emit (Slept ms) (advance ms w)).

(** [Date.now()], and [new Date()]: the instant of the world. *)
Definition DateNow : M N := fun w => (Returned (now w), w).

(** [n.toString()] on a non-negative integer. *)
Definition toString (n : N) : string := pretty n.

(* ===================================================================== *)
(** * lib/gemini/client.ts                                                *)
(* ===================================================================== *)

Module GeminiClient.

(** The client object is cached in a module variable; the environment does
    not change while a process runs, so the check has the same outcome on
    every call and the cache is not modelled. *)
Definition getGeminiClient : M unit :=
  w ← getWorld;
  if negb (Js.truthy (GEMINI_API_KEY (env w)))
  then throw "GEMINI_API_KEY is not defined in environment variables"
  else ret tt.

End GeminiClient.

(* ===================================================================== *)
(** * lib/db/table-storage.ts                                             *)
(* ===================================================================== *)

Module TableStorage.

Definition getTableClient : M unit :=
  w ← getWorld;
  if negb (Js.truthy (AZURE_STORAGE_ACCOUNT_NAME (env w)))
     || negb (Js.truthy (AZURE_STORAGE_ACCOUNT_KEY (env w)))
  then throw "Azure Storage credentials not configured"
  else ret tt.

(** [TableClient.getEntity('doc', id)]: rejects when the row is absent. *)
Definition getEntity (rowId : string) : M Document :=
  w ← getWorld;
  match documents w !! rowId with
  | Some entity => ret entity
  | None => throw "The specified resource does not exist."
  end.

(** [TableClient.createEntity(entity)]: rejects when the row exists.  The
    row keeps the [timestamp] it was written with (see the conventions). *)
Definition createEntity (entity : Document) : M unit :=
  w ← getWorld;
  match documents w !! rowKey entity with
  | Some _ => throw "The specified entity already exists."
  | None =>
      modify (fun w => emit (StatusWritten (rowKey entity) (status entity))
                         (setDocuments <[rowKey entity := entity]> w))
  end.

(** [Partial<Document>], with the keys the callers pass.  For
    [errorMessage] the outer [option] is the presence of the key, the
    inner one its value: [updateDocumentStatus] passes the key even when
    its value is [undefined]. *)
Record Updates := mkUpdates {
  u_status : option Status;
  u_errorMessage : option (option string);
  u_geminiDocumentId : option string;
  u_geminiFileSearchStoreName : option string
}.

(** [{ ...entity, ...updates }]: every key of [updates] wins, a key with
    value [undefined] included. *)
Definition spread (entity : Document) (updates : Updates) : Document :=
  mkDocument (partitionKey entity) (rowKey entity) (id entity)
    (title entity) (category entity) (version entity)
    (default (status entity) (u_status updates))
    (storageUri entity) (blobName entity) (fileSize entity)
    (fileType entity)
    (match u_geminiDocumentId updates with
     | Some h => Some h | None => geminiDocumentId entity end)
    (match u_geminiFileSearchStoreName updates with
     | Some h => Some h | None => geminiFileSearchStoreName entity end)
    (default (errorMessage entity) (u_errorMessage updates))
    (createdAt entity) (timestamp entity).

(** [TableClient.updateEntity(updated, 'Merge')]: rejects when the row is
    absent; a property whose value is [undefined] is not sent, so the
    stored row keeps its old value for it. *)
Definition updateEntityMerge (updated : Document) : M unit :=
  w ← getWorld;
  match documents w !! rowKey updated with
  | None => throw "The specified resource does not exist."
  | Some old =>
      let stored :=
        mkDocument (partitionKey updated) (rowKey updated) (id updated)
          (title updated) (category updated) (version updated)
          (status updated) (storageUri updated) (blobName updated)
          (match fileSize updated with
           | Some x => Some x | None => fileSize old end)
          (match fileType updated with
           | Some x => Some x | None => fileType old end)
          (match geminiDocumentId updated with
           | Some x => Some x | None => geminiDocumentId old end)
          (match geminiFileSearchStoreName updated with
           | Some x => Some x | None => geminiFileSearchStoreName old end)
          (match errorMessage updated with
           | Some x => Some x | None => errorMessage old end)
          (createdAt updated) (timestamp updated) in
      modify (fun w => emit (StatusWritten (rowKey updated) (status stored))
                         (setDocuments <[rowKey updated := stored]> w))
  end.

(** The argument of [createDocument]: a [Document] without its keys and
    dates. *)
Record DocumentData := mkData {
  d_title : string;
  d_category : string;
  d_version : string;
  d_status : Status;
  d_storageUri : string;
  d_blobName : string;
  d_fileSize : option string;
  d_fileType : option string
}.

Definition createDocument (doc : DocumentData) : M Document :=
  n ← DateNow;
  let id := toString n in
  now ← DateNow;
  let entity :=
    mkDocument "doc" id id (d_title doc) (d_category doc) (d_version doc)
      (d_status doc) (d_storageUri doc) (d_blobName doc) (d_fileSize doc)
      (d_fileType doc) None None None now now in
  _ ← getTableClient;
  _ ← createEntity entity;
  ret entity.

Definition getDocumentById (id : string) : M (option Document) :=
  tryCatch
    (_ ← getTableClient;
     entity ← getEntity id;
     ret (Some entity))
    (fun _ => ret None).

Definition updateDocument (id : string) (updates : Updates) : M Document :=
  _ ← getTableClient;
  entity ← getEntity id;
  let updated := spread entity updates in
  _ ← getTableClient;
  _ ← updateEntityMerge updated;
  ret updated.

(** [TableClient.deleteEntity('doc', id)]: rejects when the row is
    absent. *)
Definition deleteDocument (id : string) : M unit :=
  _ ← getTableClient;
  w ← getWorld;
  match documents w !! id with
  | None => throw "The specified resource does not exist."
  | Some _ => modify (setDocuments (delete id))
  end.

(** The rows of partition ['doc'] as [listEntities] yields them: the
    table lists a partition by row key. *)
Definition byRowKey (a b : string * Document) : Prop :=
  String.leb (fst a) (fst b) = true.

#[global] Instance byRowKey_dec (a b : string * Document)
  : Decision (byRowKey a b).
Proof. unfold byRowKey. apply _. Defined.

Definition listEntities (w : World) : list Document :=
  snd <$> merge_sort byRowKey (map_to_list (documents w)).

(** One step of [docs.sort((a, b) => getTime(b.createdAt) -
    getTime(a.createdAt))]: [a] goes before the first [b] the comparator
    does not put before it.  The sort is stable. *)
Fixpoint insertByDate (a : Document) (l : list Document) : list Document :=
  match l with
  | [] => [a]
  | b :: r =>
      if (createdAt b <=? createdAt a)%N then a :: b :: r
      else b :: insertByDate a r
  end.

Definition sortNewestFirst (docs : list Document) : list Document :=
  foldr insertByDate [] docs.

Definition getAllDocuments : M (list Document) :=
  _ ← getTableClient;
  w ← getWorld;
  ret (sortNewestFirst (listEntities w)).

End TableStorage.

(* ===================================================================== *)
(** * lib/storage/azure-storage.ts                                        *)
(* ===================================================================== *)

Module AzureStorage.
Import Js.

Definition getBlobServiceClient : M unit :=
  w ← getWorld;
  if negb (truthy (AZURE_STORAGE_CONNECTION_STRING (env w)))
  then throw "AZURE_STORAGE_CONNECTION_STRING is not defined"
  else ret tt.

Definition getContainerName : M string :=
  w ← getWorld;
  match AZURE_STORAGE_CONTAINER_NAME (env w) with
  | Some n =>
      if truthyStr n then ret n
      else throw "AZURE_STORAGE_CONTAINER_NAME is not defined"
  | None => throw "AZURE_STORAGE_CONTAINER_NAME is not defined"
  end.

(** The container client is named by its container;
    [createIfNotExists] leaves the blobs alone. *)
Definition getContainerClient : M string :=
  _ ← getBlobServiceClient;
  container ← getContainerName;
  ret container.

Definition contentTypes : list (string * string) :=
  [ ("pdf", "application/pdf");
    ("docx",
     "application/vnd.openxmlformats-officedocument.wordprocessingml.document");
    ("doc", "application/msword");
    ("txt", "text/plain") ].

Definition getContentType (fileName : string) : value :=
  let ext := pop (splitDot (toLowerCase fileName)) in
  orValue (getProperty contentTypes (orStr ext ""))
    "application/octet-stream".

(** [blockBlobClient.url], up to the account endpoint. *)
Definition blobUrl (container blobName : string) : string :=
  container +:+ "/" +:+ blobName.

(** [blockBlobClient.upload] with [blobContentType] in its headers: the
    client serializes the headers before it sends anything and rejects a
    content type that is not a string, so nothing is stored then. *)
Definition upload (blobName : string) (file : string)
    (contentType : value) (metadata : list (string * string)) : M unit :=
  match contentType with
  | VString _ =>
      modify (setBlobs <[blobName := mkBlob file contentType metadata]>)
  | VBuiltin _ => throw "blobContentType must be of type string."
  end.

Definition uploadDocument (file : string) (fileName : string)
    (metadata : list (string * string)) : M (string * string) :=
  container ← getContainerClient;
  n ← DateNow;
  let blobName := toString n +:+ "-" +:+ fileName in
  _ ← upload blobName file (getContentType fileName) metadata;
  ret (blobUrl container blobName, blobName).

(** [blockBlobClient.deleteIfExists()]. *)
Definition deleteDocument (blobName : string) : M unit :=
  _ ← getContainerClient;
  modify (setBlobs (delete blobName)).

(** [blockBlobClient.download()] rejects when the blob is absent; the
    stream of a present blob is read to its end. *)
Definition downloadDocument (blobName : string) : M string :=
  _ ← getContainerClient;
  w ← getWorld;
  match blobs w !! blobName with
  | Some b => ret (bytes b)
  | None => throw "The specified blob does not exist."
  end.

(** [blockBlobClient.getProperties()] rejects when the blob is absent. *)
Definition getDocumentMetadata (blobName : string)
  : M (list (string * string)) :=
  _ ← getContainerClient;
  w ← getWorld;
  match blobs w !! blobName with
  | Some b => ret (blobMetadata b)
  | None => throw "The specified blob does not exist."
  end.

(** [blockBlobClient.setMetadata(metadata)] replaces the metadata of a
    present blob and rejects when the blob is absent. *)
Definition updateDocumentMetadata (blobName : string)
    (metadata : list (string * string)) : M unit :=
  _ ← getContainerClient;
  w ← getWorld;
  match blobs w !! blobName with
  | Some b =>
      modify (setBlobs
                <[blobName := mkBlob (bytes b) (blobContentType b) metadata]>)
  | None => throw "The specified blob does not exist."
  end.

(** [blockBlobClient.exists()]. *)
Definition documentExists (blobName : string) : M bool :=
  _ ← getContainerClient;
  w ← getWorld;
  ret (bool_decide (is_Some (blobs w !! blobName))).

End AzureStorage.

(* ===================================================================== *)
(** * lib/gemini/file-search-store.ts                                     *)
(* ===================================================================== *)

Module FileSearchStore.
Import Js.

Definition getStoreTableClient : M unit :=
  w ← getWorld;
  if negb (truthy (AZURE_STORAGE_ACCOUNT_NAME (env w)))
     || negb (truthy (AZURE_STORAGE_ACCOUNT_KEY (env w)))
  then throw "Azure Storage credentials not configured"
  else ret tt.

(** The reply of the table service to the call being made, as far as
    the row does not decide it; the replies to the calls after it are
    left. *)
Definition takeFault : M (option string) :=
  fun w => (Returned (nextFault w), answered w).

(** [tableClient.getEntity('config', 'file-search-store')]: rejects when
    the service rejects the read, and when the row is absent. *)
Definition getEntity : M FileSearchStoreConfig :=
  fault ← takeFault;
  match fault with
  | Some msg => throw msg
  | None =>
      w ← getWorld;
      match storeConfig w with
      | Some entity => ret entity
      | None => throw "The specified resource does not exist."
      end
  end.

(** [tableClient.createEntity(config)]: rejects when the service rejects
    the write, and when the row exists; a rejected write stores
    nothing. *)
Definition createEntity (config : FileSearchStoreConfig) : M unit :=
  fault ← takeFault;
  match fault with
  | Some msg => throw msg
  | None =>
      w ← getWorld;
      match storeConfig w with
      | Some _ => throw "The specified entity already exists."
      | None => modify (setStoreConfig (Some config))
      end
  end.

(** [client.fileSearchStores.create(...)]: the call is recorded with its
    reply, then returns or rethrows it. *)
Definition create (svc : Gemini) : M (option string) :=
  w ← getWorld;
  let reply := fileSearchStores_create svc (storeCreationCount (trace w)) in
  _ ← modify (emit (StoreCreationCalled reply));
  lift reply.

Definition getOrCreateFileSearchStore (svc : Gemini) : M string :=
  w ← getWorld;
  if truthy (cachedStoreName w) then ret (orStr (cachedStoreName w) "")
  else
    _ ← getStoreTableClient;
    found ← tryCatch
              (entity ← getEntity;
               _ ← modify (setCachedStoreName (Some (storeName entity)));
               ret (Some (storeName entity)))
              (fun _ => ret None);
    match found with
    | Some name => ret name
    | None =>
        _ ← GeminiClient.getGeminiClient;
        store ← create svc;
        if negb (truthy store)
        then throw "Failed to create File Search Store - no name returned"
        else
          let name := orStr store "" in
          now ← DateNow;
          _ ← createEntity (mkConfig name "pgc-policies" now);
          _ ← modify (setCachedStoreName (Some name));
          ret name
    end.

End FileSearchStore.

(* ===================================================================== *)
(** * lib/gemini/document-indexing.ts                                     *)
(* ===================================================================== *)

Module DocumentIndexing.
Import Js.

Record GeminiUploadResult := mkResult {
  r_geminiDocumentId : string;
  r_geminiFileSearchStoreName : string
}.

Definition mimeTypes : list (string * string) :=
  [ ("pdf", "application/pdf");
    ("docx",
     "application/vnd.openxmlformats-officedocument.wordprocessingml.document");
    ("doc", "application/msword");
    ("txt", "text/plain") ].

Definition extensionOf (fileName : string) : option string :=
  option_map toLowerCase (pop (splitDot fileName)).

Definition getMimeType (fileName : string) : value :=
  let extension := extensionOf fileName in
  orValue (getProperty mimeTypes (orStr extension ""))
    "application/octet-stream".

(** The suffix the table is indexed with: the text after the last dot
    (the whole name when it has no dot), in lower case. *)
Definition suffix (fileName : string) : string :=
  orStr (extensionOf fileName) "".

Definition maxAttempts : nat := 60.

Definition timeoutMessage : string :=
  "Gemini indexing timeout - operation did not complete in 5 minutes".

Definition failureMessage (e : Operation.Error) : string :=
  "Gemini indexing failed: " +:+ interpolate (Operation.message e).

(** [client.operations.get({ operation })]. *)
Definition operationsGet (svc : Gemini) (operation : Operation.t)
  : M Operation.t :=
  w ← getWorld;
  _ ← modify (emit Polled);
  lift (operations_get svc (pollCount w) operation).

(** The [while] loop of lines 71-80.  [remaining] is
    [maxAttempts - pollAttempts], so the test [pollAttempts < maxAttempts]
    is [remaining] not being zero. *)
Fixpoint pollLoop (svc : Gemini) (remaining : nat)
    (completedOperation : Operation.t) : M Operation.t :=
  if negb (Operation.done completedOperation) then
    match remaining with
    | O => ret completedOperation
    | S remaining' =>
        _ ← sleep 5000;
        completedOperation ← operationsGet svc completedOperation;
        pollLoop svc remaining' completedOperation
    end
  else ret completedOperation.

(** Lines 82-101, what follows the loop. *)
Definition conclude (storeName : string)
    (completedOperation : Operation.t) : M GeminiUploadResult :=
  if negb (Operation.done completedOperation) then throw timeoutMessage
  else
    match Operation.error completedOperation with
    | Some e => throw (failureMessage e)
    | None =>
        let geminiDocumentId :=
          orStr
            (match Operation.response completedOperation with
             | Some r => Operation.rname r
             | None => None
             end)
            (orStr (Operation.name completedOperation) "unknown") in
        ret (mkResult geminiDocumentId storeName)
    end.

(** Lines 41-64: the client, the store, the content type and the upload
    call, which returns the operation to poll.  The oracle is asked with
    the store, the display name and the content type. *)
Definition startUpload (svc : Gemini) (buffer : string)
    (fileName : string) (metadata : string * string * string)
  : M (string * Operation.t) :=
  _ ← GeminiClient.getGeminiClient;
  storeName ← FileSearchStore.getOrCreateFileSearchStore svc;
  let mimeType := getMimeType fileName in
  operation ← lift (uploadToFileSearchStore svc storeName fileName mimeType);
  ret (storeName, operation).

(** Lines 41-80: up to the end of the loop. *)
Definition pollForCompletion (svc : Gemini) (buffer : string)
    (fileName : string) (metadata : string * string * string)
  : M (string * Operation.t) :=
  '(storeName, operation) ← startUpload svc buffer fileName metadata;
  completedOperation ← pollLoop svc maxAttempts operation;
  ret (storeName, completedOperation).

Definition uploadDocumentToGemini (svc : Gemini) (buffer : string)
    (fileName : string) (metadata : string * string * string)
  : M GeminiUploadResult :=
  '(storeName, completedOperation) ←
    pollForCompletion svc buffer fileName metadata;
  conclude storeName completedOperation.

Definition deleteDocumentFromGemini (svc : Gemini)
    (geminiDocumentId : string) : M unit :=
  tryCatch
    (_ ← GeminiClient.getGeminiClient;
     lift (files_delete svc geminiDocumentId))
    (fun _ => ret tt).

End DocumentIndexing.

(* ===================================================================== *)
(** * lib/documents/crud.ts                                               *)
(* ===================================================================== *)

Module Crud.
Import Js.

Definition updateDocumentStatus (id : string) (status : Status)
    (errorMessage : option string) : M Document :=
  TableStorage.updateDocument id
    (TableStorage.mkUpdates (Some status) (Some errorMessage) None None).

Definition deleteDocument (svc : Gemini) (id : string) : M unit :=
  doc ← TableStorage.getDocumentById id;
  _ ← match doc with
      | Some doc =>
          _ ← AzureStorage.deleteDocument (blobName doc);
          if truthy (geminiDocumentId doc)
          then DocumentIndexing.deleteDocumentFromGemini svc
                 (orStr (geminiDocumentId doc) "")
          else ret tt
      | None => ret tt
      end;
  TableStorage.deleteDocument id.

Definition getAllDocuments : M (list Document) :=
  TableStorage.getAllDocuments.

Definition getDocumentById (id : string) : M (option Document) :=
  TableStorage.getDocumentById id.

(** Steps 4 to 6 of [uploadAndCreateDocument]: the [try] that indexes the
    record just created and the [catch] that marks it failed. *)
Definition indexCreated (svc : Gemini) (document : Document)
    (buffer : string) (fileName : string)
    (metadata : string * string * string) : M Document :=
  tryCatch
    (geminiResult ←
       DocumentIndexing.uploadDocumentToGemini svc buffer fileName metadata;
     TableStorage.updateDocument (id document)
       (TableStorage.mkUpdates (Some ready) None
          (Some (DocumentIndexing.r_geminiDocumentId geminiResult))
          (Some (DocumentIndexing.r_geminiFileSearchStoreName
                   geminiResult))))
    (fun errorMessage =>
       _ ← TableStorage.updateDocument (id document)
             (TableStorage.mkUpdates (Some failed)
                (Some (Some ("Gemini upload failed: " +:+ errorMessage)))
                None None);
       throw errorMessage).

(** [formatFileSize] computes with floating-point logarithms; the
    pipeline only stores its result, so it is a parameter here. *)
Definition uploadAndCreateDocument (svc : Gemini)
    (formatFileSize : nat -> string) (file : string) (fileName : string)
    (metadata : string * string * string) : M Document :=
  let '(mtitle, mcategory, mversion) := metadata in
  '(uri, blobName) ←
    AzureStorage.uploadDocument file fileName
      [("title", mtitle); ("category", mcategory); ("version", mversion)];
  let fileSize := String.length file in
  let fileSizeFormatted := formatFileSize fileSize in
  let fileType :=
    orStr (option_map toLowerCase (pop (splitDot fileName))) "unknown" in
  document ←
    TableStorage.createDocument
      (TableStorage.mkData mtitle mcategory mversion processing uri
         blobName (Some fileSizeFormatted) (Some fileType));
  indexCreated svc document file fileName metadata.

End Crud.

(* ===================================================================== *)
(** * app/api/documents/[id]/route.ts                                     *)
(* ===================================================================== *)

Module DocumentRoute.
Import Js.

(** The two fields the handler reads of a JSON body that is not [null].
    [b_status] is [None] where the value has no string: the test of line
    136 fails for every value that is not one of the three names.
    [b_errorMessage] is the message where it is a string and [None] where
    there is none; a message of another type is left out. *)
Record PatchBody := mkPatchBody {
  b_status : option string;
  b_errorMessage : option string
}.

Record Response := mkResponse {
  httpStatus : nat;
  message : string;
  document : option Document
}.

(** [['processing', 'ready', 'failed'].includes(status)], with the value
    of the union type the string stands for. *)
Definition parseStatus (s : string) : option Status :=
  if s =? "processing" then Some processing
  else if s =? "ready" then Some ready
  else if s =? "failed" then Some failed
  else None.

(** The JSON value [request.json()] resolves to.  The handler reads it by
    destructuring, [const { status, errorMessage } = body]: on [null] that
    throws, on every other value it gives the two fields, [undefined]
    where the value has none. *)
Inductive Json :=
| JNull
| JValue (fields : PatchBody).

(** [body] is [None] when [request.json()] rejects. *)
Definition PATCH (id : string) (body : option Json) : M Response :=
  tryCatch
    (match body with
     | None => throw "Unexpected end of JSON input"
     | Some JNull =>
         throw "Cannot destructure property 'status' of 'body' as it is null."
     | Some (JValue body) =>
         match b_status body with
         | None => ret (mkResponse 400 "Invalid status" None)
         | Some s =>
             match parseStatus s with
             | None => ret (mkResponse 400 "Invalid status" None)
             | Some status =>
                 document ←
                   Crud.updateDocumentStatus id status
                     (b_errorMessage body);
                 ret (mkResponse 200 "Updated" (Some document))
             end
         end
     end)
    (fun _ => ret (mkResponse 500 "Update failed" None)).

Definition DELETE (svc : Gemini) (id : string) : M Response :=
  tryCatch
    (_ ← Crud.deleteDocument svc id;
     ret (mkResponse 200 "Deleted" None))
    (fun _ => ret (mkResponse 500 "Delete failed" None)).

Definition GET (id : string) : M Response :=
  tryCatch
    (document ← Crud.getDocumentById id;
     match document with
     | None => ret (mkResponse 404 "Not found" None)
     | Some document => ret (mkResponse 200 "" (Some document))
     end)
    (fun _ => ret (mkResponse 500 "Failed to get document" None)).

End DocumentRoute.

(* ===================================================================== *)
(** * app/api/documents/route.ts                                          *)
(* ===================================================================== *)

Module DocumentsRoute.
Import Js.

(** The [File] of the form: name, declared type, content. *)
Record UploadedFile := mkFile {
  f_name : string;
  f_type : string;
  f_bytes : string
}.

(** The fields of the multipart form the handler reads; a field that is
    absent is [None]. *)
Record UploadForm := mkForm {
  form_file : option UploadedFile;
  form_title : option string;
  form_category : option string;
  form_version : option string
}.

Record ListResponse := mkListResponse {
  l_httpStatus : nat;
  l_error : string;
  l_documents : list Document
}.

Definition GET : M ListResponse :=
  tryCatch
    (documents ← Crud.getAllDocuments;
     ret (mkListResponse 200 "" documents))
    (fun _ => ret (mkListResponse 500 "Failed to fetch documents" [])).

Definition allowedTypes : list string :=
  [ "application/pdf";
    "application/vnd.openxmlformats-officedocument.wordprocessingml.document";
    "application/msword" ].

(** [100 * 1024 * 1024]. *)
Definition maxSize : nat := 100 * 1024 * 1024.

(** [allowedTypes.includes(file.type)]. *)
Definition includes (l : list string) (s : string) : bool :=
  existsb (String.eqb s) l.

(** [form] is [None] when [request.formData()] rejects. *)
Definition POST (svc : Gemini) (formatFileSize : nat -> string)
    (form : option UploadForm) : M DocumentRoute.Response :=
  tryCatch
    (match form with
     | None => throw "Failed to parse body as FormData."
     | Some form =>
         match form_file form with
         | None => ret (DocumentRoute.mkResponse 400 "File is required" None)
         | Some file =>
             if negb (truthy (form_title form))
                || negb (truthy (form_category form))
                || negb (truthy (form_version form))
             then
               ret (DocumentRoute.mkResponse 400
                      "Title, category, and version are required" None)
             else if negb (includes allowedTypes (f_type file)) then
               ret (DocumentRoute.mkResponse 400
                      "Only PDF and DOCX files are allowed" None)
             else if (maxSize <? String.length (f_bytes file))%nat then
               ret (DocumentRoute.mkResponse 400
                      "File size must be less than 100MB" None)
             else
               document ←
                 Crud.uploadAndCreateDocument svc formatFileSize
                   (f_bytes file) (f_name file)
                   (orStr (form_title form) "", orStr (form_category form) "",
                    orStr (form_version form) "");
               ret (DocumentRoute.mkResponse 201
                      "Document uploaded successfully" (Some document))
         end
     end)
    (fun _ =>
       ret (DocumentRoute.mkResponse 500 "Failed to upload document" None)).

End DocumentsRoute.

(* ===================================================================== *)
(** * app/page.tsx, the inline citation markers                           *)
(* ===================================================================== *)

Module SearchPage.
Import Js Search.

(** The double quote. *)
Definition quote : string := String (ascii_of_nat 34) EmptyString.

(** The markdown link a marker is replaced with:
    [[n](#citation-n "title")]. *)
Definition markdownLink (n : nat) (title : string) : string :=
  "[" +:+ pretty n +:+ "](#citation-" +:+ pretty n +:+ " " +:+ quote
  +:+ title +:+ quote +:+ ")".

(** The callback of [content.replace(/\[(\d+)\]/g, ...)], given the text
    matched and the number [parseInt(num, 10)] of its digits.
    [chunkToCitationMap] is [None] when the response carries none. *)
Definition replaceMarker (citations : list Citation)
    (chunkToCitationMap : option (gmap nat nat)) (matched : string)
    (chunkNum : nat) : string :=
  match chunkToCitationMap with
  | Some map =>
      match chunkNum with
      | O => matched
      | S chunkIndex =>
          match map !! chunkIndex with
          | Some citationIndex =>
              match List.find (fun c => c_index c =? citationIndex)%nat
                      citations with
              | Some citation => markdownLink citationIndex (c_title citation)
              | None => matched
              end
          | None => matched
          end
      end
  | None =>
      match chunkNum with
      | O => matched
      | S citationIndex =>
          match citations !! citationIndex with
          | Some citation => markdownLink chunkNum (c_title citation)
          | None => matched
          end
      end
  end.

Definition isDigit (c : ascii) : bool :=
  let n := N_of_ascii c in ((48 <=? n) && (n <=? 57))%N.

(** [parseInt(num, 10)] on a string of digits, most significant first.
    [parseInt] gives the nearest double, which is this number below
    [2^53]. *)
Fixpoint parseDigits (acc : nat) (num : string) : nat :=
  match num with
  | EmptyString => acc
  | String c r =>
      parseDigits (10 * acc + N.to_nat (N_of_ascii c - 48)) r
  end.

(** [content.replace(/\[(\d+)\]/g, callback)], read left to right.
    [pending] holds the digits read since an opening bracket that may still
    become a marker; when it cannot, the bracket and the digits are kept as
    they are, and the search goes on from the character that ended them. *)
Fixpoint replaceMarkers (callback : string -> nat -> string)
    (pending : option string) (content : string) : string :=
  match content with
  | EmptyString =>
      match pending with
      | Some num => "[" +:+ num
      | None => EmptyString
      end
  | String c rest =>
      let outside :=
        if Ascii.eqb c "["%char then replaceMarkers callback (Some "") rest
        else String c (replaceMarkers callback None rest) in
      match pending with
      | None => outside
      | Some num =>
          if isDigit c then
            replaceMarkers callback
              (Some (num +:+ String c EmptyString)) rest
          else if Ascii.eqb c "]"%char && truthyStr num then
            callback ("[" +:+ num +:+ "]") (parseDigits 0 num)
            +:+ replaceMarkers callback None rest
          else "[" +:+ num +:+ outside
      end
  end.

(** [processedContent]. *)
Definition processContent (citations : list Citation)
    (chunkToCitationMap : option (gmap nat nat)) (content : string)
  : string :=
  replaceMarkers (replaceMarker citations chunkToCitationMap) None content.

End SearchPage.

(* ===================================================================== *)
(** * lib/auth/config.ts and middleware.ts                                *)
(* ===================================================================== *)

Module Auth.
Import Js.

Record Credentials := mkCredentials {
  username : option string;
  password : option string
}.

Record User := mkUser {
  u_id : string;
  u_name : string;
  u_email : string
}.

(** [authorize(credentials)]; the two arguments before it are
    [process.env.ADMIN_USERNAME] and [process.env.ADMIN_PASSWORD]. *)
Definition authorize (ADMIN_USERNAME ADMIN_PASSWORD : option string)
    (credentials : option Credentials) : option User :=
  match credentials with
  | None => None
  | Some credentials =>
      if negb (truthy (username credentials))
         || negb (truthy (password credentials))
      then None
      else
        let adminUsername := orStr ADMIN_USERNAME "admin" in
        let adminPassword := orStr ADMIN_PASSWORD "admin123" in
        if negb (orStr (username credentials) "" =? adminUsername) then None
        else if negb (orStr (password credentials) "" =? adminPassword)
        then None
        else Some (mkUser "1" adminUsername
                     (adminUsername +:+ "@pgcplus.local"))
  end.

(** The [authorized] callback: [isLoggedIn] is [!!auth?.user]. *)
Definition authorized (isLoggedIn : bool) (pathname : string) : bool :=
  let isOnDocuments := String.prefix "/documents" pathname in
  if isOnDocuments then (if isLoggedIn then true else false) else true.

Inductive MiddlewareResult :=
| Next
| Redirect (to callbackUrl : string).

(** The middleware: [isLoggedIn] is [!!req.auth]. *)
Definition middleware (isLoggedIn : bool) (pathname : string)
  : MiddlewareResult :=
  let isOnDocuments := String.prefix "/documents" pathname in
  if isOnDocuments && negb isLoggedIn
  then Redirect "/auth/signin" pathname
  else Next.

End Auth.

(* ===================================================================== *)
(** * Vocabulary for the properties of the effectful code                 *)
(* ===================================================================== *)

Module WorldSpec.

(** The two variables the table clients need are set. *)
Definition tableConfigured (e : Env) : Prop :=
  Js.truthy (AZURE_STORAGE_ACCOUNT_NAME e) = true
  /\ Js.truthy (AZURE_STORAGE_ACCOUNT_KEY e) = true.

(** The two variables the blob client needs are set. *)
Definition blobConfigured (e : Env) : Prop :=
  Js.truthy (AZURE_STORAGE_CONNECTION_STRING e) = true
  /\ Js.truthy (AZURE_STORAGE_CONTAINER_NAME e) = true.

Definition isStatusWritten (e : Event) : bool :=
  match e with StatusWritten _ _ => true | _ => false end.

(** The statuses written to the table, in order, with the row they were
    written to. *)
Definition statusWrites (tr : list Event) : list (string * Status) :=
  omap (fun e => match e with
                 | StatusWritten d s => Some (d, s)
                 | _ => None
                 end) tr.

(** A reply of the store-creation call that carries a usable handle. *)
Definition isUsableCreation (e : Event) : bool :=
  match e with
  | StoreCreationCalled (Returned name) => Js.truthy name
  | _ => false
  end.

Definition usableCreationCount (tr : list Event) : nat :=
  length (filter isUsableCreation tr).

(** [n] calls of [getOrCreateFileSearchStore] one after the other: the
    outcome of each with the world it leaves. *)
Fixpoint calls (svc : Gemini) (n : nat) (w : World)
  : list (Outcome string * World) :=
  match n with
  | O => []
  | S n' =>
      let rw := FileSearchStore.getOrCreateFileSearchStore svc w in
      rw :: calls svc n' (snd rw)
  end.



(** The world after [n] such calls. *)
Fixpoint worldAfter (svc : Gemini) (n : nat) (w : World) : World :=
  match n with
  | O => w
  | S n' =>
      worldAfter svc n'
        (snd (FileSearchStore.getOrCreateFileSearchStore svc w))
  end.

(** The table service serves every coming read and write of the
    registration row. *)
Definition served (w : World) : Prop :=
  Forall (fun fault => fault = None) (configFaults w).

(** The world after the store creation has been called and has replied
    [reply], and the outcome of what follows a reply with the name
    [name]: the write of the row, then the cache. *)
Definition afterCreation (reply : Outcome (option string)) (w : World) : World :=
  emit (StoreCreationCalled reply) (answered w).

Definition registration (name : string) (w : World)
  : Outcome string * World :=
  let w2 := afterCreation (Returned (Some name)) w in
  match nextFault w2 with
  | Some msg => (Thrown msg, answered w2)
  | None =>
      match storeConfig w with
      | Some _ => (Thrown "The specified entity already exists.",
                   answered w2)
      | None =>
          (Returned name,
           setCachedStoreName (Some name)
             (setStoreConfig (Some (mkConfig name "pgc-policies" (now w)))
                (answered w2)))
      end
  end.

(** The world a new process starts in: the module variable
    [cachedStoreName] is [null] again, the stores are as they were. *)
Definition restart (w : World) : World := setCachedStoreName None w.

(** [a] is listed before [b] only if it is not older. *)
Definition notOlder (a b : Document) : Prop :=
  (createdAt b <= createdAt a)%N.

(** One round of the poll loop as an observer sees it. *)
Definition pollRound : list Event := [Slept 5000; Polled].

(** [w'] differs from [w] by effects on the retrieval service only: same
    environment, blobs and documents, and no status written. *)
Definition quiet (w w' : World) : Prop :=
  env w' = env w /\ blobs w' = blobs w /\ documents w' = documents w
  /\ exists evs, trace w' = trace w ++ evs /\ statusWrites evs = [].

Definition Quiet {A} (m : M A) : Prop := forall w, quiet w (snd (m w)).

(** The string of the union type each status value is. *)
Definition statusName (s : Status) : string :=
  match s with
  | processing => "processing"
  | ready => "ready"
  | failed => "failed"
  end.

(** What the upload handler checks before it stores anything. *)
Definition rejected (form : DocumentsRoute.UploadForm) : Prop :=
  match DocumentsRoute.form_file form with
  | None => True
  | Some file =>
      Js.truthy (DocumentsRoute.form_title form) = false
      \/ Js.truthy (DocumentsRoute.form_category form) = false
      \/ Js.truthy (DocumentsRoute.form_version form) = false
      \/ DocumentsRoute.f_type file ∉ DocumentsRoute.allowedTypes
      \/ (DocumentsRoute.maxSize
          < String.length (DocumentsRoute.f_bytes file))%nat
  end.






(** [s] consists of decimal digits. *)
Fixpoint allDigits (s : string) : bool :=
  match s with
  | EmptyString => true
  | String c r => SearchPage.isDigit c && allDigits r
  end.

End WorldSpec.

(* ===================================================================== *)
(** * Sample data                                                         *)
(* ===================================================================== *)

Module Examples.
Import Search.

(** Case tables that convert the letters [A-Z] and nothing else: those of
    a run time on ASCII text. *)
Definition asciiTables : Unicode.CaseTables := Js.toLowerCase.

Definition sampleDocument (id title handle : string) : Document :=
  mkDocument "doc" id id title "HR" "1.0" ready
    ("documents/" +:+ id +:+ "-" +:+ title +:+ ".pdf")
    (id +:+ "-" +:+ title +:+ ".pdf") (Some "12 KB") (Some "pdf")
    (Some handle) (Some "fileSearchStores/pgc-policies") None 0%N 0%N.

Definition leavePolicy : Document :=
  sampleDocument "1700000000001" "Leave Policy"
    "fileSearchStores/pgc-policies/documents/leave".

Definition travelPolicy : Document :=
  sampleDocument "1700000000002" "Travel Policy"
    "fileSearchStores/pgc-policies/documents/travel".

Definition library : list Document := [leavePolicy; travelPolicy].

(** Case tables that also convert the capital letters of the Latin-1
    supplement, À to Þ: in UTF-8 the byte 195 followed by a byte from 128
    to 158, the multiplication sign (151) apart. *)
Fixpoint latin1ToLowerCase (s : string) : string :=
  match s with
  | EmptyString => EmptyString
  | String c r =>
      if Ascii.eqb c (ascii_of_N 195) then
        match r with
        | EmptyString => String c EmptyString
        | String d r' =>
            let n := N_of_ascii d in
            String c
              (String
                 (if ((128 <=? n) && (n <=? 158) && negb (n =? 151))%N
                  then ascii_of_N (n + 32) else d)
                 (latin1ToLowerCase r'))
        end
      else String (Js.toLowerChar c) (latin1ToLowerCase r)
  end.

Definition latin1Tables : Unicode.CaseTables := latin1ToLowerCase.

Definition cafePolicy : Document :=
  sampleDocument "1700000000003" "café policy"
    "fileSearchStores/pgc-policies/documents/cafe".

(** A fragment that carries a reference and a text. *)
Definition fragmentAt (ref snippet : string) : GroundingChunk :=
  mkChunk None (Some (mkSource (Some ref) None None (Some snippet))).

(** A fragment that carries a title and a text, and no reference. *)
Definition fragmentTitled (t snippet : string) : GroundingChunk :=
  mkChunk None (Some (mkSource None None (Some t) (Some snippet))).

(** A fragment that carries a reference, a title and a text. *)
Definition fragmentFull (ref t snippet : string) : GroundingChunk :=
  mkChunk None (Some (mkSource (Some ref) None (Some t) (Some snippet))).

(** Five fragments: positions 0, 2, 4 resolve to the leave policy and
    positions 1, 3 to the travel policy. *)
Definition alternating : list GroundingChunk :=
  [ fragmentAt "fileSearchStores/pgc-policies/documents/leave" "annual";
    fragmentAt "fileSearchStores/pgc-policies/documents/travel" "flights";
    fragmentTitled "Leave Policy.DOCX" "sick";
    fragmentTitled "travel policy" "hotels";
    fragmentTitled "Leave Policy" "carers" ].

(** Two fragments no document matches, with one reference. *)
Definition strangers : list GroundingChunk :=
  [ fragmentAt "fileSearchStores/pgc-policies/documents/leave" "annual";
    fragmentFull "files/gone" "Old Handbook.pdf" "first";
    fragmentFull "files/gone" "Older Handbook.pdf" "second" ].

(** The reference of the second fragment is the ID of the document the
    first one resolves to. *)
Definition colliding : list GroundingChunk :=
  [ fragmentAt "fileSearchStores/pgc-policies/documents/leave" "annual";
    fragmentFull "1700000000001" "Memo" "memo text" ].

(** A process with every variable set, an empty table and container,
    and the store already known. *)
Definition environment : Env :=
  mkEnv (Some "pgcplus") (Some "key") (Some "UseDevelopmentStorage=true")
    (Some "documents") (Some "gemini-key").

Definition fresh : World :=
  mkWorld environment ∅ ∅ None None 1700000000000%N [] [].

Definition registered : World :=
  mkWorld environment ∅ ∅
    (Some (mkConfig "fileSearchStores/pgc-policies" "pgc-policies" 0%N))
    (Some "fileSearchStores/pgc-policies") 1700000000000%N [] [].

Definition pending : Operation.t :=
  Operation.mk false None None (Some "operations/1").

(** A service whose operations never complete. *)
Definition silentService : Gemini :=
  mkGemini (fun _ => Returned (Some "fileSearchStores/pgc-policies"))
    (fun _ _ _ => Returned pending)
    (fun _ _ => Returned pending)
    (fun _ => Returned tt).

(** A service whose upload is complete at once, with no name anywhere,
    and whose delete call fails. *)
Definition namelessService : Gemini :=
  mkGemini (fun _ => Returned (Some "fileSearchStores/pgc-policies"))
    (fun _ _ _ => Returned (Operation.mk true None None None))
    (fun _ op => Returned op)
    (fun _ => Thrown "404 Not Found").

(** A service whose upload is complete at the first poll, with the handle
    [files/abc]. *)
Definition promptService : Gemini :=
  mkGemini (fun _ => Returned (Some "fileSearchStores/pgc-policies"))
    (fun _ _ _ => Returned pending)
    (fun _ _ =>
       Returned (Operation.mk true None
                   (Some (Operation.mkResponse (Some "files/abc")))
                   (Some "operations/1")))
    (fun _ => Returned tt).

(** A service whose upload fails at the first poll. *)
Definition failingService : Gemini :=
  mkGemini (fun _ => Returned (Some "fileSearchStores/pgc-policies"))
    (fun _ _ _ => Returned pending)
    (fun _ _ =>
       Returned (Operation.mk true
                   (Some (Operation.mkError (Some "quota exceeded")))
                   None (Some "operations/1")))
    (fun _ => Returned tt).

(** A service whose first store creation returns no name and whose later
    ones do. *)
Definition flakyService : Gemini :=
  mkGemini
    (fun k => match k with
              | O => Returned None
              | S _ => Returned (Some "fileSearchStores/pgc-policies")
              end)
    (fun _ _ _ => Returned pending)
    (fun _ _ => Returned pending)
    (fun _ => Returned tt).

(** A world whose table holds the leave policy, indexed and ready, and
    whose container does not hold its blob. *)
Definition indexed : World :=
  mkWorld environment ∅ {[ "1700000000001" := leavePolicy ]}
    (Some (mkConfig "fileSearchStores/pgc-policies" "pgc-policies" 0%N))
    (Some "fileSearchStores/pgc-policies") 1700000005000%N
    [StatusWritten "1700000000001" processing;
     StatusWritten "1700000000001" ready] [].

(** The record of a handbook just uploaded, and the world right after
    its creation. *)
Definition handbook : Document :=
  mkDocument "doc" "1700000000000" "1700000000000" "Employee Handbook"
    "HR" "1.0" processing "documents/1700000000000-handbook.pdf"
    "1700000000000-handbook.pdf" (Some "4 Bytes") (Some "pdf") None None
    None 1700000000000%N 1700000000000%N.

Definition created : World :=
  mkWorld environment
    {[ "1700000000000-handbook.pdf"
       := mkBlob "%PDF" (Js.VString "application/pdf")
            [("title", "Employee Handbook"); ("category", "HR");
             ("version", "1.0")] ]}
    {[ "1700000000000" := handbook ]}
    (Some (mkConfig "fileSearchStores/pgc-policies" "pgc-policies" 0%N))
    (Some "fileSearchStores/pgc-policies") 1700000000000%N
    [StatusWritten "1700000000000" processing] [].

End Examples.

(* ===================================================================== *)
(** * Properties of the citation resolution engine                        *)
(* ===================================================================== *)

Section Strings.
Import Js.

Lemma toLowerCase_length (s : string) :
  String.length (toLowerCase s) = String.length s.
Proof.
  induction s as [|c s IH]; simpl; [reflexivity | rewrite IH; reflexivity].
Qed.

Lemma toLowerCase_app (s t : string) :
  toLowerCase (s +:+ t) = toLowerCase s +:+ toLowerCase t.
Proof.
  induction s as [|c s IH]; simpl; [reflexivity | rewrite IH; reflexivity].
Qed.

Lemma append_length (s t : string) :
  String.length (s +:+ t) = String.length s + String.length t.
Proof.
  induction s as [|c s IH]; simpl; [reflexivity | rewrite IH; reflexivity].
Qed.

Lemma substring_all (s : string) : substring 0 (String.length s) s = s.
Proof.
  induction s as [|c s IH]; simpl; [reflexivity | rewrite IH; reflexivity].
Qed.

Lemma substring_append_l (t r : string) :
  substring 0 (String.length t) (t +:+ r) = t.
Proof.
  induction t as [|c t IH]; simpl.
  - destruct r; reflexivity.
  - rewrite IH. reflexivity.
Qed.

Lemma substring_append_r (t r : string) :
  substring (String.length t) (String.length r) (t +:+ r) = r.
Proof.
  induction t as [|c t IH]; simpl; [apply substring_all | exact IH].
Qed.

(** A string is what comes before a position followed by what comes from
    it on. *)
Lemma substring_split (s : string) (a : nat) :
  a <= String.length s ->
  s = substring 0 a s +:+ substring a (String.length s - a) s
  /\ String.length (substring 0 a s) = a.
Proof.
  revert a. induction s as [|c s IH]; intros a Ha.
  - simpl in Ha. assert (a = 0) as -> by lia. split; reflexivity.
  - destruct a as [|a].
    + simpl. rewrite substring_all. split; reflexivity.
    + simpl in Ha. destruct (IH a) as [Heq Hlen]; [lia|].
      change (String c s
              = String c (substring 0 a s
                          +:+ substring a (String.length s - a) s)
              /\ S (String.length (substring 0 a s)) = S a).
      split; [f_equal; exact Heq | f_equal; exact Hlen].
Qed.

Lemma append_inj_l (t t' r : string) : t +:+ r = t' +:+ r -> t = t'.
Proof.
  revert t'. induction t as [|c t IH]; intros t' Heq.
  - destruct t' as [|c' t']; [reflexivity|].
    exfalso. apply (f_equal String.length) in Heq.
    change (String.length r = S (String.length (t' +:+ r))) in Heq.
    rewrite append_length in Heq. lia.
  - destruct t' as [|c' t'].
    + exfalso. apply (f_equal String.length) in Heq.
      change (S (String.length (t +:+ r)) = String.length r) in Heq.
      rewrite append_length in Heq. lia.
    + change (String c (t +:+ r) = String c' (t' +:+ r)) in Heq.
      inversion Heq as [[Hc Hrest]]. f_equal. apply IH. exact Hrest.
Qed.

(** What the pattern matches: a dot and one of four suffixes, in any case. *)
Lemma isDocExtension_cases (e : string) :
  isDocExtension e = true ->
  toLowerCase e = ".pdf" \/ toLowerCase e = ".doc"
  \/ toLowerCase e = ".docx" \/ toLowerCase e = ".txt".
Proof.
  unfold isDocExtension. intros H.
  repeat (apply orb_prop in H as [H|H]);
    apply String.eqb_eq in H; tauto.
Qed.

(** Nothing longer than an extension that ends in one is an extension. *)
Lemma isDocExtension_longer (c : ascii) (s e : string) :
  isDocExtension e = true -> isDocExtension (String c (s +:+ e)) = false.
Proof.
  intros He. destruct (isDocExtension (String c (s +:+ e))) eqn:Hx;
    [|reflexivity].
  exfalso. apply isDocExtension_cases in He, Hx.
  simpl in Hx. rewrite toLowerCase_app in Hx.
  assert (Hlen : forall x y : string, x = y ->
                                      String.length x = String.length y)
    by (intros x y ->; reflexivity).
  assert (Hs : String.length (toLowerCase s) = String.length s)
    by apply toLowerCase_length.
  destruct He as [He|[He|[He|He]]]; rewrite He in Hx;
    destruct Hx as [Hx|[Hx|[Hx|Hx]]];
    pose proof (Hlen _ _ Hx) as Hl; simpl in Hl;
    rewrite append_length in Hl; simpl in Hl;
    try lia;
    (destruct (toLowerCase s) as [|c' s']; simpl in Hl; [|lia]);
    simpl in Hx; discriminate.
Qed.

Lemma stripDocExtension_append (s e : string) :
  isDocExtension e = true -> stripDocExtension (s +:+ e) = s.
Proof.
  intros He. induction s as [|c s IH].
  - simpl. destruct e as [|c e]; simpl; [reflexivity|].
    unfold stripDocExtension. fold stripDocExtension.
    rewrite He. reflexivity.
  - simpl. unfold stripDocExtension. fold stripDocExtension.
    rewrite (isDocExtension_longer c s e He). rewrite IH. reflexivity.
Qed.

Lemma stripDocExtension_rest (s : string) :
  exists rest,
    s = stripDocExtension s +:+ rest
    /\ (rest = "" \/ isDocExtension rest = true).
Proof.
  induction s as [|c s IH].
  - exists "". split; [reflexivity | left; reflexivity].
  - unfold stripDocExtension. fold stripDocExtension.
    destruct (isDocExtension (String c s)) eqn:Hx.
    + exists (String c s). split; [reflexivity | right; exact Hx].
    + destruct IH as (rest & Heq & Hrest). exists rest.
      split; [|exact Hrest].
      change (String c s = String c (stripDocExtension s +:+ rest)).
      f_equal. exact Heq.
Qed.

End Strings.

Section Resolution.
Import Js Search SearchSpec.

Context {tables : Unicode.CaseTables}.

Lemma find_ext {A} (f g : A -> bool) (l : list A) :
  (forall x, f x = g x) -> List.find f l = List.find g l.
Proof.
  intros Hfg. induction l as [|x l IH]; simpl; [reflexivity|].
  rewrite Hfg, IH. reflexivity.
Qed.

Lemma find_never {A} (f : A -> bool) (l : list A) :
  (forall x, f x = false) -> List.find f l = None.
Proof.
  intros Hf. induction l as [|x l IH]; simpl; [reflexivity|].
  rewrite Hf. exact IH.
Qed.

Lemma find_is_Some {A} (f : A -> bool) (l : list A) (x : A) :
  x ∈ l -> f x = true -> is_Some (List.find f l).
Proof.
  intros Hin Hfx. destruct (List.find f l) as [y|] eqn:E; [eauto|].
  apply list_elem_of_In in Hin.
  pose proof (find_none f l E x Hin) as Hnone. congruence.
Qed.

Lemma firstSuccess_is_Some ss s docs chunk d :
  s ∈ ss -> d ∈ docs -> s chunk d = true ->
  is_Some (firstSuccess ss docs chunk).
Proof.
  intros Hs Hd Hsd. induction ss as [|s' ss IH]; [inversion Hs|].
  simpl. destruct (List.find (s' chunk) docs) as [y|] eqn:E; [eauto|].
  apply elem_of_cons in Hs as [-> |Hs]; [|auto].
  destruct (find_is_Some (s' chunk) docs d Hd Hsd) as [y Hy]. congruence.
Qed.

(** An extension the string ends in, letter case apart, is matched by the
    pattern at the place where it starts. *)
Lemma endsIn_split (e s : string) :
  e ∈ extensions -> endsIn e s = true ->
  exists stem e',
    s = stem +:+ e' /\ isDocExtension e' = true
    /\ stem = substring 0 (String.length s - String.length e) s.
Proof.
  intros He Hends. unfold endsIn in Hends.
  apply andb_true_iff in Hends as [Hle Heq].
  apply Nat.leb_le in Hle. apply bool_decide_eq_true in Heq.
  set (n := String.length s) in *. set (k := String.length e) in *.
  destruct (substring_split s (n - k)) as [Hsplit _]; [lia|].
  fold n in Hsplit. replace (n - (n - k)) with k in Hsplit by lia.
  exists (substring 0 (n - k) s), (substring (n - k) k s).
  split; [exact Hsplit|]. split; [|reflexivity].
  unfold isDocExtension. rewrite Heq.
  unfold extensions in He.
  repeat (apply elem_of_cons in He as [-> |He]; [reflexivity|]).
  inversion He.
Qed.

Lemma endsIn_append (t rest : string) :
  isDocExtension rest = true ->
  endsIn (toLowerCase rest) (t +:+ rest) = true
  /\ toLowerCase rest ∈ extensions.
Proof.
  intros Hrest. split.
  - unfold endsIn. rewrite toLowerCase_length, append_length.
    apply andb_true_iff. split; [apply Nat.leb_le; lia|].
    apply bool_decide_eq_true.
    replace (String.length t + String.length rest - String.length rest)
      with (String.length t) by lia.
    rewrite substring_append_r. reflexivity.
  - apply isDocExtension_cases in Hrest. unfold extensions.
    destruct Hrest as [-> |[-> |[-> | ->]]];
      repeat first [apply list_elem_of_here | apply list_elem_of_further].
Qed.

(** Cutting off the extension as the specification words it is what the
    replacement with the pattern does. *)
Lemma withoutExtension_strip (s : string) :
  withoutExtension s = stripDocExtension s.
Proof.
  unfold withoutExtension.
  destruct (List.find (fun e => endsIn e s) extensions) as [e|] eqn:Hfind.
  - apply find_some in Hfind as [Hin Hends].
    apply list_elem_of_In in Hin.
    destruct (endsIn_split e s Hin Hends) as (stem & e' & Hs & He' & Hstem).
    rewrite <- Hstem. rewrite Hs.
    rewrite stripDocExtension_append by exact He'. reflexivity.
  - destruct (stripDocExtension_rest s) as (rest & Hs & [-> |Hrest]).
    + rewrite Hs at 1. clear Hfind Hs.
      induction (stripDocExtension s) as [|c t IH]; [reflexivity|].
      change (String c (t +:+ "") = String c t). f_equal. exact IH.
    + exfalso. destruct (endsIn_append (stripDocExtension s) rest Hrest)
        as [Hends Hin].
      rewrite <- Hs in Hends. apply list_elem_of_In in Hin.
      pose proof (find_none _ _ Hfind _ Hin) as Hno. simpl in Hno.
      congruence.
Qed.

Lemma eqb_decide (a b : string) : (a =? b) = bool_decide (a = b).
Proof.
  destruct (String.eqb_spec a b) as [E|E].
  - rewrite bool_decide_eq_true_2 by exact E. reflexivity.
  - rewrite bool_decide_eq_false_2 by exact E. reflexivity.
Qed.

Lemma truthyStr_carries (chunk : GroundingChunk) :
  truthyStr (chunkTitle chunk) = bool_decide (carriesTitle chunk).
Proof.
  unfold carriesTitle. destruct (chunkTitle chunk) as [|c s].
  - rewrite bool_decide_eq_false_2 by (intros E; apply E; reflexivity).
    reflexivity.
  - rewrite bool_decide_eq_true_2 by discriminate. reflexivity.
Qed.

Lemma bool_decide_and_l (P Q : Prop) `{Decision P} `{Decision Q} :
  bool_decide (P /\ Q) = bool_decide P && bool_decide Q.
Proof.
  destruct (decide P) as [HP|HP]; destruct (decide Q) as [HQ|HQ].
  - rewrite !bool_decide_eq_true_2 by tauto. reflexivity.
  - rewrite (bool_decide_eq_true_2 P), !bool_decide_eq_false_2 by tauto.
    reflexivity.
  - rewrite (bool_decide_eq_true_2 Q), !bool_decide_eq_false_2 by tauto.
    reflexivity.
  - rewrite !bool_decide_eq_false_2 by tauto. reflexivity.
Qed.

(** The comparisons of the code are the strategies of the
    specification. *)
Lemma handleIs_byHandle (chunk : GroundingChunk) (doc : Document) :
  handleIs (geminiFileId chunk) doc = byHandle chunk doc.
Proof.
  unfold handleIs, byHandle. destruct (geminiDocumentId doc) as [h|].
  - rewrite eqb_decide.
    destruct (decide (h = geminiFileId chunk)) as [E|E].
    + rewrite !bool_decide_eq_true_2 by congruence. reflexivity.
    + rewrite !bool_decide_eq_false_2 by congruence. reflexivity.
  - rewrite bool_decide_eq_false_2 by discriminate. reflexivity.
Qed.

Lemma exact_byExactTitle (chunk : GroundingChunk) (doc : Document) :
  truthyStr (chunkTitle chunk) && (title doc =? chunkTitle chunk)
  = byExactTitle chunk doc.
Proof.
  unfold byExactTitle.
  rewrite bool_decide_and_l, truthyStr_carries, eqb_decide. reflexivity.
Qed.

Lemma nocase_byTitleIgnoringCase (chunk : GroundingChunk) (doc : Document) :
  truthyStr (chunkTitle chunk)
  && (Unicode.toLowerCase (title doc)
      =? Unicode.toLowerCase (chunkTitle chunk))
  = byTitleIgnoringCase chunk doc.
Proof.
  unfold byTitleIgnoringCase.
  rewrite bool_decide_and_l, truthyStr_carries, eqb_decide. reflexivity.
Qed.

Lemma noext_byTitleWithoutExtension (chunk : GroundingChunk)
    (doc : Document) :
  truthyStr (chunkTitle chunk)
  && (Unicode.toLowerCase (stripDocExtension (title doc))
      =? Unicode.toLowerCase (stripDocExtension (chunkTitle chunk)))
  = byTitleWithoutExtension chunk doc.
Proof.
  unfold byTitleWithoutExtension.
  rewrite bool_decide_and_l, truthyStr_carries, eqb_decide,
    !withoutExtension_strip.
  reflexivity.
Qed.

(** The chain of [find] calls is the first success of four predicates, the
    title ones guarded by the fragment carrying a title. *)
Lemma matchDocument_chain (allDocuments : list Document)
    (chunk : GroundingChunk) :
  matchDocument allDocuments chunk = specMatch allDocuments chunk.
Proof.
  unfold matchDocument, specMatch, strategies, firstSuccess.
  rewrite <- (find_ext _ _ allDocuments (handleIs_byHandle chunk)).
  rewrite <- (find_ext _ _ allDocuments (exact_byExactTitle chunk)).
  rewrite <- (find_ext _ _ allDocuments (nocase_byTitleIgnoringCase chunk)).
  rewrite <- (find_ext _ _ allDocuments
                (noext_byTitleWithoutExtension chunk)).
  destruct (List.find (handleIs (geminiFileId chunk)) allDocuments)
    as [d|]; simpl; [reflexivity|].
  destruct (truthyStr (chunkTitle chunk)) eqn:Et; simpl.
  - destruct (List.find _ allDocuments) as [d|]; simpl; [reflexivity|].
    destruct (List.find _ allDocuments) as [d|]; simpl; [reflexivity|].
    destruct (List.find _ allDocuments) as [d|]; reflexivity.
  - rewrite !(find_never (fun _ : Document => false))
      by (intros x; reflexivity).
    reflexivity.
Qed.

(** C2.  The document matched for a fragment is the first success of the
    four strategies tried in order: the stored retrieval handle equal to
    the fragment's reference, then, for a fragment that carries a title,
    the title equal to the fragment's, the two equal in lower case, and
    the two equal in lower case once a trailing .pdf, .doc, .docx or .txt
    (in any case) is cut off on both sides; this for whatever case tables
    the run time has.  In particular a document titled "Leave Policy" is
    accepted by the last strategy for a fragment titled
    "Leave Policy.DOCX", so such a fragment is matched whenever such a
    document is listed. *)
Theorem matchDocument_priority (allDocuments : list Document)
    (chunk : GroundingChunk) :
  matchDocument allDocuments chunk = specMatch allDocuments chunk
  /\ (forall doc,
        doc ∈ allDocuments ->
        title doc = "Leave Policy" ->
        chunkTitle chunk = "Leave Policy.DOCX" ->
        byTitleWithoutExtension chunk doc = true
        /\ is_Some (matchDocument allDocuments chunk)).
Proof.
  pose proof (matchDocument_chain allDocuments chunk) as Heq.
  split; [exact Heq|].
  intros doc Hin Htitle Hchunk.
  assert (Hacc : byTitleWithoutExtension chunk doc = true).
  { unfold byTitleWithoutExtension, carriesTitle.
    rewrite Hchunk, Htitle. apply bool_decide_eq_true.
    split; [discriminate | reflexivity]. }
  split; [exact Hacc|].
  rewrite Heq. unfold specMatch.
  apply (firstSuccess_is_Some strategies byTitleWithoutExtension
           allDocuments chunk doc); [|exact Hin|exact Hacc].
  unfold strategies.
  repeat first [apply list_elem_of_here | apply list_elem_of_further].
Qed.

End Resolution.

(** ** The citation map after any number of fragments *)

Section Deduplication.
Import Js Search SearchSpec.

Context {tables : Unicode.CaseTables}.
Variable allDocuments : list Document.

Lemma assoc_None {A} (k : string) (m : list (string * A)) :
  (assoc k m = None) <-> (k ∉ m.*1).
Proof.
  induction m as [|[k' v] m IH]; simpl.
  - split; [intros _; apply not_elem_of_nil | reflexivity].
  - destruct (String.eqb_spec k' k) as [-> |Hne].
    + split; [discriminate | intros H; exfalso; apply H; left].
    + rewrite IH, not_elem_of_cons. split.
      * intros H. split; [congruence | exact H].
      * intros [_ H]. exact H.
Qed.

Lemma mapHas_false (k : string) (m : CitationMap) :
  (mapHas k m = false) <-> (k ∉ m.*1).
Proof.
  unfold mapHas, mapGet. rewrite <- assoc_None.
  destruct (assoc k m); simpl; split; congruence.
Qed.

Lemma mapSet_fresh (k : string) (v : Entry) (m : CitationMap) :
  k ∉ m.*1 -> mapSet k v m = m ++ [(k, v)].
Proof.
  induction m as [|[k' v'] m IH]; simpl; [reflexivity|].
  intros Hnotin. apply not_elem_of_cons in Hnotin as [Hne Hnotin].
  destruct (String.eqb_spec k' k) as [-> |_]; [congruence|].
  rewrite IH by assumption. reflexivity.
Qed.

Lemma pushIndex_present (k : string) (i : nat) (m : CitationMap) :
  k ∈ m.*1 ->
  exists m1 e m2,
    m = m1 ++ (k, e) :: m2 /\ (k ∉ m1.*1)
    /\ pushIndex k i m = m1 ++ (k, pushed e i) :: m2.
Proof.
  induction m as [|[k' v'] m IH]; simpl.
  - intros H. inversion H.
  - intros Hin. destruct (String.eqb_spec k' k) as [-> |Hne].
    + exists [], v', m. repeat split. apply not_elem_of_nil.
    + apply elem_of_cons in Hin as [Heq|Hin]; [congruence|].
      destruct (IH Hin) as (m1 & e & m2 & -> & Hm1 & ->).
      exists ((k', v') :: m1), e, m2. repeat split.
      simpl. apply not_elem_of_cons. split; [congruence | assumption].
Qed.

Lemma forEachChunk_snoc (chunks : list GroundingChunk)
    (chunk : GroundingChunk) (n : nat) (m : CitationMap) :
  forEachChunk allDocuments (chunks ++ [chunk]) n m
  = visitChunk allDocuments (forEachChunk allDocuments chunks n m) chunk
      (n + length chunks).
Proof.
  revert n m. induction chunks as [|c chunks IH]; intros n m; simpl.
  - rewrite Nat.add_0_r. reflexivity.
  - rewrite IH. f_equal. lia.
Qed.

Lemma Inv_nil : Inv allDocuments [] [].
Proof.
  split; simpl.
  - constructor.
  - intros k e H; inversion H.
  - intros k e H; inversion H.
  - intros k e H; inversion H.
  - intros j c H. rewrite lookup_nil in H. discriminate.
Qed.

Lemma lookup_snoc_inv (seen : list GroundingChunk) (chunk c : GroundingChunk)
    (j : nat) :
  (seen ++ [chunk]) !! j = Some c ->
  seen !! j = Some c \/ (j = length seen /\ c = chunk).
Proof.
  intros H. destruct (decide (j < length seen)) as [Hlt|Hge].
  - left. rewrite lookup_app_l in H by assumption. exact H.
  - right. rewrite lookup_app_r in H by lia.
    destruct (j - length seen) as [|x] eqn:E; simpl in H; [|discriminate].
    split; [lia|congruence].
Qed.

Lemma firstWith_snoc (seen : list GroundingChunk) (chunk : GroundingChunk)
    (k : string) (j : nat) (c : GroundingChunk) :
  firstWith allDocuments seen k j c ->
  firstWith allDocuments (seen ++ [chunk]) k j c.
Proof.
  intros (Hj & Hk & Hfirst). pose proof (lookup_lt_Some _ _ _ Hj) as Hlt.
  split; [|split].
  - rewrite lookup_app_l by assumption. exact Hj.
  - exact Hk.
  - intros j' c' Hj' Hlook. rewrite lookup_app_l in Hlook by lia. eauto.
Qed.

Lemma Inv_visit (seen : list GroundingChunk) (m : CitationMap)
    (chunk : GroundingChunk) :
  Inv allDocuments seen m ->
  Inv allDocuments (seen ++ [chunk])
    (visitChunk allDocuments m chunk (length seen)).
Proof.
  intros [Hkeys Hid Hidx Hfirst Hall]. unfold visitChunk.
  set (k := documentIdOf allDocuments chunk).
  destruct (mapHas k m) eqn:Ehas; simpl.
  - (* the key is present: the index is pushed on its entry *)
    assert (Hin : k ∈ m.*1).
    { destruct (decide (k ∈ m.*1)) as [H|H]; [exact H|].
      apply mapHas_false in H. congruence. }
    destruct (pushIndex_present k (length seen) m Hin)
      as (m1 & e & m2 & Hm & Hm1 & ->).
    subst m. rewrite fmap_app, fmap_cons in Hkeys. simpl in Hkeys.
    assert (Hmem : forall k' e',
               (k', e') ∈ m1 ++ (k, pushed e (length seen)) :: m2 ->
               (k' = k /\ e' = pushed e (length seen))
               \/ (k' <> k /\ (k', e') ∈ m1 ++ (k, e) :: m2)).
    { intros k' e' H. apply elem_of_app in H as [H|H].
      - right. split; [|apply elem_of_app; left; exact H].
        intros ->. apply Hm1. apply list_elem_of_fmap. exists (k, e').
        split; [reflexivity | exact H].
      - apply elem_of_cons in H as [H|H]; [left; split; congruence|].
        right.
        split; [|apply elem_of_app; right; apply elem_of_cons; right;
                 exact H].
        intros ->. apply NoDup_app in Hkeys as (_ & _ & Hnd).
        apply NoDup_cons in Hnd as [Hnotin _]. apply Hnotin.
        apply list_elem_of_fmap. exists (k, e').
        split; [reflexivity | exact H]. }
    assert (Hke : (k, e) ∈ m1 ++ (k, e) :: m2)
      by (apply elem_of_app; right; left).
    split.
    + rewrite fmap_app, fmap_cons. simpl. exact Hkeys.
    + intros k' e' H. destruct (Hmem k' e' H) as [[-> ->]|[_ H']].
      * simpl. eauto.
      * eauto.
    + intros k' e' H j. destruct (Hmem k' e' H) as [[-> ->]|[Hne H']].
      * simpl. rewrite elem_of_app, list_elem_of_singleton.
        rewrite (Hidx k e Hke j). split.
        -- intros [(c & Hc & Hck)| ->].
           ++ exists c. split; [|exact Hck].
              rewrite lookup_app_l by (eapply lookup_lt_Some; eauto).
              exact Hc.
           ++ exists chunk. split; [|reflexivity].
              rewrite lookup_app_r by lia. rewrite Nat.sub_diag.
              reflexivity.
        -- intros (c & Hc & Hck).
           destruct (lookup_snoc_inv _ _ _ _ Hc) as [Hc'|[-> _]]; eauto.
      * rewrite (Hidx k' e' H' j). split.
        -- intros (c & Hc & Hck). exists c. split; [|exact Hck].
           rewrite lookup_app_l by (eapply lookup_lt_Some; eauto).
           exact Hc.
        -- intros (c & Hc & Hck).
           destruct (lookup_snoc_inv _ _ _ _ Hc) as [Hc'|[-> ->]]; eauto.
           unfold k in *. congruence.
    + intros k' e' H. destruct (Hmem k' e' H) as [[-> ->]|[_ H']].
      * destruct (Hfirst k e Hke) as (j & c & Hf & Ht & Hs).
        exists j, c. simpl. eauto using firstWith_snoc.
      * destruct (Hfirst k' e' H') as (j & c & Hf & Ht & Hs).
        exists j, c. eauto using firstWith_snoc.
    + intros j c Hc. rewrite fmap_app, fmap_cons. simpl.
      destruct (lookup_snoc_inv _ _ _ _ Hc) as [Hc'|[-> ->]].
      * specialize (Hall j c Hc'). rewrite fmap_app, fmap_cons in Hall.
        exact Hall.
      * fold k. apply elem_of_app; right; left.
  - (* a new key: a new entry goes last *)
    apply mapHas_false in Ehas. rewrite mapSet_fresh by assumption.
    assert (Hnew : forall j c, seen !! j = Some c ->
                               documentIdOf allDocuments c <> k).
    { intros j c Hc Heq. apply Ehas. rewrite <- Heq. eauto. }
    split.
    + rewrite fmap_app. simpl. apply NoDup_app. split; [exact Hkeys|].
      split; [|apply NoDup_singleton].
      intros x Hx Hx'. apply list_elem_of_singleton in Hx'. congruence.
    + intros k' e' H. apply elem_of_app in H as [H|H]; [eauto|].
      apply list_elem_of_singleton in H. inversion H. reflexivity.
    + intros k' e' H j. apply elem_of_app in H as [H|H].
      * assert (Hne : k' <> k).
        { intros ->. apply Ehas. apply list_elem_of_fmap. exists (k, e').
          split; [reflexivity | exact H]. }
        rewrite (Hidx k' e' H j). split.
        -- intros (c & Hc & Hck). exists c. split; [|exact Hck].
           rewrite lookup_app_l by (eapply lookup_lt_Some; eauto).
           exact Hc.
        -- intros (c & Hc & Hck).
           destruct (lookup_snoc_inv _ _ _ _ Hc) as [Hc'|[-> ->]]; eauto.
           unfold k in *. congruence.
      * apply list_elem_of_singleton in H. inversion H; subst k' e'. simpl.
        rewrite list_elem_of_singleton. split.
        -- intros ->. exists chunk. split; [|reflexivity].
           rewrite lookup_app_r by lia. rewrite Nat.sub_diag. reflexivity.
        -- intros (c & Hc & Hck).
           destruct (lookup_snoc_inv _ _ _ _ Hc) as [Hc'|[-> _]];
             [|reflexivity].
           exfalso. eapply Hnew; eauto.
    + intros k' e' H. apply elem_of_app in H as [H|H].
      * destruct (Hfirst k' e' H) as (j & c & Hf & Ht & Hs).
        exists j, c. eauto using firstWith_snoc.
      * apply list_elem_of_singleton in H. inversion H; subst k' e'. simpl.
        exists (length seen), chunk. split; [|split; reflexivity].
        split; [|split; [reflexivity|]].
        -- rewrite lookup_app_r by lia. rewrite Nat.sub_diag. reflexivity.
        -- intros j' c' Hlt Hc'. rewrite lookup_app_l in Hc' by lia. eauto.
    + intros j c Hc. rewrite fmap_app. simpl.
      destruct (lookup_snoc_inv _ _ _ _ Hc) as [Hc'|[-> ->]].
      * apply elem_of_app. left. eauto.
      * fold k. apply elem_of_app; right; left.
Qed.

Lemma Inv_citationMap (groundingChunks : list GroundingChunk) :
  Inv allDocuments groundingChunks (citationMap allDocuments groundingChunks).
Proof.
  unfold citationMap.
  induction groundingChunks as [|chunk chunks IH] using rev_ind.
  - exact Inv_nil.
  - rewrite forEachChunk_snoc. simpl. apply Inv_visit. exact IH.
Qed.

End Deduplication.

(** ** From the citation map to the response *)

Section Response.
Import Js Search SearchSpec.

Context {tables : Unicode.CaseTables}.
Variable allDocuments : list Document.

Lemma citationsOf_lookup (m : CitationMap) (p : nat) (k : string)
    (e : Entry) :
  m !! p = Some (k, e) -> citationsOf m !! p = Some (citationAt p e).
Proof.
  intros H. unfold citationsOf. rewrite list_lookup_imap, H. reflexivity.
Qed.

Lemma citationsOf_elem (m : CitationMap) (cit : Citation) :
  cit ∈ citationsOf m ->
  exists p k e, m !! p = Some (k, e) /\ cit = citationAt p e.
Proof.
  intros H. unfold citationsOf in H.
  apply elem_of_lookup_imap_1 in H as (p & [k e] & -> & Hp).
  exists p, k, e. split; [exact Hp | reflexivity].
Qed.

Lemma recordCitation_lookup (cit : Citation) (acc : gmap nat nat) (i : nat) :
  recordCitation acc cit !! i
  = if decide (i ∈ c_chunkIndices cit) then Some (c_index cit)
    else acc !! i.
Proof.
  unfold recordCitation. revert acc.
  induction (c_chunkIndices cit) as [|x xs IH]; intros acc; simpl.
  - destruct (decide (i ∈ [])) as [H|_]; [inversion H | reflexivity].
  - rewrite IH.
    destruct (decide (i ∈ xs)) as [Hin|Hnotin].
    + rewrite decide_True by (right; exact Hin). reflexivity.
    + destruct (decide (i = x)) as [-> |Hne].
      * rewrite decide_True by left. apply lookup_insert_eq.
      * rewrite decide_False
          by (intros H; apply elem_of_cons in H as [?|?]; tauto).
        apply lookup_insert_ne. congruence.
Qed.

(** A chunk index reads, in the remap, the citation number shared by the
    citations that list it. *)
Lemma chunkToCitationMapOf_lookup (cs : list Citation) (i idx : nat) :
  (forall cit, cit ∈ cs -> i ∈ c_chunkIndices cit -> c_index cit = idx) ->
  (exists cit, cit ∈ cs /\ i ∈ c_chunkIndices cit) ->
  chunkToCitationMapOf cs !! i = Some idx.
Proof.
  unfold chunkToCitationMapOf. intros Hall Hex.
  assert (Hgen : forall acc,
             (exists cit, cit ∈ cs /\ i ∈ c_chunkIndices cit)
             \/ acc !! i = Some idx ->
             fold_left recordCitation cs acc !! i = Some idx).
  { clear Hex. induction cs as [|cit cs IH]; intros acc Hor; simpl.
    - destruct Hor as [(cit & H & _)|H]; [inversion H | exact H].
    - apply IH.
      + intros cit' Hin. apply Hall. right. exact Hin.
      + rewrite recordCitation_lookup.
        destruct (decide (i ∈ c_chunkIndices cit)) as [Hi|Hi].
        * right. f_equal. apply Hall; [left | exact Hi].
        * destruct Hor as [(cit' & Hin & Hi')|H]; [|right; exact H].
          apply elem_of_cons in Hin as [-> |Hin]; [tauto|].
          left. exists cit'. split; assumption. }
  apply Hgen. left. exact Hex.
Qed.

(** Every fragment is listed by one citation: the one kept under its
    document ID, numbered by its place among the keys, holding the title
    and snippet of the first fragment with that document ID. *)
Lemma fragment_citation (groundingChunks : list GroundingChunk) (i : nat)
    (c : GroundingChunk) :
  groundingChunks !! i = Some c ->
  exists p e,
    citations allDocuments groundingChunks !! p = Some (citationAt p e)
    /\ documentId e = documentIdOf allDocuments c
    /\ i ∈ chunkIndices e
    /\ chunkToCitationMap allDocuments groundingChunks !! i = Some (p + 1)
    /\ (exists j c0,
          firstWith allDocuments groundingChunks
            (documentIdOf allDocuments c) j c0
          /\ etitle e = entryTitle allDocuments c0
          /\ snippet e = entrySnippet c0)
    /\ (forall cit, cit ∈ citations allDocuments groundingChunks ->
                    c_documentId cit = documentIdOf allDocuments c ->
                    cit = citationAt p e).
Proof.
  intros Hc.
  destruct (Inv_citationMap allDocuments groundingChunks)
    as [Hkeys Hid Hidx Hfirst Hall].
  set (m := citationMap allDocuments groundingChunks) in *.
  set (k := documentIdOf allDocuments c).
  pose proof (Hall i c Hc) as Hk. fold k in Hk.
  apply list_elem_of_fmap in Hk as ([k' e] & Hkk & Hin). simpl in Hkk.
  subst k'. apply list_elem_of_lookup_1 in Hin as [p Hp].
  assert (Hke : (k, e) ∈ m) by (eapply list_elem_of_lookup_2; exact Hp).
  assert (Hsame : forall q k' e', m !! q = Some (k', e') -> k' = k ->
                                  q = p /\ e' = e).
  { intros q k' e' Hq ->.
    assert (q = p).
    { apply (NoDup_lookup (m.*1) q p k Hkeys);
        rewrite list_lookup_fmap; [rewrite Hq | rewrite Hp]; reflexivity. }
    subst q. split; [reflexivity | congruence]. }
  exists p, e. split; [|split; [|split; [|split; [|split]]]].
  - unfold citations. fold m. eapply citationsOf_lookup. exact Hp.
  - eapply Hid. exact Hke.
  - apply (Hidx k e Hke i). exists c. split; [exact Hc | reflexivity].
  - unfold chunkToCitationMap, citations. fold m.
    apply chunkToCitationMapOf_lookup.
    + intros cit Hcit Hi.
      apply citationsOf_elem in Hcit as (q & k' & e' & Hq & ->).
      simpl in *.
      assert (Hk' : k' = k).
      { assert (Hin' : (k', e') ∈ m)
          by (eapply list_elem_of_lookup_2; exact Hq).
        apply (Hidx k' e' Hin' i) in Hi as (c' & Hc' & Hck).
        rewrite Hc in Hc'. inversion Hc'; subst c'. symmetry. exact Hck. }
      destruct (Hsame q k' e' Hq Hk') as [-> _]. reflexivity.
    + exists (citationAt p e). split.
      * eapply list_elem_of_lookup_2. eapply citationsOf_lookup. exact Hp.
      * simpl. apply (Hidx k e Hke i). exists c.
        split; [exact Hc | reflexivity].
  - exact (Hfirst k e Hke).
  - intros cit Hcit Hdoc. unfold citations in Hcit. fold m in Hcit.
    apply citationsOf_elem in Hcit as (q & k' & e' & Hq & ->).
    simpl in Hdoc.
    assert (Hin' : (k', e') ∈ m)
      by (eapply list_elem_of_lookup_2; exact Hq).
    assert (Hk' : k' = k) by (rewrite <- (Hid k' e' Hin'); exact Hdoc).
    destruct (Hsame q k' e' Hq Hk') as [-> ->]. reflexivity.
Qed.

(** C5.  Every fragment, resolved or not, is listed by a citation and
    read by the remap; for a fragment that matches no document under the
    four strategies, that citation carries the fragment's raw external
    reference as its document ID. *)
Theorem unresolved_fragment_kept (groundingChunks : list GroundingChunk)
    (i : nat) (c : GroundingChunk) :
  groundingChunks !! i = Some c ->
  exists cit,
    cit ∈ citations allDocuments groundingChunks
    /\ i ∈ c_chunkIndices cit
    /\ chunkToCitationMap allDocuments groundingChunks !! i
       = Some (c_index cit)
    /\ (matchDocument allDocuments c = None ->
        c_documentId cit = geminiFileId c).
Proof.
  intros Hc.
  destruct (fragment_citation groundingChunks i c Hc)
    as (p & e & Hp & Hdoc & Hi & Hmap & _ & _).
  exists (citationAt p e). split; [|split; [|split]].
  - eapply list_elem_of_lookup_2. exact Hp.
  - exact Hi.
  - exact Hmap.
  - intros Hnone. simpl. rewrite Hdoc. unfold documentIdOf.
    rewrite Hnone. reflexivity.
Qed.

End Response.

Section Positions.
Import Js Search SearchSpec.

Context {tables : Unicode.CaseTables}.

Lemma documentIdOf_matched (allDocuments : list Document)
    (c : GroundingChunk) (d : Document) :
  matchDocument allDocuments c = Some d -> id d <> "" ->
  documentIdOf allDocuments c = id d.
Proof.
  intros Hm Hid. unfold documentIdOf. rewrite Hm. simpl.
  destruct (id d); [congruence | reflexivity].
Qed.

(** C1.  Five fragments of which those at positions 0, 2 and 4 resolve to
    a document A and those at positions 1 and 3 to another document B
    yield exactly two citations, A numbered 1 and B numbered 2, and the
    remap 0:1, 2:1, 4:1, 1:2, 3:2. *)
Theorem dedup_two_documents (allDocuments : list Document)
    (A B : Document) (c0 c1 c2 c3 c4 : GroundingChunk) :
  matchDocument allDocuments c0 = Some A ->
  matchDocument allDocuments c1 = Some B ->
  matchDocument allDocuments c2 = Some A ->
  matchDocument allDocuments c3 = Some B ->
  matchDocument allDocuments c4 = Some A ->
  id A <> "" -> id B <> "" -> id A <> id B ->
  let cs := citations allDocuments [c0; c1; c2; c3; c4] in
  length cs = 2
  /\ c_documentId <$> cs = [id A; id B]
  /\ c_index <$> cs = [1; 2]
  /\ c_chunkIndices <$> cs = [[0; 2; 4]; [1; 3]]
  /\ chunkToCitationMap allDocuments [c0; c1; c2; c3; c4]
     = {[ 0 := 1; 2 := 1; 4 := 1; 1 := 2; 3 := 2 ]}.
Proof.
  intros H0 H1 H2 H3 H4 HA HB HAB.
  assert (Hcs : citations allDocuments [c0; c1; c2; c3; c4]
                = [ mkCitation (id A) (entryTitle allDocuments c0)
                      (entrySnippet c0) 1 [0; 2; 4];
                    mkCitation (id B) (entryTitle allDocuments c1)
                      (entrySnippet c1) 2 [1; 3] ]).
  { unfold citations, citationMap. cbn [forEachChunk]. unfold visitChunk.
    rewrite (documentIdOf_matched _ _ _ H0 HA),
      (documentIdOf_matched _ _ _ H1 HB),
      (documentIdOf_matched _ _ _ H2 HA),
      (documentIdOf_matched _ _ _ H3 HB),
      (documentIdOf_matched _ _ _ H4 HA).
    assert (EAB : (id A =? id B) = false) by (apply String.eqb_neq; exact HAB).
    assert (EBA : (id B =? id A) = false)
      by (apply String.eqb_neq; congruence).
    unfold mapHas, mapGet. cbn [assoc isNone negb mapSet pushIndex].
    repeat (rewrite ?String.eqb_refl, ?EAB, ?EBA;
            cbn [assoc isNone negb mapSet pushIndex]).
    reflexivity. }
  unfold chunkToCitationMap. cbv zeta. rewrite Hcs.
  repeat split.
Qed.

End Positions.

Section ResponseExamples.
Import Js Search SearchSpec.

#[local] Existing Instance Examples.asciiTables.

Lemma dedup_two_documents_witness :
  let cs := citations Examples.library Examples.alternating in
  length cs = 2
  /\ c_documentId <$> cs = ["1700000000001"; "1700000000002"]
  /\ c_index <$> cs = [1; 2]
  /\ c_chunkIndices <$> cs = [[0; 2; 4]; [1; 3]]
  /\ chunkToCitationMap Examples.library Examples.alternating
     = {[ 0 := 1; 2 := 1; 4 := 1; 1 := 2; 3 := 2 ]}.
Proof.
  apply (dedup_two_documents Examples.library Examples.leavePolicy
           Examples.travelPolicy); try reflexivity; discriminate.
Defined.

Lemma matchDocument_priority_witness :
  byTitleWithoutExtension
    (Examples.fragmentTitled "Leave Policy.DOCX" "sick")
    Examples.leavePolicy = true
  /\ is_Some (matchDocument Examples.library
                (Examples.fragmentTitled "Leave Policy.DOCX" "sick")).
Proof.
  destruct (matchDocument_priority Examples.library
              (Examples.fragmentTitled "Leave Policy.DOCX" "sick"))
    as [_ Hleave].
  apply (Hleave Examples.leavePolicy); [left | reflexivity | reflexivity].
Defined.

Lemma unresolved_fragment_kept_witness :
  exists cit,
    cit ∈ citations Examples.library Examples.strangers
    /\ 1 ∈ c_chunkIndices cit
    /\ chunkToCitationMap Examples.library Examples.strangers !! 1
       = Some (c_index cit)
    /\ (matchDocument Examples.library
          (Examples.fragmentFull "files/gone" "Old Handbook.pdf" "first")
        = None ->
        c_documentId cit = "files/gone").
Proof.
  apply (unresolved_fragment_kept Examples.library Examples.strangers 1
           (Examples.fragmentFull "files/gone" "Old Handbook.pdf" "first")).
  reflexivity.
Defined.

End ResponseExamples.

Section TitlesOutsideAscii.
Import Js Search SearchSpec.

#[local] Existing Instance Examples.latin1Tables.

(** With case tables that know the letter É, the fragment titled CAFÉ
    POLICY is resolved to the document titled café policy, by the
    comparison without regard to letter case and by no earlier
    strategy. *)
Example title_outside_ascii :
  let chunk := Examples.fragmentTitled "CAFÉ POLICY" "menu" in
  matchDocument [Examples.leavePolicy; Examples.cafePolicy] chunk
  = Some Examples.cafePolicy
  /\ byHandle chunk Examples.cafePolicy = false
  /\ byExactTitle chunk Examples.cafePolicy = false
  /\ byTitleIgnoringCase chunk Examples.cafePolicy = true.
Proof. repeat split. Qed.

End TitlesOutsideAscii.

Section SharedReference.
Import Js Search SearchSpec.

Context {tables : Unicode.CaseTables}.

Lemma documentIdOf_unmatched (allDocuments : list Document)
    (c : GroundingChunk) :
  matchDocument allDocuments c = None ->
  documentIdOf allDocuments c = geminiFileId c.
Proof. intros H. unfold documentIdOf. rewrite H. reflexivity. Qed.

(** C10, as amended.  The fragments that match no document and carry one
    raw reference are all listed by one citation, the only one whose
    document ID is that reference, and the remap sends each of them to
    its number.  The title and snippet of that citation are those of the
    first fragment, resolved or not, whose document ID is that string;
    when no earlier fragment has that string as its document ID, this is
    the first of the unresolved fragments, and the title is the one the
    fragment carries. *)
Theorem unresolved_share_citation (allDocuments : list Document)
    (groundingChunks : list GroundingChunk) (r : string) (i : nat)
    (c : GroundingChunk) :
  unresolvedAt allDocuments groundingChunks r i c ->
  exists cit j0 c0,
    cit ∈ citations allDocuments groundingChunks
    /\ c_documentId cit = r
    /\ (forall cit',
          cit' ∈ citations allDocuments groundingChunks ->
          c_documentId cit' = r -> cit' = cit)
    /\ (forall j c',
          unresolvedAt allDocuments groundingChunks r j c' ->
          j ∈ c_chunkIndices cit
          /\ chunkToCitationMap allDocuments groundingChunks !! j
             = Some (c_index cit))
    /\ firstWith allDocuments groundingChunks r j0 c0
    /\ j0 <= i
    /\ c_title cit = entryTitle allDocuments c0
    /\ c_snippet cit = entrySnippet c0
    /\ ((forall j c', j < i -> groundingChunks !! j = Some c' ->
                      documentIdOf allDocuments c' <> r) ->
        j0 = i /\ c0 = c
        /\ c_title cit
           = orStr (field stitle (web c))
               (orStr (field stitle (retrievedContext c))
                  "Unknown Document")
        /\ c_snippet cit = entrySnippet c).
Proof.
  intros (Hc & Hnone & Href).
  pose proof (documentIdOf_unmatched _ _ Hnone) as Hd.
  rewrite Href in Hd.
  destruct (fragment_citation allDocuments groundingChunks i c Hc)
    as (p & e & Hp & Hdoc & Hi & Hmap & (j & c0 & Hf & Ht & Hs) & Huniq).
  rewrite Hd in *.
  assert (Hji : j <= i).
  { destruct Hf as (Hj & Hk & Hmin).
    destruct (le_lt_dec j i) as [Hle|Hgt]; [exact Hle|].
    exfalso. exact (Hmin i c Hgt Hc Hd). }
  exists (citationAt p e), j, c0.
  split; [eapply list_elem_of_lookup_2; exact Hp|].
  split; [exact Hdoc|]. split; [exact Huniq|]. split.
  { intros j' c' (Hc' & Hnone' & Href').
    pose proof (documentIdOf_unmatched _ _ Hnone') as Hd'.
    rewrite Href' in Hd'.
    destruct (fragment_citation allDocuments groundingChunks j' c' Hc')
      as (p' & e' & Hp' & Hdoc' & Hi' & Hmap' & _ & _).
    rewrite Hd' in *.
    assert (Heq : citationAt p' e' = citationAt p e).
    { apply Huniq; [eapply list_elem_of_lookup_2; exact Hp' | exact Hdoc']. }
    rewrite <- Heq. simpl. split; [exact Hi' | exact Hmap']. }
  split; [exact Hf|]. split; [exact Hji|].
  split; [exact Ht|]. split; [exact Hs|].
  intros Hearlier.
  assert (Hjc : j = i /\ c0 = c).
  { destruct Hf as (Hj & Hk & Hmin).
    destruct (lt_eq_lt_dec j i) as [[Hlt|Heq]|Hgt].
    - exfalso. exact (Hearlier j c0 Hlt Hj Hk).
    - subst j. split; [reflexivity | congruence].
    - lia. }
  destruct Hjc as [-> ->].
  split; [reflexivity|]. split; [reflexivity|]. split; [|exact Hs].
  simpl. rewrite Ht. unfold entryTitle. rewrite Hnone. reflexivity.
Qed.

End SharedReference.

Section SharedReferenceExamples.
Import Js Search SearchSpec.

#[local] Existing Instance Examples.asciiTables.

Lemma unresolved_share_citation_witness :
  let c := Examples.fragmentFull "1700000000001" "Memo" "memo text" in
  exists cit j0 c0,
    cit ∈ citations Examples.library Examples.colliding
    /\ c_documentId cit = "1700000000001"
    /\ (forall cit',
          cit' ∈ citations Examples.library Examples.colliding ->
          c_documentId cit' = "1700000000001" -> cit' = cit)
    /\ (forall j c',
          unresolvedAt Examples.library Examples.colliding "1700000000001"
            j c' ->
          j ∈ c_chunkIndices cit
          /\ chunkToCitationMap Examples.library Examples.colliding !! j
             = Some (c_index cit))
    /\ firstWith Examples.library Examples.colliding "1700000000001" j0 c0
    /\ j0 <= 1
    /\ c_title cit = entryTitle Examples.library c0
    /\ c_snippet cit = entrySnippet c0
    /\ ((forall j c', j < 1 -> Examples.colliding !! j = Some c' ->
                      documentIdOf Examples.library c' <> "1700000000001") ->
        j0 = 1 /\ c0 = c
        /\ c_title cit
           = orStr (field stitle (web c))
               (orStr (field stitle (retrievedContext c))
                  "Unknown Document")
        /\ c_snippet cit = entrySnippet c).
Proof.
  apply (unresolved_share_citation Examples.library Examples.colliding
           "1700000000001" 1
           (Examples.fragmentFull "1700000000001" "Memo" "memo text")).
  repeat split.
Defined.

(** C10 as stated fails: the second fragment matches no document and its
    reference is the ID of the document the first fragment resolved to;
    it is the first unresolved fragment with that reference, yet the one
    citation with that document ID has the title and snippet of the
    resolved fragment. *)
Lemma unresolved_title_collision :
  let c := Examples.fragmentFull "1700000000001" "Memo" "memo text" in
  firstUnresolvedAt Examples.library Examples.colliding "1700000000001" 1 c
  /\ ~ exists cit,
         cit ∈ citations Examples.library Examples.colliding
         /\ c_documentId cit = "1700000000001"
         /\ c_title cit = "Memo"
         /\ c_snippet cit = "memo text".
Proof.
  split.
  - split; [repeat split|].
    intros j c' Hlt (Hc' & Hnone & _).
    assert (j = 0) as -> by lia.
    inversion Hc'; subst c'. vm_compute in Hnone. discriminate.
  - intros (cit & Hin & _ & Htitle & _).
    assert (Hcs : citations Examples.library Examples.colliding
                  = [mkCitation "1700000000001" "Leave Policy" "annual" 1
                       [0; 1]]) by reflexivity.
    rewrite Hcs in Hin. apply list_elem_of_singleton in Hin. subst cit.
    simpl in Htitle. discriminate.
Qed.

End SharedReferenceExamples.

(* ===================================================================== *)
(** * Properties of the content-type mapping                              *)
(* ===================================================================== *)

Section ContentType.
Import Js DocumentIndexing.

Lemma toLowerChar_idempotent (c : ascii) :
  toLowerChar (toLowerChar c) = toLowerChar c.
Proof.
  destruct c as [[] [] [] [] [] [] [] []]; vm_compute; reflexivity.
Qed.

Lemma toLowerCase_idempotent (s : string) :
  toLowerCase (toLowerCase s) = toLowerCase s.
Proof.
  induction s as [|c s IH]; simpl; [reflexivity|].
  rewrite toLowerChar_idempotent, IH. reflexivity.
Qed.


Lemma toLowerChar_dot (c : ascii) :
  Ascii.eqb (toLowerChar c) "."%char = Ascii.eqb c "."%char.
Proof.
  destruct c as [[] [] [] [] [] [] [] []]; vm_compute; reflexivity.
Qed.

Lemma splitDotFrom_lower (cur s : string) :
  splitDotFrom (toLowerCase cur) (toLowerCase s)
  = toLowerCase <$> splitDotFrom cur s.
Proof.
  revert cur. induction s as [|c s IH]; intros cur; simpl; [reflexivity|].
  rewrite toLowerChar_dot. destruct (Ascii.eqb c "."%char).
  - rewrite fmap_cons. f_equal. apply (IH EmptyString).
  - rewrite <- IH. f_equal. rewrite toLowerCase_app. reflexivity.
Qed.

Lemma pop_lower (s : string) :
  pop (splitDot (toLowerCase s)) = option_map toLowerCase (pop (splitDot s)).
Proof.
  unfold pop, splitDot.
  change EmptyString with (toLowerCase EmptyString) at 1.
  rewrite splitDotFrom_lower. apply fmap_last.
Qed.








(** On its own [getMimeType] gives no content type to a file name whose
    suffix is the name of a property every object literal inherits: the
    table lookup finds the built-in, which is truthy, so the default is
    not taken.  No run of the pipeline calls it with such a name: the
    blob upload, which comes first, has thrown by then. *)
Lemma getMimeType_inherited_property :
  suffix "report.constructor" = "constructor"
  /\ getMimeType "report.constructor" = VBuiltin "Object"
  /\ getMimeType "report.constructor"
     <> VString "application/octet-stream".
Proof. repeat split. discriminate. Qed.


End ContentType.

(* ===================================================================== *)
(** * Properties of the indexing pipeline                                 *)
(* ===================================================================== *)

(** Unfolding of the monad's operations. *)
Ltac munfold :=
  unfold sleep, DateNow in *;
  unfold mbind, M_bind, bind, mret, M_ret, ret, throw, tryCatch, getWorld,
    modify, lift in *.

Section Polling.
Import Js DocumentIndexing WorldSpec.

Variable svc : Gemini.







End Polling.

Section PollingExamples.
Import Js DocumentIndexing WorldSpec.


End PollingExamples.

(** ** What the retrieval-service code leaves alone *)

Section Frame.
Import Js WorldSpec.

Lemma quiet_refl (w : World) : quiet w w.
Proof.
  repeat split. exists []. rewrite app_nil_r. split; reflexivity.
Qed.

Lemma statusWrites_app (a b : list Event) :
  statusWrites (a ++ b) = statusWrites a ++ statusWrites b.
Proof. unfold statusWrites. apply omap_app. Qed.

Lemma quiet_trans (w1 w2 w3 : World) :
  quiet w1 w2 -> quiet w2 w3 -> quiet w1 w3.
Proof.
  intros (He & Hb & Hd & evs & Ht & Hs) (He' & Hb' & Hd' & evs' & Ht' & Hs').
  split; [congruence|]. split; [congruence|]. split; [congruence|].
  exists (evs ++ evs'). split.
  - rewrite Ht', Ht, app_assoc. reflexivity.
  - rewrite statusWrites_app, Hs, Hs'. reflexivity.
Qed.

Lemma Quiet_ret {A} (a : A) : Quiet (mret a).
Proof. intros w. apply quiet_refl. Qed.

Lemma Quiet_throw {A} (e : string) : Quiet (@throw A e).
Proof. intros w. apply quiet_refl. Qed.

Lemma Quiet_lift {A} (r : Outcome A) : Quiet (lift r).
Proof. intros w. apply quiet_refl. Qed.

Lemma Quiet_bind {A B} (m : M A) (k : A -> M B) :
  Quiet m -> (forall a, Quiet (k a)) -> Quiet (m ≫= k).
Proof.
  intros Hm Hk w. specialize (Hm w). munfold.
  destruct (m w) as [[a|e] w']; simpl in *; [|exact Hm].
  eapply quiet_trans; [exact Hm | apply Hk].
Qed.

Lemma Quiet_tryCatch {A} (m : M A) (h : string -> M A) :
  Quiet m -> (forall e, Quiet (h e)) -> Quiet (tryCatch m h).
Proof.
  intros Hm Hh w. specialize (Hm w). munfold.
  destruct (m w) as [[a|e] w']; simpl in *; [exact Hm|].
  eapply quiet_trans; [exact Hm | apply Hh].
Qed.

Lemma Quiet_getWorld_bind {B} (k : World -> M B) :
  (forall w, Quiet (k w)) -> Quiet (getWorld ≫= k).
Proof.
  intros Hk. apply Quiet_bind; [|exact Hk]. intros w. apply quiet_refl.
Qed.

Lemma Quiet_modify (f : World -> World) :
  (forall w, quiet w (f w)) -> Quiet (modify f).
Proof. intros Hf w. apply Hf. Qed.

Lemma quiet_emit (e : Event) (w : World) :
  isStatusWritten e = false -> quiet w (emit e w).
Proof.
  intros He. repeat split. exists [e]. split; [reflexivity|].
  destruct e; try reflexivity. discriminate.
Qed.

Lemma quiet_advance (ms : N) (w : World) : quiet w (advance ms w).
Proof. repeat split. exists []. rewrite app_nil_r. split; reflexivity. Qed.

Lemma quiet_setCachedStoreName (c : option string) (w : World) :
  quiet w (setCachedStoreName c w).
Proof. repeat split. exists []. rewrite app_nil_r. split; reflexivity. Qed.

Lemma quiet_setStoreConfig (c : option FileSearchStoreConfig) (w : World) :
  quiet w (setStoreConfig c w).
Proof. repeat split. exists []. rewrite app_nil_r. split; reflexivity. Qed.

Lemma Quiet_takeFault : Quiet FileSearchStore.takeFault.
Proof.
  intros w. unfold FileSearchStore.takeFault.
  repeat split. exists []. rewrite app_nil_r. split; reflexivity.
Qed.

Lemma Quiet_getGeminiClient : Quiet GeminiClient.getGeminiClient.
Proof.
  unfold GeminiClient.getGeminiClient. apply Quiet_getWorld_bind. intros w.
  destruct (negb _); [apply Quiet_throw | apply Quiet_ret].
Qed.

Lemma Quiet_getOrCreateFileSearchStore (svc : Gemini) :
  Quiet (FileSearchStore.getOrCreateFileSearchStore svc).
Proof.
  unfold FileSearchStore.getOrCreateFileSearchStore.
  apply Quiet_getWorld_bind. intros w.
  destruct (truthy (cachedStoreName w)); [apply Quiet_ret|].
  apply Quiet_bind.
  { unfold FileSearchStore.getStoreTableClient.
    apply Quiet_getWorld_bind. intros w'.
    destruct (_ || _); [apply Quiet_throw | apply Quiet_ret]. }
  intros _. apply Quiet_bind.
  { apply Quiet_tryCatch; [|intros e; apply Quiet_ret].
    apply Quiet_bind.
    - unfold FileSearchStore.getEntity.
      apply Quiet_bind; [apply Quiet_takeFault|].
      intros [msg|]; [apply Quiet_throw|].
      apply Quiet_getWorld_bind.
      intros w'. destruct (storeConfig w');
        [apply Quiet_ret | apply Quiet_throw].
    - intros entity. apply Quiet_bind; [|intros _; apply Quiet_ret].
      apply Quiet_modify. intros w'. apply quiet_setCachedStoreName. }
  intros [name|]; [apply Quiet_ret|].
  apply Quiet_bind; [apply Quiet_getGeminiClient|]. intros _.
  apply Quiet_bind.
  { unfold FileSearchStore.create. apply Quiet_getWorld_bind. intros w'.
    apply Quiet_bind; [|intros _; apply Quiet_lift].
    apply Quiet_modify. intros w''. apply quiet_emit. reflexivity. }
  intros store. destruct (negb (truthy store)); [apply Quiet_throw|].
  apply Quiet_bind; [intros w'; apply quiet_refl|]. intros now0.
  apply Quiet_bind.
  { unfold FileSearchStore.createEntity.
    apply Quiet_bind; [apply Quiet_takeFault|].
    intros [msg|]; [apply Quiet_throw|].
    apply Quiet_getWorld_bind.
    intros w'. destruct (storeConfig w'); [apply Quiet_throw|].
    apply Quiet_modify. intros w''. apply quiet_setStoreConfig. }
  intros _. apply Quiet_bind; [|intros _; apply Quiet_ret].
  apply Quiet_modify. intros w'. apply quiet_setCachedStoreName.
Qed.

Lemma Quiet_pollLoop (svc : Gemini) (n : nat) (operation : Operation.t) :
  Quiet (DocumentIndexing.pollLoop svc n operation).
Proof.
  revert operation. induction n as [|n IH]; intros operation; simpl.
  - destruct (negb _); apply Quiet_ret.
  - destruct (negb _); [|apply Quiet_ret].
    apply Quiet_bind.
    { unfold sleep. apply Quiet_modify. intros w.
      eapply quiet_trans; [apply quiet_advance|].
      apply quiet_emit. reflexivity. }
    intros _. apply Quiet_bind; [|exact IH].
    unfold DocumentIndexing.operationsGet. apply Quiet_getWorld_bind.
    intros w. apply Quiet_bind; [|intros _; apply Quiet_lift].
    apply Quiet_modify. intros w'. apply quiet_emit. reflexivity.
Qed.

Lemma Quiet_pollForCompletion (svc : Gemini) (buffer fileName : string)
    (metadata : string * string * string) :
  Quiet (DocumentIndexing.pollForCompletion svc buffer fileName metadata).
Proof.
  unfold DocumentIndexing.pollForCompletion, DocumentIndexing.startUpload.
  apply Quiet_bind.
  - apply Quiet_bind; [apply Quiet_getGeminiClient|]. intros _.
    apply Quiet_bind; [apply Quiet_getOrCreateFileSearchStore|].
    intros storeName. apply Quiet_bind; [apply Quiet_lift|].
    intros operation. apply Quiet_ret.
  - intros [storeName operation].
    apply Quiet_bind; [apply Quiet_pollLoop|]. intros c. apply Quiet_ret.
Qed.

Lemma Quiet_uploadDocumentToGemini (svc : Gemini) (buffer fileName : string)
    (metadata : string * string * string) :
  Quiet (DocumentIndexing.uploadDocumentToGemini svc buffer fileName
           metadata).
Proof.
  unfold DocumentIndexing.uploadDocumentToGemini.
  apply Quiet_bind; [apply Quiet_pollForCompletion|].
  intros [storeName completed]. unfold DocumentIndexing.conclude.
  destruct (negb _); [apply Quiet_throw|].
  destruct (Operation.error completed); [apply Quiet_throw|apply Quiet_ret].
Qed.

Lemma Quiet_deleteDocumentFromGemini (svc : Gemini) (h : string) :
  Quiet (DocumentIndexing.deleteDocumentFromGemini svc h).
Proof.
  unfold DocumentIndexing.deleteDocumentFromGemini.
  apply Quiet_tryCatch; [|intros e; apply Quiet_ret].
  apply Quiet_bind; [apply Quiet_getGeminiClient|].
  intros _. apply Quiet_lift.
Qed.

End Frame.

(** ** The table and the pipeline *)

Section Pipeline.
Import Js WorldSpec.

Lemma getTableClient_run (w : World) :
  tableConfigured (env w) ->
  TableStorage.getTableClient w = (Returned tt, w).
Proof.
  intros [Hn Hk]. unfold TableStorage.getTableClient. munfold.
  rewrite Hn, Hk. reflexivity.
Qed.

(** An update of an existing row succeeds: it returns the spread and
    stores the row with the fields of the update that are defined. *)
Lemma updateDocument_run (i : string) (u : TableStorage.Updates)
    (w : World) (d : Document) :
  tableConfigured (env w) ->
  documents w !! i = Some d -> rowKey d = i ->
  exists stored,
    TableStorage.updateDocument i u w
    = (Returned (TableStorage.spread d u),
       emit (StatusWritten i (status stored))
         (setDocuments <[i := stored]> w))
    /\ status stored = default (status d) (TableStorage.u_status u)
    /\ geminiDocumentId stored
       = match TableStorage.u_geminiDocumentId u with
         | Some h => Some h
         | None => geminiDocumentId d
         end
    /\ errorMessage stored
       = match TableStorage.u_errorMessage u with
         | Some (Some m) => Some m
         | _ => errorMessage d
         end
    /\ blobName stored = blobName d.
Proof.
  intros Hcfg Hd Hrow.
  unfold TableStorage.updateDocument, TableStorage.getEntity,
    TableStorage.updateEntityMerge.
  pose proof (getTableClient_run w Hcfg) as Hclient.
  munfold. rewrite Hclient, Hd. simpl. rewrite Hclient.
  simpl. rewrite Hrow, Hd. simpl.
  match goal with
  | |- context [setDocuments <[i := ?s]> w] => exists s
  end.
  split; [reflexivity|]. simpl.
  repeat split.
  - destruct (TableStorage.u_geminiDocumentId u); [reflexivity|].
    destruct (geminiDocumentId d); reflexivity.
  - destruct (TableStorage.u_errorMessage u) as [[m|]|]; simpl;
      try reflexivity; destruct (errorMessage d); reflexivity.
Qed.

(** The [try]/[catch] around the indexing of a record that exists marks
    it ready with the handle the upload returned, or failed with the
    message the upload threw, which it throws again; either way one
    status is written and the blobs are as they were. *)
Lemma indexCreated_outcome (svc : Gemini) (document d : Document)
    (buffer fileName : string) (metadata : string * string * string)
    (w : World) :
  tableConfigured (env w) ->
  documents w !! id document = Some d -> rowKey d = id document ->
  exists w3 stored w',
    quiet w w3
    /\ documents w' !! id document = Some stored
    /\ blobs w' = blobs w
    /\ blobName stored = blobName d
    /\ match DocumentIndexing.uploadDocumentToGemini svc buffer fileName
               metadata w with
       | (Returned res, w3') =>
           w3' = w3
           /\ (exists doc',
                 Crud.indexCreated svc document buffer fileName metadata w
                 = (Returned doc', w')
                 /\ status doc' = ready
                 /\ geminiDocumentId doc'
                    = Some (DocumentIndexing.r_geminiDocumentId res))
           /\ status stored = ready
           /\ geminiDocumentId stored
              = Some (DocumentIndexing.r_geminiDocumentId res)
           /\ trace w' = trace w3 ++ [StatusWritten (id document) ready]
       | (Thrown msg, w3') =>
           w3' = w3
           /\ Crud.indexCreated svc document buffer fileName metadata w
              = (Thrown msg, w')
           /\ status stored = failed
           /\ errorMessage stored = Some ("Gemini upload failed: " +:+ msg)
           /\ trace w' = trace w3 ++ [StatusWritten (id document) failed]
       end.
Proof.
  intros Hcfg Hd Hrow.
  pose proof (Quiet_uploadDocumentToGemini svc buffer fileName metadata w)
    as Hq.
  unfold Crud.indexCreated.
  destruct (DocumentIndexing.uploadDocumentToGemini svc buffer fileName
              metadata w) as [[res|msg] w3] eqn:Hup; simpl in Hq.
  - destruct Hq as (He & Hb & Hdocs & Hev).
    assert (Hcfg3 : tableConfigured (env w3)) by (rewrite He; exact Hcfg).
    assert (Hd3 : documents w3 !! id document = Some d)
      by (rewrite Hdocs; exact Hd).
    destruct (updateDocument_run (id document)
                (TableStorage.mkUpdates (Some ready) None
                   (Some (DocumentIndexing.r_geminiDocumentId res))
                   (Some (DocumentIndexing.r_geminiFileSearchStoreName res)))
                w3 d Hcfg3 Hd3 Hrow)
      as (stored & Hrun & Hst & Hgid & _ & Hbn).
    simpl in Hst, Hgid.
    eexists w3, stored, _. split; [repeat split; assumption|].
    split; [|split; [|split; [exact Hbn|]]]; cycle 2.
    + split; [reflexivity|]. split; [|split; [|split]].
      * eexists. split; [|split].
        -- munfold. rewrite Hup. simpl.
           rewrite Hrun. reflexivity.
        -- reflexivity.
        -- reflexivity.
      * rewrite Hst. reflexivity.
      * exact Hgid.
      * rewrite Hst. reflexivity.
    + simpl. apply lookup_insert_eq.
    + simpl. exact Hb.
  - destruct Hq as (He & Hb & Hdocs & Hev).
    assert (Hcfg3 : tableConfigured (env w3)) by (rewrite He; exact Hcfg).
    assert (Hd3 : documents w3 !! id document = Some d)
      by (rewrite Hdocs; exact Hd).
    destruct (updateDocument_run (id document)
                (TableStorage.mkUpdates (Some failed)
                   (Some (Some ("Gemini upload failed: " +:+ msg)))
                   None None)
                w3 d Hcfg3 Hd3 Hrow)
      as (stored & Hrun & Hst & _ & Herr & Hbn).
    simpl in Hst, Herr.
    eexists w3, stored, _. split; [repeat split; assumption|].
    split; [|split; [|split; [exact Hbn|]]]; cycle 2.
    + split; [reflexivity|]. split; [|split; [|split]].
      * munfold. rewrite Hup. simpl. rewrite Hrun. reflexivity.
      * exact Hst.
      * exact Herr.
      * rewrite Hst. reflexivity.
    + simpl. apply lookup_insert_eq.
    + simpl. exact Hb.
Qed.

End Pipeline.

Section Handle.
Import Js WorldSpec DocumentIndexing.

(** C9.  When the loop ends on a done operation with no error and
    neither the response nor the operation carries a name, the upload
    returns the handle "unknown", and the record being indexed is marked
    ready with that handle. *)
Theorem unknown_handle_ready (svc : Gemini) (document d : Document)
    (buffer fileName : string) (metadata : string * string * string)
    (w w3 : World) (storeName : string) (completed : Operation.t) :
  tableConfigured (env w) ->
  documents w !! id document = Some d -> rowKey d = id document ->
  pollForCompletion svc buffer fileName metadata w
  = (Returned (storeName, completed), w3) ->
  Operation.done completed = true ->
  Operation.error completed = None ->
  truthy (match Operation.response completed with
          | Some r => Operation.rname r
          | None => None
          end) = false ->
  truthy (Operation.name completed) = false ->
  uploadDocumentToGemini svc buffer fileName metadata w
  = (Returned (mkResult "unknown" storeName), w3)
  /\ exists doc' stored w',
       Crud.indexCreated svc document buffer fileName metadata w
       = (Returned doc', w')
       /\ status doc' = ready
       /\ geminiDocumentId doc' = Some "unknown"
       /\ documents w' !! id document = Some stored
       /\ status stored = ready
       /\ geminiDocumentId stored = Some "unknown".
Proof.
  intros Hcfg Hd Hrow Hpoll Hdone Herr Hresp Hname.
  assert (Hup : uploadDocumentToGemini svc buffer fileName metadata w
                = (Returned (mkResult "unknown" storeName), w3)).
  { unfold uploadDocumentToGemini. munfold. rewrite Hpoll.
    unfold conclude. rewrite Hdone, Herr. simpl.
    unfold orStr at 1.
    destruct (match Operation.response completed with
              | Some r => Operation.rname r
              | None => None
              end) as [s|]; simpl in Hresp.
    - rewrite Hresp. unfold orStr.
      destruct (Operation.name completed) as [s'|]; simpl in Hname;
        [rewrite Hname|]; reflexivity.
    - unfold orStr.
      destruct (Operation.name completed) as [s'|]; simpl in Hname;
        [rewrite Hname|]; reflexivity. }
  split; [exact Hup|].
  destruct (indexCreated_outcome svc document d buffer fileName metadata w
              Hcfg Hd Hrow)
    as (w3' & stored & w' & _ & Hstored & _ & _ & Hcase).
  rewrite Hup in Hcase.
  destruct Hcase as (_ & (doc' & Hrun & Hst & Hgid) & Hst' & Hgid' & _).
  exists doc', stored, w'. simpl in Hgid, Hgid'. repeat split; assumption.
Qed.

Lemma unknown_handle_ready_witness :
  uploadDocumentToGemini Examples.namelessService "%PDF" "handbook.pdf"
    ("Employee Handbook", "HR", "1.0") Examples.created
  = (Returned (mkResult "unknown" "fileSearchStores/pgc-policies"),
     Examples.created)
  /\ exists doc' stored w',
       Crud.indexCreated Examples.namelessService Examples.handbook "%PDF"
         "handbook.pdf" ("Employee Handbook", "HR", "1.0") Examples.created
       = (Returned doc', w')
       /\ status doc' = ready
       /\ geminiDocumentId doc' = Some "unknown"
       /\ documents w' !! id Examples.handbook = Some stored
       /\ status stored = ready
       /\ geminiDocumentId stored = Some "unknown".
Proof.
  apply (unknown_handle_ready Examples.namelessService Examples.handbook
           Examples.handbook "%PDF" "handbook.pdf"
           ("Employee Handbook", "HR", "1.0") Examples.created
           Examples.created "fileSearchStores/pgc-policies"
           (Operation.mk true None None None));
    try reflexivity.
  split; reflexivity.
Defined.

End Handle.

Section Lifecycle.
Import Js WorldSpec.


Lemma createDocument_cases (data : TableStorage.DocumentData) (w : World) :
  (exists e, TableStorage.createDocument data w = (Thrown e, w))
  \/ (tableConfigured (env w)
      /\ exists entity,
           rowKey entity = toString (now w)
           /\ id entity = toString (now w)
           /\ TableStorage.createDocument data w
              = (Returned entity,
                 emit (StatusWritten (toString (now w))
                         (TableStorage.d_status data))
                   (setDocuments <[toString (now w) := entity]> w))).
Proof.
  unfold TableStorage.createDocument, TableStorage.getTableClient,
    TableStorage.createEntity.
  munfold.
  destruct (truthy (AZURE_STORAGE_ACCOUNT_NAME (env w))) eqn:Hn; simpl;
    [|left; eexists; reflexivity].
  destruct (truthy (AZURE_STORAGE_ACCOUNT_KEY (env w))) eqn:Hk; simpl;
    [|left; eexists; reflexivity].
  destruct (documents w !! toString (now w)); simpl;
    [left; eexists; reflexivity|].
  right. split; [split; assumption|].
  eexists. split; [|split; [|reflexivity]]; reflexivity.
Qed.





End Lifecycle.

Section Ingestion.
Import Js WorldSpec DocumentIndexing.

Variable svc : Gemini.




End Ingestion.

Section IngestionType.
Import Js WorldSpec DocumentIndexing.



End IngestionType.

Section CascadingDelete.
Import Js WorldSpec.

Lemma setBlobs_same (f : gmap string Blob -> gmap string Blob) (w : World) :
  f (blobs w) = blobs w -> setBlobs f w = w.
Proof.
  intros H. destruct w. unfold setBlobs. simpl in *. rewrite H.
  reflexivity.
Qed.

Lemma getContainerClient_run (w : World) :
  blobConfigured (env w) ->
  exists container,
    AzureStorage.getContainerClient w = (Returned container, w).
Proof.
  intros [Hc Hn]. unfold AzureStorage.getContainerClient,
    AzureStorage.getBlobServiceClient, AzureStorage.getContainerName.
  munfold. rewrite Hc. simpl.
  destruct (AZURE_STORAGE_CONTAINER_NAME (env w)) as [n|];
    simpl in Hn; [|discriminate].
  rewrite Hn. eexists. reflexivity.
Qed.

Lemma azure_deleteDocument_run (blobName : string) (w : World) :
  blobConfigured (env w) ->
  AzureStorage.deleteDocument blobName w
  = (Returned tt, setBlobs (delete blobName) w).
Proof.
  intros Hcfg. destruct (getContainerClient_run w Hcfg) as [c Hc].
  unfold AzureStorage.deleteDocument. munfold. rewrite Hc. reflexivity.
Qed.

Lemma deleteDocumentFromGemini_run (svc : Gemini) (h : string) (w : World) :
  DocumentIndexing.deleteDocumentFromGemini svc h w = (Returned tt, w).
Proof.
  unfold DocumentIndexing.deleteDocumentFromGemini,
    GeminiClient.getGeminiClient.
  munfold. destruct (negb _); simpl; [reflexivity|].
  destruct (files_delete svc h) as [[]|e]; reflexivity.
Qed.

(** C7.  With the blob container reachable, deleting a blob that is not
    there returns without an error and changes nothing.  Deleting a
    retrieval handle returns without an error whatever the service or the
    environment does.  So the cascading delete of an existing record, with
    both stores reachable, always ends with the record removed, whether
    or not its blob exists and whether or not the retrieval service
    accepts the delete. *)
Theorem delete_tolerates_absence :
  (forall (blobName : string) (w : World),
      blobConfigured (env w) -> blobs w !! blobName = None ->
      AzureStorage.deleteDocument blobName w = (Returned tt, w))
  /\ (forall (svc : Gemini) (h : string) (w : World),
        DocumentIndexing.deleteDocumentFromGemini svc h w
        = (Returned tt, w))
  /\ (forall (svc : Gemini) (i : string) (d : Document) (w : World),
        blobConfigured (env w) -> tableConfigured (env w) ->
        documents w !! i = Some d ->
        exists w',
          Crud.deleteDocument svc i w = (Returned tt, w')
          /\ documents w' !! i = None
          /\ blobs w' = delete (blobName d) (blobs w)).
Proof.
  split; [|split].
  - intros blobName w Hcfg Habsent.
    rewrite azure_deleteDocument_run by exact Hcfg.
    rewrite setBlobs_same; [reflexivity|].
    apply delete_id. exact Habsent.
  - exact deleteDocumentFromGemini_run.
  - intros svc i d w Hblob Htable Hd.
    set (w1 := setBlobs (delete (blobName d)) w).
    exists (setDocuments (delete i) w1). split; [|split].
    + unfold Crud.deleteDocument, TableStorage.getDocumentById,
        TableStorage.getEntity, TableStorage.deleteDocument.
      pose proof (getTableClient_run w Htable) as Hclient.
      pose proof (getTableClient_run w1 Htable) as Hclient1.
      pose proof (azure_deleteDocument_run (blobName d) w Hblob) as Hdel.
      munfold. rewrite Hclient, Hd. simpl. rewrite Hdel. fold w1.
      destruct (truthy (geminiDocumentId d)).
      * rewrite deleteDocumentFromGemini_run, Hclient1. simpl.
        rewrite Hd. reflexivity.
      * rewrite Hclient1. simpl. rewrite Hd. reflexivity.
    + simpl. apply lookup_delete_eq.
    + reflexivity.
Qed.

Lemma delete_tolerates_absence_witness :
  exists w',
    Crud.deleteDocument Examples.namelessService "1700000000001"
      Examples.indexed = (Returned tt, w')
    /\ documents w' !! "1700000000001" = None
    /\ blobs w'
       = delete (blobName Examples.leavePolicy) (blobs Examples.indexed).
Proof.
  destruct delete_tolerates_absence as (_ & _ & Hcascade).
  apply (Hcascade Examples.namelessService "1700000000001"
           Examples.leavePolicy Examples.indexed).
  - split; reflexivity.
  - split; reflexivity.
  - reflexivity.
Defined.

End CascadingDelete.

(* ===================================================================== *)
(** * Properties of the store registry                                    *)
(* ===================================================================== *)

Section Registry.
Import Js WorldSpec FileSearchStore.

Variable svc : Gemini.

Lemma truthy_orStr (o : option string) :
  truthy o = true -> o = Some (orStr o "") /\ truthyStr (orStr o "") = true.
Proof.
  destruct o as [s|]; simpl; [|discriminate].
  intros H. rewrite H. split; [reflexivity | exact H].
Qed.

Lemma served_next (w : World) : served w -> nextFault w = None.
Proof.
  unfold served, nextFault. intros H.
  destruct (configFaults w) as [|fault rest]; [reflexivity|].
  inversion H; assumption.
Qed.

Lemma served_answered (w : World) : served w -> served (answered w).
Proof.
  unfold served, answered. simpl. intros H.
  destruct (configFaults w) as [|fault rest]; [exact H|].
  inversion H; assumption.
Qed.

(** The read and the write of the registration row, case by case. *)
Lemma getEntity_run (w : World) :
  getEntity w
  = (match nextFault w with
     | Some msg => Thrown msg
     | None =>
         match storeConfig w with
         | Some entity => Returned entity
         | None => Thrown "The specified resource does not exist."
         end
     end, answered w).
Proof.
  unfold getEntity, takeFault. munfold.
  destruct (nextFault w); [reflexivity|].
  change (storeConfig (answered w)) with (storeConfig w).
  destruct (storeConfig w); reflexivity.
Qed.

Lemma createEntity_run (config : FileSearchStoreConfig) (w : World) :
  createEntity config w
  = match nextFault w with
    | Some msg => (Thrown msg, answered w)
    | None =>
        match storeConfig w with
        | Some _ => (Thrown "The specified entity already exists.",
                     answered w)
        | None => (Returned tt, setStoreConfig (Some config) (answered w))
        end
    end.
Proof.
  unfold createEntity, takeFault. munfold.
  destruct (nextFault w); [reflexivity|].
  change (storeConfig (answered w)) with (storeConfig w).
  destruct (storeConfig w); reflexivity.
Qed.

(** One call, case by case. *)
Lemma getOrCreate_run (w : World) :
  getOrCreateFileSearchStore svc w
  = if truthy (cachedStoreName w)
    then (Returned (orStr (cachedStoreName w) ""), w)
    else if negb (truthy (AZURE_STORAGE_ACCOUNT_NAME (env w)))
            || negb (truthy (AZURE_STORAGE_ACCOUNT_KEY (env w)))
    then (Thrown "Azure Storage credentials not configured", w)
    else
      match nextFault w, storeConfig w with
      | None, Some entity =>
          (Returned (storeName entity),
           setCachedStoreName (Some (storeName entity)) (answered w))
      | _, _ =>
          if negb (truthy (GEMINI_API_KEY (env w)))
          then (Thrown "GEMINI_API_KEY is not defined in environment variables",
                answered w)
          else
            let reply :=
              fileSearchStores_create svc (storeCreationCount (trace w)) in
            match reply with
            | Thrown e => (Thrown e, afterCreation reply w)
            | Returned store =>
                if negb (truthy store)
                then (Thrown
                        "Failed to create File Search Store - no name returned",
                      afterCreation reply w)
                else registration (orStr store "") w
            end
      end.
Proof.
  unfold getOrCreateFileSearchStore, getStoreTableClient, create,
    GeminiClient.getGeminiClient.
  munfold.
  destruct (truthy (cachedStoreName w)); [reflexivity|].
  destruct (_ || _); [reflexivity|]. cbn beta iota.
  rewrite getEntity_run.
  destruct (nextFault w) as [msg|] eqn:Hnext;
    destruct (storeConfig w) as [entity|] eqn:Hcfg;
    cbn beta iota; try reflexivity;
    change (env (answered w)) with (env w);
    (destruct (negb (truthy (GEMINI_API_KEY (env w)))); [reflexivity|]);
    cbn beta iota zeta;
    change (trace (answered w)) with (trace w);
    (destruct (fileSearchStores_create svc (storeCreationCount (trace w)))
       as [store|e]; [|reflexivity]);
    (destruct (truthy store) eqn:Hs; cbn [negb]; cbn beta iota;
       [|reflexivity]);
    rewrite createEntity_run; unfold registration, afterCreation;
    destruct (truthy_orStr store Hs) as [Hstore _]; rewrite <- Hstore;
    change (storeConfig (emit (StoreCreationCalled (Returned store))
                           (answered w))) with (storeConfig w);
    rewrite Hcfg;
    (destruct (nextFault (emit (StoreCreationCalled (Returned store))
                            (answered w))); reflexivity).
Qed.

(** A call that returned a handle that is not empty has cached it. *)
Lemma getOrCreate_cached (w w' : World) (h : string) :
  getOrCreateFileSearchStore svc w = (Returned h, w') ->
  truthyStr h = true ->
  truthy (cachedStoreName w') = true /\ orStr (cachedStoreName w') "" = h.
Proof.
  rewrite getOrCreate_run. intros Hrun Hh.
  destruct (truthy (cachedStoreName w)) eqn:Hcache.
  { inversion Hrun; subst. split; [exact Hcache | reflexivity]. }
  destruct (_ || _); [discriminate|].
  assert (Hcreate :
    (if negb (truthy (GEMINI_API_KEY (env w)))
     then (Thrown "GEMINI_API_KEY is not defined in environment variables",
           answered w)
     else
       let reply :=
         fileSearchStores_create svc (storeCreationCount (trace w)) in
       match reply with
       | Thrown e => (Thrown e, afterCreation reply w)
       | Returned store =>
           if negb (truthy store)
           then (Thrown
                   "Failed to create File Search Store - no name returned",
                 afterCreation reply w)
           else registration (orStr store "") w
       end) = (Returned h, w') ->
    truthy (cachedStoreName w') = true /\ orStr (cachedStoreName w') "" = h).
  { destruct (negb (truthy (GEMINI_API_KEY (env w)))); [discriminate|].
    cbv zeta.
    destruct (fileSearchStores_create svc (storeCreationCount (trace w)))
      as [store|e]; [|discriminate].
    destruct (negb (truthy store)); [discriminate|].
    unfold registration. cbv zeta.
    destruct (nextFault (afterCreation (Returned (Some (orStr store "")))
                           w)); [discriminate|].
    destruct (storeConfig w); [discriminate|].
    intros H. inversion H; subst. simpl. rewrite Hh.
    split; reflexivity. }
  destruct (nextFault w) as [msg|].
  - destruct (storeConfig w); apply Hcreate; exact Hrun.
  - destruct (storeConfig w) as [entity|]; [|apply Hcreate; exact Hrun].
    inversion Hrun; subst. simpl. rewrite Hh. split; reflexivity.
Qed.

(** A call that returned a handle that is not empty left a world in which
    the next call returns the same handle and changes nothing. *)
Lemma getOrCreate_settled (w w' : World) (h : string) :
  getOrCreateFileSearchStore svc w = (Returned h, w') ->
  truthyStr h = true ->
  getOrCreateFileSearchStore svc w' = (Returned h, w').
Proof.
  intros Hrun Hh.
  destruct (getOrCreate_cached w w' h Hrun Hh) as [Hcache Hname].
  rewrite getOrCreate_run, Hcache, Hname. reflexivity.
Qed.

Lemma worldAfter_settled (n : nat) (w : World) (h : string) :
  getOrCreateFileSearchStore svc w = (Returned h, w) ->
  worldAfter svc n w = w.
Proof.
  intros H. induction n as [|n IH]; simpl; [reflexivity|].
  rewrite H. simpl. exact IH.
Qed.

Lemma calls_settled (n : nat) (w : World) (h : string) (j : nat) :
  getOrCreateFileSearchStore svc w = (Returned h, w) ->
  j < n -> calls svc n w !! j = Some (Returned h, w).
Proof.
  intros H. revert j. induction n as [|n IH]; intros j Hj; [lia|].
  simpl. rewrite H. destruct j as [|j]; simpl; [reflexivity|].
  apply IH. lia.
Qed.

Lemma usableCreationCount_snoc (tr : list Event) (e : Event) :
  usableCreationCount (tr ++ [e])
  = usableCreationCount tr + (if isUsableCreation e then 1 else 0).
Proof.
  unfold usableCreationCount. rewrite filter_app, length_app.
  f_equal. destruct (isUsableCreation e) eqn:E.
  - rewrite filter_cons_True by (rewrite E; exact I). reflexivity.
  - rewrite filter_cons_False by (rewrite E; intros []). reflexivity.
Qed.

(** What one call does to the trace when the table serves every call:
    nothing, or one creation call, and a creation call that returned a
    usable handle makes the call return that handle.  The table goes on
    serving. *)
Lemma getOrCreate_trace (w : World) :
  served w ->
  served (snd (getOrCreateFileSearchStore svc w))
  /\ (trace (snd (getOrCreateFileSearchStore svc w)) = trace w
      \/ exists reply,
           trace (snd (getOrCreateFileSearchStore svc w))
           = trace w ++ [StoreCreationCalled reply]
           /\ (isUsableCreation (StoreCreationCalled reply) = true ->
               exists h,
                 fst (getOrCreateFileSearchStore svc w) = Returned h
                 /\ truthyStr h = true)).
Proof.
  intros Hserved. rewrite getOrCreate_run.
  pose proof (served_next w Hserved) as Hnext.
  pose proof (served_answered w Hserved) as Hans.
  destruct (truthy (cachedStoreName w)); [split; [exact Hserved|left; reflexivity]|].
  destruct (_ || _); [split; [exact Hserved|left; reflexivity]|].
  rewrite Hnext.
  destruct (storeConfig w) as [entity|] eqn:Hcfg;
    [split; [exact Hans|left; reflexivity]|].
  destruct (negb (truthy (GEMINI_API_KEY (env w))));
    [split; [exact Hans|left; reflexivity]|].
  cbv zeta.
  destruct (fileSearchStores_create svc (storeCreationCount (trace w)))
    as [store|e] eqn:Hreply.
  - destruct (truthy store) eqn:Hs; simpl.
    + unfold registration.
      assert (Hnext2 : nextFault (afterCreation
                                    (Returned (Some (orStr store ""))) w)
                       = None)
        by (apply (served_next (answered w)); exact Hans).
      rewrite Hnext2, Hcfg. simpl. split.
      * apply (served_answered (answered w)). exact Hans.
      * right. exists (Returned store). destruct (truthy_orStr store Hs)
          as [Hstore Ht]. rewrite <- Hstore.
        split; [reflexivity|]. intros _. eauto.
    + split; [exact Hans|]. right. exists (Returned store).
      split; [reflexivity|]. simpl. rewrite Hs. discriminate.
  - split; [exact Hans|]. right. exists (Thrown e).
    split; [reflexivity|]. discriminate.
Qed.

Lemma served_worldAfter (n : nat) (w : World) :
  served w -> served (worldAfter svc n w).
Proof.
  revert w. induction n as [|n IH]; intros w Hserved; simpl; [exact Hserved|].
  apply IH. apply getOrCreate_trace. exact Hserved.
Qed.

(** C6, as amended.  Once a call has returned a handle that is not empty,
    every later call returns that handle and leaves the world as it is, so
    it reads no table and calls the store creation no more.  When the
    table serves every read and write of the registration row, at most
    one store-creation call returns a usable handle over any number of
    calls. *)
Theorem store_created_once :
  (forall (n : nat) (w wi : World) (i j : nat) (h : string),
      calls svc n w !! i = Some (Returned h, wi) ->
      truthyStr h = true ->
      i <= j -> j < n ->
      calls svc n w !! j = Some (Returned h, wi))
  /\ (forall (n : nat) (w : World),
        served w ->
        usableCreationCount (trace (worldAfter svc n w))
        <= usableCreationCount (trace w) + 1).
Proof.
  split.
  - induction n as [|n IH]; intros w wi i j h Hi Hh Hij Hj; [lia|].
    simpl in Hi |- *.
    destruct i as [|i]; simpl in Hi.
    + inversion Hi as [Hcall].
      destruct (getOrCreateFileSearchStore svc w) as [r w1] eqn:Hrun.
      simpl in *. inversion Hcall; subst r w1.
      destruct j as [|j]; simpl; [reflexivity|].
      apply calls_settled; [|lia].
      eapply getOrCreate_settled; [exact Hrun | exact Hh].
    + destruct j as [|j]; [lia|]. simpl.
      apply (IH _ wi i j h Hi Hh); lia.
  - induction n as [|n IH]; intros w Hserved; simpl; [lia|].
    destruct (getOrCreate_trace w Hserved)
      as [Hserved' [Hsame|(reply & Htr & Huse)]].
    + specialize (IH _ Hserved'). rewrite Hsame in IH. exact IH.
    + destruct (isUsableCreation (StoreCreationCalled reply)) eqn:Hu.
      * destruct (Huse eq_refl) as (h & Hh & Htruthy).
        destruct (getOrCreateFileSearchStore svc w) as [r w1] eqn:Hrun.
        cbn [fst snd] in *. subst r.
        rewrite (worldAfter_settled n w1 h)
          by (eapply getOrCreate_settled; [exact Hrun | exact Htruthy]).
        rewrite Htr, usableCreationCount_snoc, Hu. lia.
      * specialize (IH _ Hserved').
        rewrite Htr, usableCreationCount_snoc, Hu in IH. lia.
Qed.

End Registry.

Section RegistryExamples.
Import Js WorldSpec FileSearchStore.

Lemma store_created_once_witness :
  (let wi := worldAfter Examples.flakyService 2 Examples.fresh in
   calls Examples.flakyService 4 Examples.fresh !! 3
   = Some (Returned "fileSearchStores/pgc-policies", wi))
  /\ usableCreationCount
       (trace (worldAfter Examples.flakyService 4 Examples.fresh))
     <= usableCreationCount (trace Examples.fresh) + 1.
Proof.
  destruct (store_created_once Examples.flakyService) as [Hsame Hbound].
  split.
  - apply (Hsame 4 Examples.fresh _ 1 3);
      [reflexivity | reflexivity | lia | lia].
  - apply (Hbound 4 Examples.fresh). constructor.
Defined.

(** C6 as stated fails: when the first store creation returns no name,
    the first call throws and the second call creates a store again, so
    two calls make two store-creation calls. *)
Lemma store_creation_called_twice :
  fst <$> calls Examples.flakyService 2 Examples.fresh
  = [ Thrown "Failed to create File Search Store - no name returned";
      Returned "fileSearchStores/pgc-policies" ]
  /\ storeCreationCount
       (trace (worldAfter Examples.flakyService 2 Examples.fresh)) = 2.
Proof. split; reflexivity. Qed.

(** Why the bound needs a table that serves its calls: when the write of
    the registration row is rejected, the store just created is neither
    cached nor registered, the call throws, and the next call creates
    another store; two usable stores exist after two calls. *)
Lemma second_store_after_rejected_write :
  let w := setConfigFaults [None; Some "503 Server Busy"] Examples.fresh in
  fst <$> calls Examples.promptService 2 w
  = [ Thrown "503 Server Busy";
      Returned "fileSearchStores/pgc-policies" ]
  /\ usableCreationCount (trace (worldAfter Examples.promptService 2 w)) = 2.
Proof. split; reflexivity. Qed.

(** Likewise when the read of a row that is there is rejected: the
    [catch] takes the rejection for an absent row and the call goes on
    to create a store. *)
Lemma store_created_although_registered :
  let w := setConfigFaults [Some "ETIMEDOUT"]
             (restart Examples.registered) in
  is_Some (storeConfig w)
  /\ usableCreationCount
       (trace (snd (getOrCreateFileSearchStore Examples.promptService w)))
     = 1.
Proof. split; [eexists; reflexivity | reflexivity]. Qed.

End RegistryExamples.

(* ===================================================================== *)
(** * The two end-to-end scenarios of the specification                   *)
(* ===================================================================== *)

Section Scenarios.
Import Js WorldSpec.

(** Upload of handbook.pdf, indexing done at the first poll with handle
    files/abc: the record is ready with that handle and the blob is kept. *)
Example upload_then_ready :
  let run :=
    Crud.uploadAndCreateDocument Examples.promptService
      (fun n => pretty n +:+ " Bytes") "%PDF" "handbook.pdf"
      ("Employee Handbook", "HR", "1.0") Examples.registered in
  (status <$> documents (snd run) !! "1700000000000") = Some ready
  /\ (geminiDocumentId <$> documents (snd run) !! "1700000000000")
     = Some (Some "files/abc")
  /\ is_Some (blobs (snd run) !! "1700000000000-handbook.pdf")
  /\ statusWrites (trace (snd run))
     = [("1700000000000", processing); ("1700000000000", ready)]
  /\ now (snd run) = (now Examples.registered + 5000)%N.
Proof. vm_compute. repeat split. eexists. reflexivity. Qed.

(** The same upload when the first poll reports an error: the record is
    failed with the service's text in its message, the failure is thrown
    again, and the blob is kept. *)
Example upload_then_failed :
  let run :=
    Crud.uploadAndCreateDocument Examples.failingService
      (fun n => pretty n +:+ " Bytes") "%PDF" "handbook.pdf"
      ("Employee Handbook", "HR", "1.0") Examples.registered in
  fst run = Thrown "Gemini indexing failed: quota exceeded"
  /\ (status <$> documents (snd run) !! "1700000000000") = Some failed
  /\ (errorMessage <$> documents (snd run) !! "1700000000000")
     = Some (Some
               "Gemini upload failed: Gemini indexing failed: quota exceeded")
  /\ is_Some (blobs (snd run) !! "1700000000000-handbook.pdf").
Proof. vm_compute. repeat split. eexists. reflexivity. Qed.

End Scenarios.

(* ===================================================================== *)
(** * Further properties of the citation resolution engine                *)
(* ===================================================================== *)

Section MatchingMore.
Import Js Search SearchSpec.

Context {tables : Unicode.CaseTables}.

Lemma firstSuccess_Some ss (allDocuments : list Document)
    (chunk : GroundingChunk) (d : Document) :
  firstSuccess ss allDocuments chunk = Some d ->
  d ∈ allDocuments /\ exists s, s ∈ ss /\ s chunk d = true.
Proof.
  induction ss as [|s ss IH]; [discriminate|]. simpl.
  destruct (List.find (s chunk) allDocuments) as [y|] eqn:E.
  - intros H. inversion H; subst y. apply find_some in E as [Hin Hs].
    split; [apply list_elem_of_In; exact Hin|].
    exists s. split; [apply list_elem_of_here | exact Hs].
  - intros H. destruct (IH H) as (Hin & s' & Hs' & Hacc).
    split; [exact Hin|]. exists s'.
    split; [apply list_elem_of_further; exact Hs' | exact Hacc].
Qed.

Lemma firstSuccess_None ss (allDocuments : list Document)
    (chunk : GroundingChunk) :
  firstSuccess ss allDocuments chunk = None
  <-> forall s d, s ∈ ss -> d ∈ allDocuments -> s chunk d = false.
Proof.
  induction ss as [|s ss IH]; simpl.
  - split; [|reflexivity]. intros _ s d Hs. inversion Hs.
  - destruct (List.find (s chunk) allDocuments) as [y|] eqn:E.
    + split; [discriminate|]. intros Hall.
      apply find_some in E as [Hin Hs]. apply list_elem_of_In in Hin.
      rewrite (Hall s y (list_elem_of_here _ _) Hin) in Hs. discriminate.
    + rewrite IH. split.
      * intros Hall s' d Hs' Hd.
        apply elem_of_cons in Hs' as [-> | Hs']; [|exact (Hall s' d Hs' Hd)].
        apply list_elem_of_In in Hd. exact (find_none _ _ E d Hd).
      * intros Hall s' d Hs' Hd.
        apply Hall; [apply list_elem_of_further; exact Hs' | exact Hd].
Qed.

Lemma accepted_strategy (chunk : GroundingChunk) (d : Document) :
  accepted chunk d = true
  <-> exists s, s ∈ strategies /\ s chunk d = true.
Proof.
  unfold accepted, strategies. split.
  - intros H.
    repeat (apply orb_prop in H as [H|H]);
      eexists; (split; [|exact H]);
      repeat first [apply list_elem_of_here | apply list_elem_of_further].
  - intros (s & Hs & Hacc).
    repeat (apply elem_of_cons in Hs as [-> | Hs];
            [rewrite Hacc, ?orb_true_r; reflexivity|]).
    inversion Hs.
Qed.

(** X1.  A matched document is one of the documents listed and is
    accepted by one of the four strategies; no document is matched exactly
    when none listed is accepted by any; and a document whose stored
    handle is the fragment's reference wins over every title match. *)
Theorem matchDocument_sound (allDocuments : list Document)
    (chunk : GroundingChunk) :
  (forall d, matchDocument allDocuments chunk = Some d ->
             d ∈ allDocuments /\ accepted chunk d = true)
  /\ (matchDocument allDocuments chunk = None
      <-> forall d, d ∈ allDocuments -> accepted chunk d = false)
  /\ (forall d0, d0 ∈ allDocuments -> byHandle chunk d0 = true ->
        exists d, matchDocument allDocuments chunk = Some d
                  /\ byHandle chunk d = true).
Proof.
  rewrite matchDocument_chain. unfold specMatch. split; [|split].
  - intros d Hd. apply firstSuccess_Some in Hd as [Hin Hs].
    split; [exact Hin|]. apply accepted_strategy. exact Hs.
  - rewrite firstSuccess_None. split.
    + intros Hall d Hd.
      destruct (accepted chunk d) eqn:Hacc; [|reflexivity].
      apply accepted_strategy in Hacc as (s & Hs & Hsd).
      rewrite (Hall s d Hs Hd) in Hsd. discriminate.
    + intros Hall s d Hs Hd. specialize (Hall d Hd).
      destruct (s chunk d) eqn:Hsd; [|reflexivity].
      assert (Hacc : accepted chunk d = true)
        by (apply accepted_strategy; eauto).
      congruence.
  - intros d0 Hd0 Hh.
    destruct (find_is_Some (byHandle chunk) allDocuments d0 Hd0 Hh)
      as [d Hd].
    exists d. unfold strategies. simpl. rewrite Hd.
    split; [reflexivity|]. apply find_some in Hd as [_ Hd]. exact Hd.
Qed.

End MatchingMore.

Section MatchingMoreExamples.
Import Js Search SearchSpec.

#[local] Existing Instance Examples.asciiTables.

Lemma matchDocument_sound_witness :
  exists d,
    matchDocument Examples.library
      (Examples.fragmentFull "fileSearchStores/pgc-policies/documents/travel"
         "Leave Policy" "either")
    = Some d
    /\ byHandle
         (Examples.fragmentFull
            "fileSearchStores/pgc-policies/documents/travel" "Leave Policy"
            "either") d = true.
Proof.
  destruct (matchDocument_sound Examples.library
              (Examples.fragmentFull
                 "fileSearchStores/pgc-policies/documents/travel"
                 "Leave Policy" "either")) as (_ & _ & Hhandle).
  apply (Hhandle Examples.travelPolicy); [right; left | reflexivity].
Defined.

End MatchingMoreExamples.

Section Extensions.
Import Js Search SearchSpec.

Context {tables : Unicode.CaseTables}.

(** X2. Removing the extension removes exactly the extension, and leaves the
    name alone when it ends in none. *)
Theorem stripDocExtension_suffix :
  (forall s e, isDocExtension e = true -> stripDocExtension (s +:+ e) = s)
  /\ (forall s, exists rest,
        s = stripDocExtension s +:+ rest
        /\ (rest = "" \/ isDocExtension rest = true)).
Proof.
  split.
  - intros s e He. apply stripDocExtension_append. exact He.
  - induction s as [|c s IH].
    + exists "". split; [reflexivity | left; reflexivity].
    + unfold stripDocExtension. fold stripDocExtension.
      destruct (isDocExtension (String c s)) eqn:Hx.
      * exists (String c s). split; [reflexivity | right; exact Hx].
      * destruct IH as (rest & Heq & Hrest). exists rest.
        split; [|exact Hrest].
        change (String c s = String c (stripDocExtension s +:+ rest)).
        f_equal. exact Heq.
Qed.

Lemma stripDocExtension_suffix_witness :
  stripDocExtension ("Water Quality Testing" +:+ ".DOCX")
  = "Water Quality Testing".
Proof.
  destruct stripDocExtension_suffix as [Hstrip _].
  apply Hstrip. reflexivity.
Defined.

(** X3. A fragment titled with a document's title followed by one of the
    extensions is matched whenever that document is listed and its own title
    ends in no extension. *)
Theorem extension_title_matches (allDocuments : list Document)
    (chunk : GroundingChunk) (doc : Document) (e : string) :
  doc ∈ allDocuments ->
  isDocExtension e = true ->
  stripDocExtension (title doc) = title doc ->
  chunkTitle chunk = title doc +:+ e ->
  byTitleWithoutExtension chunk doc = true
  /\ is_Some (matchDocument allDocuments chunk).
Proof.
  intros Hin He Hplain Hchunk.
  assert (Htitle : truthyStr (chunkTitle chunk) = true).
  { rewrite Hchunk. destruct (title doc); destruct e; try reflexivity.
    vm_compute in He. discriminate. }
  assert (Hacc : byTitleWithoutExtension chunk doc = true).
  { rewrite <- noext_byTitleWithoutExtension, Htitle.
    rewrite Hchunk, stripDocExtension_append by exact He.
    rewrite Hplain. apply String.eqb_refl. }
  split; [exact Hacc|].
  rewrite matchDocument_chain. unfold specMatch.
  apply (firstSuccess_is_Some strategies byTitleWithoutExtension
           allDocuments chunk doc); [|exact Hin|exact Hacc].
  unfold strategies.
  repeat first [apply list_elem_of_here | apply list_elem_of_further].
Qed.

End Extensions.

Section ExtensionsExamples.
Import Js Search SearchSpec.

#[local] Existing Instance Examples.asciiTables.

Lemma extension_title_matches_witness :
  byTitleWithoutExtension
    (Examples.fragmentTitled "Travel Policy.pdf" "flights")
    Examples.travelPolicy = true
  /\ is_Some (matchDocument Examples.library
                (Examples.fragmentTitled "Travel Policy.pdf" "flights")).
Proof.
  apply (extension_title_matches Examples.library
           (Examples.fragmentTitled "Travel Policy.pdf" "flights")
           Examples.travelPolicy ".pdf");
    [right; left | reflexivity | reflexivity | reflexivity].
Defined.

End ExtensionsExamples.

Section CitationList.
Import Js Search SearchSpec.

Context {tables : Unicode.CaseTables}.
Variable allDocuments : list Document.

Lemma visitChunk_keys (m : CitationMap) (chunk : GroundingChunk) (n : nat) :
  (visitChunk allDocuments m chunk n).*1
  = if bool_decide (documentIdOf allDocuments chunk ∈ m.*1) then m.*1
    else m.*1 ++ [documentIdOf allDocuments chunk].
Proof.
  unfold visitChunk. set (k := documentIdOf allDocuments chunk).
  destruct (decide (k ∈ m.*1)) as [Hin|Hnotin].
  - rewrite bool_decide_eq_true_2 by exact Hin.
    assert (Hhas : mapHas k m = true).
    { destruct (mapHas k m) eqn:E; [reflexivity|].
      apply mapHas_false in E. contradiction. }
    rewrite Hhas. simpl.
    destruct (pushIndex_present k n m Hin) as (m1 & e & m2 & -> & _ & ->).
    rewrite !fmap_app, !fmap_cons. reflexivity.
  - rewrite bool_decide_eq_false_2 by exact Hnotin.
    rewrite (proj2 (mapHas_false k m) Hnotin). simpl.
    rewrite mapSet_fresh by exact Hnotin. rewrite fmap_app. reflexivity.
Qed.

Lemma forEachChunk_keys (chunks : list GroundingChunk) (n : nat)
    (m : CitationMap) :
  (forEachChunk allDocuments chunks n m).*1
  = m.*1 ++ firstAppearances m.*1 (documentIdOf allDocuments <$> chunks).
Proof.
  revert n m. induction chunks as [|chunk chunks IH]; intros n m; simpl.
  - rewrite app_nil_r. reflexivity.
  - rewrite IH, visitChunk_keys.
    destruct (bool_decide (documentIdOf allDocuments chunk ∈ m.*1));
      [reflexivity|].
    rewrite <- app_assoc. reflexivity.
Qed.

Lemma citationsOf_documentIds (m : CitationMap) :
  (forall k e, (k, e) ∈ m -> documentId e = k) ->
  c_documentId <$> citationsOf m = m.*1.
Proof.
  intros Hid. apply list_eq. intros p.
  rewrite !list_lookup_fmap. unfold citationsOf. rewrite list_lookup_imap.
  destruct (m !! p) as [[k e]|] eqn:Hp; simpl; [|reflexivity].
  f_equal. apply Hid. eapply list_elem_of_lookup_2. exact Hp.
Qed.

Lemma citationsOf_indices (m : CitationMap) :
  c_index <$> citationsOf m = seq 1 (length m).
Proof.
  apply list_eq. intros p.
  rewrite list_lookup_fmap. unfold citationsOf. rewrite list_lookup_imap.
  destruct (m !! p) as [[k e]|] eqn:Hp; simpl.
  - symmetry. apply lookup_seq. split; [lia|].
    eapply lookup_lt_Some. exact Hp.
  - symmetry. apply lookup_seq_ge. apply lookup_ge_None in Hp. exact Hp.
Qed.

(** X4. The citations carry the document IDs of the fragments, each once, in
    the order in which the fragments first bring them, and are numbered 1, 2,
    ... in that order. *)
Theorem citations_in_first_appearance_order
    (groundingChunks : list GroundingChunk) :
  let cs := citations allDocuments groundingChunks in
  c_documentId <$> cs
  = firstAppearances [] (documentIdOf allDocuments <$> groundingChunks)
  /\ c_index <$> cs = seq 1 (length cs)
  /\ NoDup (c_documentId <$> cs).
Proof.
  destruct (Inv_citationMap allDocuments groundingChunks)
    as [Hkeys Hid _ _ _].
  unfold citations. cbv zeta.
  rewrite (citationsOf_documentIds _ Hid).
  split; [|split].
  - unfold citationMap. rewrite forEachChunk_keys. reflexivity.
  - rewrite citationsOf_indices. unfold citationsOf.
    rewrite length_imap. reflexivity.
  - exact Hkeys.
Qed.

Lemma chunkToCitationMapOf_Some (cs : list Citation) (i v : nat) :
  chunkToCitationMapOf cs !! i = Some v ->
  exists cit, cit ∈ cs /\ i ∈ c_chunkIndices cit /\ c_index cit = v.
Proof.
  unfold chunkToCitationMapOf.
  assert (Hgen : forall acc,
             fold_left recordCitation cs acc !! i = Some v ->
             (exists cit, cit ∈ cs /\ i ∈ c_chunkIndices cit
                          /\ c_index cit = v)
             \/ acc !! i = Some v).
  { induction cs as [|cit cs IH]; intros acc H; simpl in H.
    - right. exact H.
    - destruct (IH _ H) as [(cit' & Hin & Hi & Hv)|Hacc].
      + left. exists cit'. split; [right; exact Hin | split; assumption].
      + rewrite recordCitation_lookup in Hacc.
        destruct (decide (i ∈ c_chunkIndices cit)) as [Hi|Hi].
        * left. exists cit. split; [left|]. split; [exact Hi | congruence].
        * right. exact Hacc. }
  intros H. destruct (Hgen ∅ H) as [Hex|Hempty]; [exact Hex|].
  rewrite lookup_empty in Hempty. discriminate.
Qed.

(** X5. The remap has an entry for each fragment position and for nothing
    else, and the value of an entry is the number of the citation, among those
    returned, that lists the position. *)
Theorem remap_domain (groundingChunks : list GroundingChunk) (i : nat) :
  (is_Some (chunkToCitationMap allDocuments groundingChunks !! i)
   <-> i < length groundingChunks)
  /\ (forall v,
        chunkToCitationMap allDocuments groundingChunks !! i = Some v ->
        exists p cit,
          v = p + 1
          /\ citations allDocuments groundingChunks !! p = Some cit
          /\ c_index cit = v
          /\ i ∈ c_chunkIndices cit).
Proof.
  destruct (Inv_citationMap allDocuments groundingChunks)
    as [_ _ Hidx _ _].
  assert (Hval : forall v,
             chunkToCitationMap allDocuments groundingChunks !! i = Some v ->
             exists p cit,
               v = p + 1
               /\ citations allDocuments groundingChunks !! p = Some cit
               /\ c_index cit = v
               /\ i ∈ c_chunkIndices cit).
  { intros v Hv. unfold chunkToCitationMap in Hv.
    apply chunkToCitationMapOf_Some in Hv as (cit & Hin & Hi & Hidxv).
    unfold citations in Hin |- *.
    apply citationsOf_elem in Hin as (p & k & e & Hp & ->).
    exists p, (citationAt p e). simpl in *.
    split; [symmetry; exact Hidxv|].
    split; [eapply citationsOf_lookup; exact Hp|].
    split; [exact Hidxv | exact Hi]. }
  split; [|exact Hval]. split.
  - intros [v Hv]. destruct (Hval v Hv) as (p & cit & _ & Hp & _ & Hi).
    unfold citations in Hp.
    assert (Hin : cit ∈ citationsOf (citationMap allDocuments groundingChunks))
      by (eapply list_elem_of_lookup_2; exact Hp).
    apply citationsOf_elem in Hin as (q & k & e & Hq & ->). simpl in Hi.
    assert (Hke : (k, e) ∈ citationMap allDocuments groundingChunks)
      by (eapply list_elem_of_lookup_2; exact Hq).
    apply (Hidx k e Hke i) in Hi as (c & Hc & _).
    eapply lookup_lt_Some. exact Hc.
  - intros Hlt. apply lookup_lt_is_Some in Hlt as [c Hc].
    destruct (fragment_citation allDocuments groundingChunks i c Hc)
      as (p & e & _ & _ & _ & Hmap & _). eauto.
Qed.

(** X6. No citation is empty: each lists at least one fragment, every position
    it lists is the position of a fragment with the citation's document ID,
    and its title and snippet are those of the first position it lists. *)
Theorem citations_list_fragments (groundingChunks : list GroundingChunk)
    (cit : Citation) :
  cit ∈ citations allDocuments groundingChunks ->
  (forall j, j ∈ c_chunkIndices cit
             <-> exists c, groundingChunks !! j = Some c
                           /\ documentIdOf allDocuments c = c_documentId cit)
  /\ exists j c,
       j ∈ c_chunkIndices cit
       /\ (forall j', j' ∈ c_chunkIndices cit -> j <= j')
       /\ groundingChunks !! j = Some c
       /\ c_title cit = entryTitle allDocuments c
       /\ c_snippet cit = entrySnippet c.
Proof.
  intros Hin.
  destruct (Inv_citationMap allDocuments groundingChunks)
    as [_ Hid Hidx Hfirst _].
  unfold citations in Hin.
  apply citationsOf_elem in Hin as (p & k & e & Hp & ->). simpl.
  assert (Hke : (k, e) ∈ citationMap allDocuments groundingChunks)
    by (eapply list_elem_of_lookup_2; exact Hp).
  rewrite (Hid k e Hke). split; [exact (Hidx k e Hke)|].
  destruct (Hfirst k e Hke) as (j & c & (Hj & Hk & Hmin) & Ht & Hs).
  exists j, c. split; [|split; [|split; [exact Hj|split; assumption]]].
  - apply (Hidx k e Hke j). eauto.
  - intros j' Hj'. apply (Hidx k e Hke j') in Hj' as (c' & Hc' & Hk').
    destruct (le_lt_dec j j') as [Hle|Hlt]; [exact Hle|].
    exfalso. exact (Hmin j' c' Hlt Hc' Hk').
Qed.

End CitationList.

Section CitationListExamples.
Import Js Search SearchSpec.

#[local] Existing Instance Examples.asciiTables.

Lemma citations_list_fragments_witness :
  let cit := mkCitation "1700000000002" "Travel Policy" "flights" 2 [1; 3] in
  (forall j, j ∈ c_chunkIndices cit
             <-> exists c, Examples.alternating !! j = Some c
                           /\ documentIdOf Examples.library c
                              = c_documentId cit)
  /\ exists j c,
       j ∈ c_chunkIndices cit
       /\ (forall j', j' ∈ c_chunkIndices cit -> j <= j')
       /\ Examples.alternating !! j = Some c
       /\ c_title cit = entryTitle Examples.library c
       /\ c_snippet cit = entrySnippet c.
Proof.
  apply (citations_list_fragments Examples.library Examples.alternating).
  right; left.
Defined.

End CitationListExamples.

(* ===================================================================== *)
(** * Further properties of the content-type mapping                      *)
(* ===================================================================== *)

Section ContentTypeMore.
Import Js.

(** X7. The content type given to the blob and the one given to the retrieval
    service are the same for every file name, and neither depends on the case
    of the letters of the name. *)
Theorem content_types_agree (fileName : string) :
  AzureStorage.getContentType fileName
  = DocumentIndexing.getMimeType fileName
  /\ DocumentIndexing.getMimeType (toLowerCase fileName)
     = DocumentIndexing.getMimeType fileName
  /\ AzureStorage.getContentType (toLowerCase fileName)
     = AzureStorage.getContentType fileName.
Proof.
  assert (Hagree : forall f, AzureStorage.getContentType f
                             = DocumentIndexing.getMimeType f).
  { intros f. unfold AzureStorage.getContentType,
      DocumentIndexing.getMimeType, DocumentIndexing.extensionOf.
    rewrite pop_lower. reflexivity. }
  assert (Hlow : AzureStorage.getContentType (toLowerCase fileName)
                 = AzureStorage.getContentType fileName).
  { unfold AzureStorage.getContentType.
    rewrite toLowerCase_idempotent. reflexivity. }
  split; [apply Hagree|]. split; [|exact Hlow].
  rewrite <- !Hagree. exact Hlow.
Qed.

End ContentTypeMore.

(* ===================================================================== *)
(** * Further properties of the poll loop                                 *)
(* ===================================================================== *)

Section PollingMore.
Import Js DocumentIndexing WorldSpec.

Variable svc : Gemini.

(** X8. Whatever the service replies, the loop polls at most [remaining]
    times, sleeps 5000 ms before each poll and does nothing else; it returns
    an operation that is not done only after all [remaining] polls, and it
    throws only what a poll threw. *)
Theorem pollLoop_bounded (remaining : nat) (operation : Operation.t)
    (w : World) :
  exists k,
    k <= remaining
    /\ trace (snd (pollLoop svc remaining operation w))
       = trace w ++ mjoin (replicate k pollRound)
    /\ now (snd (pollLoop svc remaining operation w))
       = (now w + N.of_nat k * 5000)%N
    /\ match fst (pollLoop svc remaining operation w) with
       | Returned completed =>
           Operation.done completed = true \/ k = remaining
       | Thrown msg =>
           exists j o, 1 <= k /\ operations_get svc j o = Thrown msg
       end.
Proof.
  revert operation w. induction remaining as [|n IH]; intros operation w.
  - exists 0. simpl. destruct (negb (Operation.done operation)); simpl;
      rewrite app_nil_r, N.add_0_r; repeat split; auto.
  - simpl. destruct (Operation.done operation) eqn:Hdone; simpl.
    + exists 0. simpl. rewrite app_nil_r, N.add_0_r.
      split; [lia|]. repeat split. left. exact Hdone.
    + unfold operationsGet. munfold.
      set (w1 := emit (Slept 5000) (advance 5000 w)).
      destruct (operations_get svc (pollCount w1) operation)
        as [o'|msg] eqn:Hget.
      * destruct (IH o' (emit Polled w1)) as (k & Hk & Htr & Hnow & Hres).
        exists (S k). split; [lia|]. split; [|split].
        -- rewrite Htr. simpl. rewrite <- !app_assoc. reflexivity.
        -- rewrite Hnow. simpl. lia.
        -- destruct (fst (pollLoop svc n o' (emit Polled w1))).
           ++ destruct Hres as [H|H]; [left; exact H | right; lia].
           ++ destruct Hres as (j & o & _ & Hthrown).
              exists j, o. split; [lia | exact Hthrown].
      * exists 1. split; [lia|]. simpl. split; [|split].
        -- rewrite <- !app_assoc. reflexivity.
        -- lia.
        -- exists (pollCount w1), operation. split; [lia | exact Hget].
Qed.


End PollingMore.

Section PollingMoreExamples.
Import Js DocumentIndexing WorldSpec.


End PollingMoreExamples.

(* ===================================================================== *)
(** * Further properties of the upload pipeline                           *)
(* ===================================================================== *)

Section PipelineMore.
Import Js WorldSpec.

Lemma uploadDocument_run (file fileName ct : string)
    (metadata : list (string * string)) (w : World) :
  blobConfigured (env w) ->
  AzureStorage.getContentType fileName = VString ct ->
  exists container,
    AzureStorage.uploadDocument file fileName metadata w
    = (Returned (AzureStorage.blobUrl container
                   (toString (now w) +:+ "-" +:+ fileName),
                 toString (now w) +:+ "-" +:+ fileName),
       setBlobs
         <[toString (now w) +:+ "-" +:+ fileName
           := mkBlob file (VString ct) metadata]>
         w).
Proof.
  intros Hcfg Hct. destruct (getContainerClient_run w Hcfg) as [c Hc].
  exists c. unfold AzureStorage.uploadDocument, AzureStorage.upload.
  munfold. rewrite Hc. cbn beta iota. rewrite Hct. reflexivity.
Qed.

(** A file name whose content type is no string is refused by the blob
    client, and nothing is stored. *)
Lemma uploadDocument_refused (file fileName builtin : string)
    (metadata : list (string * string)) (w : World) :
  AzureStorage.getContentType fileName = VBuiltin builtin ->
  exists e, AzureStorage.uploadDocument file fileName metadata w
            = (Thrown e, w).
Proof.
  intros Hct.
  unfold AzureStorage.uploadDocument, AzureStorage.upload,
    AzureStorage.getContainerClient, AzureStorage.getBlobServiceClient,
    AzureStorage.getContainerName.
  munfold. rewrite Hct.
  destruct (truthy (AZURE_STORAGE_CONNECTION_STRING (env w))); simpl;
    [|eexists; reflexivity].
  destruct (AZURE_STORAGE_CONTAINER_NAME (env w)) as [n|]; simpl;
    [|eexists; reflexivity].
  destruct (truthyStr n); eexists; reflexivity.
Qed.

Lemma getTableClient_throws (w : World) :
  ~ tableConfigured (env w) ->
  TableStorage.getTableClient w
  = (Thrown "Azure Storage credentials not configured", w).
Proof.
  intros Hno. unfold TableStorage.getTableClient. munfold.
  destruct (truthy (AZURE_STORAGE_ACCOUNT_NAME (env w))) eqn:Hn;
    [|reflexivity].
  destruct (truthy (AZURE_STORAGE_ACCOUNT_KEY (env w))) eqn:Hk;
    [|reflexivity].
  exfalso. apply Hno. split; assumption.
Qed.

(** The record a [createDocument] call builds at time [now]. *)
Lemma createDocument_run (data : TableStorage.DocumentData) (w : World) :
  tableConfigured (env w) ->
  documents w !! toString (now w) = None ->
  let entity :=
    mkDocument "doc" (toString (now w)) (toString (now w))
      (TableStorage.d_title data) (TableStorage.d_category data)
      (TableStorage.d_version data) (TableStorage.d_status data)
      (TableStorage.d_storageUri data) (TableStorage.d_blobName data)
      (TableStorage.d_fileSize data) (TableStorage.d_fileType data)
      None None None (now w) (now w) in
  TableStorage.createDocument data w
  = (Returned entity,
     emit (StatusWritten (toString (now w)) (TableStorage.d_status data))
       (setDocuments <[toString (now w) := entity]> w)).
Proof.
  intros Hcfg Hfresh. unfold TableStorage.createDocument,
    TableStorage.createEntity.
  pose proof (getTableClient_run w Hcfg) as Hclient.
  munfold. rewrite Hclient. simpl. rewrite Hfresh. reflexivity.
Qed.



(** An update keeps what identifies the row and what the upload stored. *)
Lemma updateDocument_fields (i : string) (u : TableStorage.Updates)
    (w : World) (d : Document) :
  tableConfigured (env w) ->
  documents w !! i = Some d -> rowKey d = i ->
  exists stored,
    TableStorage.updateDocument i u w
    = (Returned (TableStorage.spread d u),
       emit (StatusWritten i (status stored))
         (setDocuments <[i := stored]> w))
    /\ status stored = default (status d) (TableStorage.u_status u)
    /\ id stored = id d /\ rowKey stored = rowKey d
    /\ title stored = title d /\ category stored = category d
    /\ version stored = version d /\ blobName stored = blobName d
    /\ storageUri stored = storageUri d /\ createdAt stored = createdAt d.
Proof.
  intros Hcfg Hd Hrow.
  unfold TableStorage.updateDocument, TableStorage.getEntity,
    TableStorage.updateEntityMerge.
  pose proof (getTableClient_run w Hcfg) as Hclient.
  munfold. rewrite Hclient, Hd. simpl. rewrite Hclient.
  simpl. rewrite Hrow, Hd. simpl.
  match goal with
  | |- context [setDocuments <[i := ?s]> w] => exists s
  end.
  repeat split.
Qed.



Lemma classic_table (w : World) :
  tableConfigured (env w) \/ ~ tableConfigured (env w).
Proof.
  unfold tableConfigured.
  destruct (truthy (AZURE_STORAGE_ACCOUNT_NAME (env w)));
    destruct (truthy (AZURE_STORAGE_ACCOUNT_KEY (env w)));
    try (left; split; reflexivity);
    right; intros [H1 H2]; discriminate.
Qed.

(** X12.  There is no rollback of the blob: when the blob store is
    configured and the file name has a string for content type, but the
    table is not configured, the pipeline throws, the uploaded blob stays
    in the container under a name made of a timestamp not before now, a
    dash and the file name, and the table and the trace are as they
    were. *)
Theorem pipeline_orphans_blob (svc : Gemini) (formatFileSize : nat -> string)
    (file fileName : string) (metadata : string * string * string)
    (w : World) :
  blobConfigured (env w) ->
  (exists ct, AzureStorage.getContentType fileName = VString ct) ->
  ~ tableConfigured (env w) ->
  exists msg w' t,
    Crud.uploadAndCreateDocument svc formatFileSize file fileName metadata w
    = (Thrown msg, w')
    /\ (now w <= t)%N
    /\ bytes <$> blobs w' !! (toString t +:+ "-" +:+ fileName) = Some file
    /\ documents w' = documents w
    /\ trace w' = trace w.
Proof.
  intros Hblob [ct Hct] Hno.
  destruct metadata as [[mtitle mcategory] mversion].
  set (md := [("title", mtitle); ("category", mcategory);
              ("version", mversion)]).
  destruct (uploadDocument_run file fileName ct md w Hblob Hct)
    as [container Hup].
  unfold Crud.uploadAndCreateDocument. fold md. munfold. rewrite Hup.
  cbn beta iota.
  unfold TableStorage.createDocument, TableStorage.createEntity.
  munfold.
  set (w1 := setBlobs
               <[toString (now w) +:+ "-" +:+ fileName
                 := mkBlob file (VString ct) md]>
               w).
  rewrite (getTableClient_throws w1 Hno).
  exists "Azure Storage credentials not configured", w1, (now w).
  split; [reflexivity|]. split; [apply N.le_refl|].
  unfold w1. cbn [blobs setBlobs documents trace].
  rewrite lookup_insert_eq. repeat split.
Qed.

Lemma pipeline_orphans_blob_witness :
  let w := mkWorld
             (mkEnv None None (Some "UseDevelopmentStorage=true")
                (Some "documents") (Some "gemini-key"))
             ∅ ∅ None None 1700000000000%N [] [] in
  exists msg w' t,
    Crud.uploadAndCreateDocument Examples.promptService
      (fun n => pretty n +:+ " Bytes") "%PDF" "copy.pdf"
      ("Copy", "HR", "1.0") w = (Thrown msg, w')
    /\ (now w <= t)%N
    /\ bytes <$> blobs w' !! (toString t +:+ "-" +:+ "copy.pdf")
       = Some "%PDF"
    /\ documents w' = documents w
    /\ trace w' = trace w.
Proof.
  apply (pipeline_orphans_blob Examples.promptService
           (fun n => pretty n +:+ " Bytes") "%PDF" "copy.pdf"
           ("Copy", "HR", "1.0")).
  - split; reflexivity.
  - eexists. reflexivity.
  - intros [H _]. discriminate.
Defined.

End PipelineMore.

(* ===================================================================== *)
(** * Further properties of the store registry                            *)
(* ===================================================================== *)

Section RegistryMore.
Import Js WorldSpec FileSearchStore.

Variable svc : Gemini.

(** The creation path of a call that found no row it could read gives no
    handle without leaving it in the row and in the cache. *)
Lemma creation_path (w w' : World) (h : string) :
  (if negb (truthy (GEMINI_API_KEY (env w)))
   then (Thrown "GEMINI_API_KEY is not defined in environment variables",
         answered w)
   else
     let reply :=
       fileSearchStores_create svc (storeCreationCount (trace w)) in
     match reply with
     | Thrown e => (Thrown e, afterCreation reply w)
     | Returned store =>
         if negb (truthy store)
         then (Thrown "Failed to create File Search Store - no name returned",
               afterCreation reply w)
         else registration (orStr store "") w
     end) = (Returned h, w') ->
  cachedStoreName w' = Some h
  /\ exists c, storeConfig w' = Some c /\ storeName c = h.
Proof.
  destruct (negb (truthy (GEMINI_API_KEY (env w)))); [discriminate|].
  cbv zeta.
  destruct (fileSearchStores_create svc (storeCreationCount (trace w)))
    as [store|e]; [|discriminate].
  destruct (negb (truthy store)); [discriminate|].
  unfold registration. cbv zeta.
  destruct (nextFault (afterCreation (Returned (Some (orStr store ""))) w));
    [discriminate|].
  destruct (storeConfig w); [discriminate|].
  intros H. inversion H; subst. simpl. split; [reflexivity|eauto].
Qed.

(** The creation path of a call that throws: nothing cached, no row
    written, and a usable store created only when the write of its row was
    refused. *)
Lemma creation_path_thrown (w w' : World) (e : string) :
  (if negb (truthy (GEMINI_API_KEY (env w)))
   then (Thrown "GEMINI_API_KEY is not defined in environment variables",
         answered w)
   else
     let reply :=
       fileSearchStores_create svc (storeCreationCount (trace w)) in
     match reply with
     | Thrown e => (Thrown e, afterCreation reply w)
     | Returned store =>
         if negb (truthy store)
         then (Thrown "Failed to create File Search Store - no name returned",
               afterCreation reply w)
         else registration (orStr store "") w
     end) = (Thrown e, w') ->
  cachedStoreName w' = cachedStoreName w
  /\ storeConfig w' = storeConfig w
  /\ (usableCreationCount (trace w') = usableCreationCount (trace w)
      \/ usableCreationCount (trace w') = usableCreationCount (trace w) + 1
         /\ (is_Some (nextFault (answered w)) \/ is_Some (storeConfig w))).
Proof.
  destruct (negb (truthy (GEMINI_API_KEY (env w)))).
  { intros H. inversion H; subst. repeat split. left. reflexivity. }
  cbv zeta.
  destruct (fileSearchStores_create svc (storeCreationCount (trace w)))
    as [store|msg].
  - destruct (truthy store) eqn:Hs; cbn [negb].
    + unfold registration. cbv zeta.
      destruct (truthy_orStr store Hs) as [Hstore _].
      change (nextFault (afterCreation (Returned (Some (orStr store ""))) w))
        with (nextFault (answered w)).
      destruct (nextFault (answered w)) as [fault|] eqn:Hnext.
      * intros H. inversion H; subst. repeat split. right.
        split; [|left; eauto]. simpl.
        rewrite usableCreationCount_snoc. simpl.
        destruct (truthyStr (orStr store "")) eqn:Ht; [reflexivity|].
        rewrite Hstore in Hs. simpl in Hs. congruence.
      * destruct (storeConfig w) as [c|] eqn:Hcfg; [|discriminate].
        intros H. inversion H; subst. repeat split; [exact Hcfg|]. right.
        split; [|right; eauto]. simpl.
        rewrite usableCreationCount_snoc. simpl.
        destruct (truthyStr (orStr store "")) eqn:Ht; [reflexivity|].
        rewrite Hstore in Hs. simpl in Hs. congruence.
    + intros H. inversion H; subst. repeat split. left. simpl.
      rewrite usableCreationCount_snoc. simpl. rewrite Hs. lia.
  - intros H. inversion H; subst. repeat split. left. simpl.
    rewrite usableCreationCount_snoc. simpl. lia.
Qed.

(** X13. The persisted record carries the handle across a restart: after a
    call that did not answer from the cache has returned a handle, the
    registration row holds that handle, and a new process over the same
    table whose read of the row is served returns the same handle,
    whatever its service replies, and calls no store creation.  When that
    read is rejected and the API key is set, the new process calls the
    store creation once more although the row is there. *)
Theorem store_survives_restart (svc' : Gemini) (w w' : World) (h : string) :
  truthy (cachedStoreName w) = false ->
  getOrCreateFileSearchStore svc w = (Returned h, w') ->
  (exists c, storeConfig w' = Some c /\ storeName c = h)
  /\ (nextFault w' = None ->
      getOrCreateFileSearchStore svc' (restart w')
      = (Returned h, answered w'))
  /\ (is_Some (nextFault w') ->
      truthy (GEMINI_API_KEY (env w')) = true ->
      trace (snd (getOrCreateFileSearchStore svc' (restart w')))
      = trace w'
        ++ [StoreCreationCalled
              (fileSearchStores_create svc'
                 (storeCreationCount (trace w')))]).
Proof.
  intros Hcache Hrun.
  assert (Hkeys : tableConfigured (env w')
                  /\ cachedStoreName w' = Some h
                  /\ exists c, storeConfig w' = Some c /\ storeName c = h).
  { rewrite getOrCreate_run, Hcache in Hrun.
    destruct (truthy (AZURE_STORAGE_ACCOUNT_NAME (env w))) eqn:Hacc;
      [|discriminate].
    destruct (truthy (AZURE_STORAGE_ACCOUNT_KEY (env w))) eqn:Hkey;
      [|discriminate].
    cbn [negb orb] in Hrun.
    assert (Henv : env w' = env w).
    { pose proof (Quiet_getOrCreateFileSearchStore svc w) as Hq.
      rewrite getOrCreate_run, Hcache, Hacc, Hkey in Hq.
      cbn [negb orb] in Hq. rewrite Hrun in Hq. apply Hq. }
    split; [split; rewrite Henv; assumption|].
    destruct (nextFault w) as [msg|].
    - destruct (storeConfig w);
        exact (creation_path w w' h Hrun).
    - destruct (storeConfig w) as [entity|] eqn:Hcfg;
        [|exact (creation_path w w' h Hrun)].
      inversion Hrun; subst. simpl. split; [reflexivity|eauto]. }
  destruct Hkeys as ([Hacc Hkey] & Hc' & c & Hcfg & Hname).
  split; [eauto|]. split.
  - intros Hnext. rewrite getOrCreate_run.
    change (cachedStoreName (restart w')) with (@None string).
    change (env (restart w')) with (env w').
    change (nextFault (restart w')) with (nextFault w').
    change (storeConfig (restart w')) with (storeConfig w').
    rewrite Hacc, Hkey, Hnext, Hcfg, Hname. cbn [truthy negb orb].
    f_equal. destruct w'. unfold restart, answered. simpl in *.
    rewrite Hc'. reflexivity.
  - intros [msg Hnext] Hapi. rewrite getOrCreate_run.
    change (cachedStoreName (restart w')) with (@None string).
    change (env (restart w')) with (env w').
    change (nextFault (restart w')) with (nextFault w').
    change (storeConfig (restart w')) with (storeConfig w').
    change (trace (restart w')) with (trace w').
    rewrite Hacc, Hkey, Hnext, ?Hcfg, Hapi. cbn [truthy negb orb].
    cbv zeta.
    destruct (fileSearchStores_create svc' (storeCreationCount (trace w')))
      as [store|e]; [|reflexivity].
    destruct (truthy store) eqn:Hs; cbn [negb]; [|reflexivity].
    destruct (truthy_orStr store Hs) as [Hstore _].
    unfold registration. cbv zeta. rewrite <- Hstore.
    change (storeConfig (restart w')) with (storeConfig w').
    rewrite Hcfg.
    destruct (nextFault (afterCreation (Returned store) (restart w')));
      reflexivity.
Qed.

(** X14. A call answers from the cache whenever the cache is set, and then
    changes nothing.  Without the cache, a call whose read of the
    registration row is served answers from the row whenever the row is
    there, calls no store creation and writes nothing; when the read is
    rejected and the API key is set, the call calls the store creation
    although the row is there, and throws.  In every case the row stays
    as it was. *)
Theorem registered_store_not_recreated (w : World) :
  truthy (cachedStoreName w) = true \/ is_Some (storeConfig w) ->
  storeConfig (snd (getOrCreateFileSearchStore svc w)) = storeConfig w
  /\ (truthy (cachedStoreName w) = true ->
      getOrCreateFileSearchStore svc w
      = (Returned (orStr (cachedStoreName w) ""), w))
  /\ (truthy (cachedStoreName w) = false ->
      tableConfigured (env w) ->
      nextFault w = None ->
      exists c, storeConfig w = Some c
                /\ getOrCreateFileSearchStore svc w
                   = (Returned (storeName c),
                      setCachedStoreName (Some (storeName c)) (answered w)))
  /\ (truthy (cachedStoreName w) = false ->
      tableConfigured (env w) ->
      is_Some (nextFault w) ->
      truthy (GEMINI_API_KEY (env w)) = true ->
      trace (snd (getOrCreateFileSearchStore svc w))
      = trace w
        ++ [StoreCreationCalled
              (fileSearchStores_create svc (storeCreationCount (trace w)))]
      /\ exists e, fst (getOrCreateFileSearchStore svc w) = Thrown e).
Proof.
  intros Hreg. rewrite getOrCreate_run.
  destruct (truthy (cachedStoreName w)) eqn:Hcache.
  { repeat split; intros; try reflexivity; discriminate. }
  destruct Hreg as [Hc|[c Hc]]; [discriminate|].
  rewrite Hc.
  split; [|split; [discriminate|split]].
  - destruct (_ || _); [exact Hc|].
    destruct (nextFault w); [|exact Hc].
    destruct (negb (truthy (GEMINI_API_KEY (env w)))); [exact Hc|].
    cbv zeta.
    destruct (fileSearchStores_create svc (storeCreationCount (trace w)))
      as [store|e]; [|exact Hc].
    destruct (negb (truthy store)); [exact Hc|].
    unfold registration. cbv zeta. rewrite Hc.
    destruct (nextFault (afterCreation (Returned (Some (orStr store "")))
                           w)); exact Hc.
  - intros _ [Hn Hk] Hnext. rewrite Hn, Hk, Hnext. cbn [negb orb].
    exists c. split; reflexivity.
  - intros _ [Hn Hk] [msg Hnext] Hapi. rewrite Hn, Hk, Hnext, Hapi.
    cbn [negb orb]. cbv zeta.
    destruct (fileSearchStores_create svc (storeCreationCount (trace w)))
      as [store|e]; [|split; [reflexivity|eexists; reflexivity]].
    destruct (truthy store) eqn:Hs; cbn [negb];
      [|split; [reflexivity|eexists; reflexivity]].
    destruct (truthy_orStr store Hs) as [Hstore _].
    unfold registration. cbv zeta. rewrite <- Hstore, Hc.
    destruct (nextFault (afterCreation (Returned store) w));
      split; try reflexivity; eexists; reflexivity.
Qed.

(** X15. A call that throws has cached nothing and has written no row.  It
    has made at most one more usable store; none when the table served
    every read and write of the registration row, and otherwise one only
    if the table rejected the read or the write of the row, and that
    store is left unregistered. *)
Theorem failed_call_registers_nothing (w w' : World) (e : string) :
  getOrCreateFileSearchStore svc w = (Thrown e, w') ->
  cachedStoreName w' = cachedStoreName w
  /\ storeConfig w' = storeConfig w
  /\ usableCreationCount (trace w') <= usableCreationCount (trace w) + 1
  /\ (served w ->
      usableCreationCount (trace w') = usableCreationCount (trace w))
  /\ (usableCreationCount (trace w') = usableCreationCount (trace w) + 1 ->
      is_Some (nextFault w) \/ is_Some (nextFault (answered w))).
Proof.
  rewrite getOrCreate_run.
  destruct (truthy (cachedStoreName w)); [discriminate|].
  destruct (_ || _).
  { intros H. inversion H; subst. repeat split; intros; lia. }
  destruct (nextFault w) as [msg|] eqn:Hnext.
  - intros Hrun.
    assert (Hpath := creation_path_thrown w w' e).
    destruct (storeConfig w) as [c|] eqn:Hcfg;
      destruct (Hpath Hrun) as (H1 & H2 & H3);
      (split; [exact H1|]); (split; [exact H2|]);
      (split; [destruct H3 as [H3|[H3 _]]; lia|]);
      (split; [intros Hs; apply served_next in Hs; congruence|]);
      intros _; left; eauto.
  - destruct (storeConfig w) as [c|] eqn:Hcfg; [discriminate|].
    intros Hrun.
    destruct (creation_path_thrown w w' e Hrun) as (H1 & H2 & H3).
    split; [exact H1|]. split; [congruence|].
    split; [destruct H3 as [H3|[H3 _]]; lia|].
    split.
    + intros Hs. destruct H3 as [H3|[_ [[f Hf]|[c Hc]]]];
        [exact H3| |congruence].
      apply served_answered, served_next in Hs. congruence.
    + intros Hplus. destruct H3 as [H3|[_ [Hf|[c Hc]]]];
        [lia|right; exact Hf|congruence].
Qed.

End RegistryMore.

Section RegistryMoreExamples.
Import Js WorldSpec FileSearchStore.

Lemma store_survives_restart_witness :
  let w' := worldAfter Examples.flakyService 2 Examples.fresh in
  (exists c, storeConfig w' = Some c
             /\ storeName c = "fileSearchStores/pgc-policies")
  /\ (nextFault w' = None ->
      getOrCreateFileSearchStore Examples.silentService (restart w')
      = (Returned "fileSearchStores/pgc-policies", answered w'))
  /\ (is_Some (nextFault w') ->
      truthy (GEMINI_API_KEY (env w')) = true ->
      trace (snd (getOrCreateFileSearchStore Examples.silentService
                    (restart w')))
      = trace w'
        ++ [StoreCreationCalled
              (fileSearchStores_create Examples.silentService
                 (storeCreationCount (trace w')))]).
Proof.
  apply (store_survives_restart Examples.flakyService Examples.silentService
           (worldAfter Examples.flakyService 1 Examples.fresh));
    reflexivity.
Defined.

Lemma failed_call_registers_nothing_witness :
  let w := setConfigFaults [None; Some "503 Server Busy"] Examples.fresh in
  let w' := worldAfter Examples.promptService 1 w in
  cachedStoreName w' = cachedStoreName w
  /\ storeConfig w' = storeConfig w
  /\ usableCreationCount (trace w') <= usableCreationCount (trace w) + 1
  /\ (served w ->
      usableCreationCount (trace w') = usableCreationCount (trace w))
  /\ (usableCreationCount (trace w') = usableCreationCount (trace w) + 1 ->
      is_Some (nextFault w) \/ is_Some (nextFault (answered w))).
Proof.
  apply (failed_call_registers_nothing Examples.promptService
           (setConfigFaults [None; Some "503 Server Busy"] Examples.fresh)
           _ "503 Server Busy").
  reflexivity.
Defined.

Lemma registered_store_not_recreated_witness :
  let w := restart Examples.registered in
  storeConfig (snd (getOrCreateFileSearchStore Examples.flakyService w))
  = storeConfig w
  /\ (truthy (cachedStoreName w) = true ->
      getOrCreateFileSearchStore Examples.flakyService w
      = (Returned (orStr (cachedStoreName w) ""), w))
  /\ (truthy (cachedStoreName w) = false ->
      tableConfigured (env w) ->
      nextFault w = None ->
      exists c, storeConfig w = Some c
                /\ getOrCreateFileSearchStore Examples.flakyService w
                   = (Returned (storeName c),
                      setCachedStoreName (Some (storeName c)) (answered w)))
  /\ (truthy (cachedStoreName w) = false ->
      tableConfigured (env w) ->
      is_Some (nextFault w) ->
      truthy (GEMINI_API_KEY (env w)) = true ->
      trace (snd (getOrCreateFileSearchStore Examples.flakyService w))
      = trace w
        ++ [StoreCreationCalled
              (fileSearchStores_create Examples.flakyService
                 (storeCreationCount (trace w)))]
      /\ exists e,
           fst (getOrCreateFileSearchStore Examples.flakyService w)
           = Thrown e).
Proof.
  apply (registered_store_not_recreated Examples.flakyService
           (restart Examples.registered)).
  right. eexists. reflexivity.
Defined.

End RegistryMoreExamples.

(* ===================================================================== *)
(** * Properties of the table and of the blob container                   *)
(* ===================================================================== *)

Section TableProperties.
Import Js WorldSpec.

Lemma getDocumentById_run (i : string) (w : World) :
  TableStorage.getDocumentById i w
  = (Returned (if bool_decide (tableConfigured (env w))
               then documents w !! i else None), w).
Proof.
  unfold TableStorage.getDocumentById, TableStorage.getEntity.
  destruct (classic_table w) as [Hcfg|Hno].
  - rewrite bool_decide_eq_true_2 by exact Hcfg.
    munfold. rewrite (getTableClient_run w Hcfg). simpl.
    destruct (documents w !! i); reflexivity.
  - rewrite bool_decide_eq_false_2 by exact Hno.
    munfold. rewrite (getTableClient_throws w Hno). reflexivity.
Qed.

(** X16. A record that was created is found again under its ID, with the
    ID, row key, title, category, version, status, blob address and name,
    file size and type and creation date it was returned with; the records
    under other IDs are found as before. *)
Theorem create_then_get (data : TableStorage.DocumentData) (w w' : World)
    (entity : Document) :
  TableStorage.createDocument data w = (Returned entity, w') ->
  id entity = toString (now w)
  /\ status entity = TableStorage.d_status data
  /\ (exists stored,
        TableStorage.getDocumentById (id entity) w'
        = (Returned (Some stored), w')
        /\ id stored = id entity /\ rowKey stored = id entity
        /\ title stored = TableStorage.d_title data
        /\ category stored = TableStorage.d_category data
        /\ version stored = TableStorage.d_version data
        /\ status stored = TableStorage.d_status data
        /\ storageUri stored = TableStorage.d_storageUri data
        /\ blobName stored = TableStorage.d_blobName data
        /\ fileSize stored = TableStorage.d_fileSize data
        /\ fileType stored = TableStorage.d_fileType data
        /\ createdAt stored = createdAt entity)
  /\ (forall k, k <> id entity ->
        TableStorage.getDocumentById k w' = (Returned (documents w !! k), w'))
  /\ documents w !! id entity = None.
Proof.
  intros Hcreate.
  destruct (createDocument_cases data w)
    as [[e He]|(Hcfg & ent & Hrow & Hid & Hrun)];
    [rewrite He in Hcreate; discriminate|].
  destruct (documents w !! toString (now w)) as [old|] eqn:Hfresh.
  { unfold TableStorage.createDocument, TableStorage.createEntity in Hcreate.
    munfold. rewrite (getTableClient_run w Hcfg) in Hcreate.
    simpl in Hcreate. rewrite Hfresh in Hcreate. discriminate. }
  rewrite (createDocument_run data w Hcfg Hfresh) in Hcreate.
  cbv zeta in Hcreate. inversion Hcreate; subst entity w'. clear Hcreate.
  cbn [id status].
  assert (Hcfg' : tableConfigured
                    (env (emit (StatusWritten (toString (now w))
                                  (TableStorage.d_status data))
                            (setDocuments
                               <[toString (now w) := ent]> w))))
    by exact Hcfg.
  split; [reflexivity|]. split; [reflexivity|]. split; [|split].
  - eexists. split.
    + rewrite getDocumentById_run, bool_decide_eq_true_2 by exact Hcfg.
      simpl. rewrite lookup_insert_eq. reflexivity.
    + repeat split.
  - intros k Hk. rewrite getDocumentById_run,
      bool_decide_eq_true_2 by exact Hcfg.
    simpl. rewrite lookup_insert_ne by congruence. reflexivity.
  - exact Hfresh.
Qed.

Lemma create_then_get_witness :
  let data := TableStorage.mkData "Employee Handbook" "HR" "1.0" processing
                "documents/1700000000000-handbook.pdf"
                "1700000000000-handbook.pdf" (Some "4 Bytes") (Some "pdf") in
  let run := TableStorage.createDocument data Examples.registered in
  match fst run with
  | Returned entity =>
      id entity = toString (now Examples.registered)
      /\ status entity = TableStorage.d_status data
      /\ (exists stored,
            TableStorage.getDocumentById (id entity) (snd run)
            = (Returned (Some stored), snd run)
            /\ id stored = id entity /\ rowKey stored = id entity
            /\ title stored = TableStorage.d_title data
            /\ category stored = TableStorage.d_category data
            /\ version stored = TableStorage.d_version data
            /\ status stored = TableStorage.d_status data
            /\ storageUri stored = TableStorage.d_storageUri data
            /\ blobName stored = TableStorage.d_blobName data
            /\ fileSize stored = TableStorage.d_fileSize data
            /\ fileType stored = TableStorage.d_fileType data
            /\ createdAt stored = createdAt entity)
      /\ (forall k, k <> id entity ->
            TableStorage.getDocumentById k (snd run)
            = (Returned (documents Examples.registered !! k), snd run))
      /\ documents Examples.registered !! id entity = None
  | Thrown _ => False
  end.
Proof.
  cbv zeta.
  destruct (TableStorage.createDocument
              (TableStorage.mkData "Employee Handbook" "HR" "1.0" processing
                 "documents/1700000000000-handbook.pdf"
                 "1700000000000-handbook.pdf" (Some "4 Bytes") (Some "pdf"))
              Examples.registered) as [[entity|e] w'] eqn:Hrun.
  - simpl. apply (create_then_get _ _ _ _ Hrun).
  - vm_compute in Hrun. discriminate.
Defined.

(** Reading a record never throws and never changes anything, and what
    it finds is the record stored.  Updating or deleting a record that is
    not there throws and changes nothing. *)
Lemma missing_row (i : string) (u : TableStorage.Updates) (w : World) :
  (exists r, TableStorage.getDocumentById i w = (Returned r, w)
             /\ (forall d, r = Some d -> documents w !! i = Some d))
  /\ (documents w !! i = None ->
      (exists e, TableStorage.updateDocument i u w = (Thrown e, w))
      /\ (exists e, TableStorage.deleteDocument i w = (Thrown e, w))
      /\ TableStorage.getDocumentById i w = (Returned None, w)).
Proof.
  split.
  - rewrite getDocumentById_run. eexists. split; [reflexivity|].
    intros d. destruct (bool_decide _); [tauto | discriminate].
  - intros Hnone. split; [|split].
    + unfold TableStorage.updateDocument, TableStorage.getEntity.
      destruct (classic_table w) as [Hcfg|Hno]; munfold.
      * rewrite (getTableClient_run w Hcfg). simpl. rewrite Hnone.
        eexists. reflexivity.
      * rewrite (getTableClient_throws w Hno). eexists. reflexivity.
    + unfold TableStorage.deleteDocument.
      destruct (classic_table w) as [Hcfg|Hno]; munfold.
      * rewrite (getTableClient_run w Hcfg). simpl. rewrite Hnone.
        eexists. reflexivity.
      * rewrite (getTableClient_throws w Hno). eexists. reflexivity.
    + rewrite getDocumentById_run, Hnone.
      destruct (bool_decide _); reflexivity.
Qed.

Lemma missing_row_witness :
  (exists e, TableStorage.updateDocument "42"
               (TableStorage.mkUpdates (Some ready) None None None)
               Examples.indexed = (Thrown e, Examples.indexed))
  /\ (exists e, TableStorage.deleteDocument "42" Examples.indexed
                = (Thrown e, Examples.indexed))
  /\ TableStorage.getDocumentById "42" Examples.indexed
     = (Returned None, Examples.indexed).
Proof.
  destruct (missing_row "42"
              (TableStorage.mkUpdates (Some ready) None None None)
              Examples.indexed) as [_ Hmissing].
  apply Hmissing. reflexivity.
Defined.

(** X17. An update is read back: the record found afterwards has the status
    asked for and the same ID, title, category, version, blob and creation
    date as before; the records under other IDs are untouched. *)
Theorem update_then_get (i : string) (s : Status)
    (emsg : option (option string)) (h store : option string)
    (w : World) (d : Document) :
  tableConfigured (env w) ->
  documents w !! i = Some d -> rowKey d = i ->
  exists stored w',
    snd (TableStorage.updateDocument i
           (TableStorage.mkUpdates (Some s) emsg h store) w) = w'
    /\ TableStorage.getDocumentById i w' = (Returned (Some stored), w')
    /\ status stored = s
    /\ id stored = id d /\ title stored = title d
    /\ category stored = category d /\ version stored = version d
    /\ blobName stored = blobName d /\ createdAt stored = createdAt d
    /\ (forall k, k <> i -> documents w' !! k = documents w !! k).
Proof.
  intros Hcfg Hd Hrow.
  destruct (updateDocument_fields i
              (TableStorage.mkUpdates (Some s) emsg h store) w d Hcfg Hd Hrow)
    as (stored & Hrun & Hst & Hid & _ & Ht & Hc & Hv & Hb & _ & Hcr).
  exists stored. eexists. rewrite Hrun. cbn [snd].
  split; [reflexivity|]. split.
  - rewrite getDocumentById_run, bool_decide_eq_true_2 by exact Hcfg.
    simpl. rewrite lookup_insert_eq. reflexivity.
  - simpl in Hst. repeat split; try assumption.
    intros k Hk. simpl. apply lookup_insert_ne. congruence.
Qed.

Lemma update_then_get_witness :
  exists stored w',
    snd (TableStorage.updateDocument "1700000000001"
           (TableStorage.mkUpdates (Some failed) (Some (Some "gone")) None
              None) Examples.indexed) = w'
    /\ TableStorage.getDocumentById "1700000000001" w'
       = (Returned (Some stored), w')
    /\ status stored = failed
    /\ id stored = id Examples.leavePolicy
    /\ title stored = title Examples.leavePolicy
    /\ category stored = category Examples.leavePolicy
    /\ version stored = version Examples.leavePolicy
    /\ blobName stored = blobName Examples.leavePolicy
    /\ createdAt stored = createdAt Examples.leavePolicy
    /\ (forall k, k <> "1700000000001" ->
          documents w' !! k = documents Examples.indexed !! k).
Proof.
  apply (update_then_get "1700000000001" failed (Some (Some "gone")) None
           None Examples.indexed Examples.leavePolicy).
  - split; reflexivity.
  - reflexivity.
  - reflexivity.
Defined.

Lemma insertByDate_Permutation (a : Document) (l : list Document) :
  TableStorage.insertByDate a l ≡ₚ a :: l.
Proof.
  induction l as [|b r IH]; simpl; [reflexivity|].
  destruct (createdAt b <=? createdAt a)%N; [reflexivity|].
  rewrite IH. apply Permutation_swap.
Qed.

Lemma sortNewestFirst_Permutation (l : list Document) :
  TableStorage.sortNewestFirst l ≡ₚ l.
Proof.
  induction l as [|a l IH]; simpl; [reflexivity|].
  rewrite insertByDate_Permutation, IH. reflexivity.
Qed.

Lemma insertByDate_sorted (a : Document) (l : list Document) :
  StronglySorted notOlder l ->
  StronglySorted notOlder (TableStorage.insertByDate a l).
Proof.
  induction 1 as [|b r Hr IH Hb]; simpl.
  - repeat constructor.
  - destruct (createdAt b <=? createdAt a)%N eqn:Hle.
    + apply N.leb_le in Hle. constructor; [constructor; assumption|].
      constructor; [exact Hle|].
      eapply Forall_impl; [exact Hb|]. intros x Hx. unfold notOlder in *.
      lia.
    + apply N.leb_gt in Hle. constructor; [exact IH|].
      rewrite insertByDate_Permutation. constructor; [|exact Hb].
      unfold notOlder. lia.
Qed.

Lemma sortNewestFirst_sorted (l : list Document) :
  StronglySorted notOlder (TableStorage.sortNewestFirst l).
Proof.
  induction l as [|a l IH]; simpl; [constructor|].
  apply insertByDate_sorted. exact IH.
Qed.

(** X18. The list of all documents holds every record of the table once and no
    other, newest first; reading it changes nothing. *)
Theorem getAllDocuments_newest_first (w : World) :
  tableConfigured (env w) ->
  exists docs,
    TableStorage.getAllDocuments w = (Returned docs, w)
    /\ StronglySorted notOlder docs
    /\ docs ≡ₚ (map_to_list (documents w)).*2
    /\ length docs = size (documents w)
    /\ (forall d, d ∈ docs <-> exists k, documents w !! k = Some d).
Proof.
  intros Hcfg. unfold TableStorage.getAllDocuments.
  munfold. rewrite (getTableClient_run w Hcfg).
  eexists. split; [reflexivity|].
  assert (Hperm : TableStorage.sortNewestFirst (TableStorage.listEntities w)
                  ≡ₚ (map_to_list (documents w)).*2).
  { rewrite sortNewestFirst_Permutation. unfold TableStorage.listEntities.
    rewrite merge_sort_Permutation. reflexivity. }
  split; [|split; [exact Hperm|split]].
  - apply sortNewestFirst_sorted.
  - rewrite Hperm, length_fmap, length_map_to_list. reflexivity.
  - intros d. rewrite Hperm, list_elem_of_fmap. split.
    + intros ([k d'] & -> & Hin). exists k.
      apply elem_of_map_to_list in Hin. exact Hin.
    + intros [k Hk]. exists (k, d). split; [reflexivity|].
      apply elem_of_map_to_list. exact Hk.
Qed.

Lemma getAllDocuments_newest_first_witness :
  exists docs,
    TableStorage.getAllDocuments Examples.indexed
    = (Returned docs, Examples.indexed)
    /\ StronglySorted notOlder docs
    /\ docs ≡ₚ (map_to_list (documents Examples.indexed)).*2
    /\ length docs = size (documents Examples.indexed)
    /\ (forall d, d ∈ docs
                  <-> exists k, documents Examples.indexed !! k = Some d).
Proof.
  apply (getAllDocuments_newest_first Examples.indexed).
  split; reflexivity.
Defined.

End TableProperties.

Section BlobProperties.
Import Js WorldSpec.

(** X19. What was uploaded is read back.  For a file name whose content
    type is a string, the blob exists after the upload under the name
    returned, which is the timestamp, a dash and the file name; a download
    of it gives the bytes uploaded, its content type is that string, and
    the blobs under other names are as before.  For a file name whose
    content type is no string, the upload throws and stores nothing. *)
Theorem upload_then_download (file fileName : string)
    (metadata : list (string * string)) (w : World) :
  blobConfigured (env w) ->
  match AzureStorage.getContentType fileName with
  | VString ct =>
      exists uri name w',
        AzureStorage.uploadDocument file fileName metadata w
        = (Returned (uri, name), w')
        /\ name = toString (now w) +:+ "-" +:+ fileName
        /\ AzureStorage.downloadDocument name w' = (Returned file, w')
        /\ AzureStorage.documentExists name w' = (Returned true, w')
        /\ blobContentType <$> blobs w' !! name = Some (VString ct)
        /\ (forall other, other <> name ->
              blobs w' !! other = blobs w !! other)
  | VBuiltin _ =>
      exists e,
        AzureStorage.uploadDocument file fileName metadata w = (Thrown e, w)
  end.
Proof.
  intros Hcfg.
  destruct (AzureStorage.getContentType fileName) as [ct|builtin] eqn:Hct;
    [|exact (uploadDocument_refused file fileName builtin metadata w Hct)].
  destruct (uploadDocument_run file fileName ct metadata w Hcfg Hct)
    as [container Hup].
  eexists _, _, _. split; [exact Hup|]. split; [reflexivity|].
  match goal with
  | |- context [AzureStorage.downloadDocument _ ?w1] =>
      assert (Hcfg1 : blobConfigured (env w1)) by exact Hcfg;
      destruct (getContainerClient_run w1 Hcfg1) as [c Hc]
  end.
  unfold AzureStorage.downloadDocument, AzureStorage.documentExists.
  munfold. rewrite Hc. simpl. rewrite lookup_insert_eq. simpl.
  split; [reflexivity|]. split.
  - first [reflexivity
          | rewrite bool_decide_eq_true_2 by eauto; reflexivity].
  - split; [reflexivity|]. intros other Hother.
    apply lookup_insert_ne. congruence.
Qed.

Lemma upload_then_download_witness :
  (exists uri name w',
     AzureStorage.uploadDocument "%PDF" "handbook.pdf" [("title", "Handbook")]
       Examples.fresh = (Returned (uri, name), w')
     /\ name = toString (now Examples.fresh) +:+ "-" +:+ "handbook.pdf"
     /\ AzureStorage.downloadDocument name w' = (Returned "%PDF", w')
     /\ AzureStorage.documentExists name w' = (Returned true, w')
     /\ blobContentType <$> blobs w' !! name
        = Some (VString "application/pdf")
     /\ (forall other, other <> name ->
           blobs w' !! other = blobs Examples.fresh !! other))
  /\ (exists e,
        AzureStorage.uploadDocument "%PDF" "report.constructor"
          [("title", "Report")] Examples.fresh = (Thrown e, Examples.fresh)).
Proof.
  split.
  - apply (upload_then_download "%PDF" "handbook.pdf" [("title", "Handbook")]
             Examples.fresh).
    split; reflexivity.
  - apply (upload_then_download "%PDF" "report.constructor"
             [("title", "Report")] Examples.fresh).
    split; reflexivity.
Defined.

(** X20. After a delete the blob is gone: it does not exist, a download of it
    and a read or write of its metadata throw; the other blobs are as before,
    and deleting again changes nothing more. *)
Theorem delete_then_absent (name : string)
    (metadata : list (string * string)) (w : World) :
  blobConfigured (env w) ->
  exists w',
    AzureStorage.deleteDocument name w = (Returned tt, w')
    /\ AzureStorage.documentExists name w' = (Returned false, w')
    /\ (exists e, AzureStorage.downloadDocument name w' = (Thrown e, w'))
    /\ (exists e, AzureStorage.getDocumentMetadata name w' = (Thrown e, w'))
    /\ (exists e, AzureStorage.updateDocumentMetadata name metadata w'
                  = (Thrown e, w'))
    /\ (forall other, other <> name -> blobs w' !! other = blobs w !! other)
    /\ AzureStorage.deleteDocument name w' = (Returned tt, w').
Proof.
  intros Hcfg.
  rewrite (azure_deleteDocument_run name w Hcfg).
  set (w' := setBlobs (delete name) w).
  assert (Hcfg' : blobConfigured (env w')) by exact Hcfg.
  destruct (getContainerClient_run w' Hcfg') as [c Hc].
  assert (Hgone : blobs w' !! name = None) by (simpl; apply lookup_delete_eq).
  exists w'. split; [reflexivity|].
  unfold AzureStorage.downloadDocument, AzureStorage.documentExists,
    AzureStorage.getDocumentMetadata, AzureStorage.updateDocumentMetadata.
  munfold. rewrite Hc. cbn beta iota. rewrite Hgone.
  split.
  { rewrite bool_decide_eq_false_2; [reflexivity|]. intros [x Hx].
    discriminate. }
  split; [eexists; reflexivity|]. split; [eexists; reflexivity|].
  split; [eexists; reflexivity|]. split.
  - intros other Hother. simpl. apply lookup_delete_ne. congruence.
  - rewrite (azure_deleteDocument_run name w' Hcfg').
    rewrite setBlobs_same; [reflexivity|]. apply delete_id. exact Hgone.
Qed.

Lemma delete_then_absent_witness :
  exists w',
    AzureStorage.deleteDocument "1700000000000-handbook.pdf"
      Examples.created = (Returned tt, w')
    /\ AzureStorage.documentExists "1700000000000-handbook.pdf" w'
       = (Returned false, w')
    /\ (exists e, AzureStorage.downloadDocument
                    "1700000000000-handbook.pdf" w' = (Thrown e, w'))
    /\ (exists e, AzureStorage.getDocumentMetadata
                    "1700000000000-handbook.pdf" w' = (Thrown e, w'))
    /\ (exists e, AzureStorage.updateDocumentMetadata
                    "1700000000000-handbook.pdf" [] w' = (Thrown e, w'))
    /\ (forall other, other <> "1700000000000-handbook.pdf" ->
          blobs w' !! other = blobs Examples.created !! other)
    /\ AzureStorage.deleteDocument "1700000000000-handbook.pdf" w'
       = (Returned tt, w').
Proof.
  apply (delete_then_absent "1700000000000-handbook.pdf" []
           Examples.created).
  split; reflexivity.
Defined.

End BlobProperties.

(* ===================================================================== *)
(** * Properties of the cascading delete and of the route handlers        *)
(* ===================================================================== *)

Section DeleteMore.
Import Js WorldSpec.

Variable svc : Gemini.

Lemma getContainerClient_throws (w : World) :
  ~ blobConfigured (env w) ->
  exists e, AzureStorage.getContainerClient w = (Thrown e, w).
Proof.
  intros Hno. unfold AzureStorage.getContainerClient,
    AzureStorage.getBlobServiceClient, AzureStorage.getContainerName.
  munfold.
  destruct (truthy (AZURE_STORAGE_CONNECTION_STRING (env w))) eqn:Hc; simpl;
    [|eexists; reflexivity].
  destruct (AZURE_STORAGE_CONTAINER_NAME (env w)) as [n|] eqn:Hn; simpl;
    [|eexists; reflexivity].
  destruct (truthyStr n) eqn:Ht; [|eexists; reflexivity].
  exfalso. apply Hno. split; [exact Hc|]. rewrite Hn. exact Ht.
Qed.

Lemma table_deleteDocument_missing (i : string) (w : World) :
  documents w !! i = None ->
  exists e, TableStorage.deleteDocument i w = (Thrown e, w).
Proof.
  intros Hnone. unfold TableStorage.deleteDocument.
  destruct (classic_table w) as [Hcfg|Hno]; munfold.
  - rewrite (getTableClient_run w Hcfg). simpl. rewrite Hnone.
    eexists. reflexivity.
  - rewrite (getTableClient_throws w Hno). eexists. reflexivity.
Qed.

Lemma crud_deleteDocument_run (i : string) (d : Document) (w : World) :
  blobConfigured (env w) -> tableConfigured (env w) ->
  documents w !! i = Some d ->
  Crud.deleteDocument svc i w
  = (Returned tt,
     setDocuments (delete i) (setBlobs (delete (blobName d)) w)).
Proof.
  intros Hblob Htable Hd.
  set (w1 := setBlobs (delete (blobName d)) w).
  pose proof (getTableClient_run w1 Htable) as Hclient1.
  pose proof (azure_deleteDocument_run (blobName d) w Hblob) as Hdel.
  pose proof (getDocumentById_run i w) as Hget.
  rewrite bool_decide_eq_true_2 in Hget by exact Htable.
  unfold Crud.deleteDocument, TableStorage.deleteDocument.
  munfold. rewrite Hget, Hd. cbn beta iota. rewrite Hdel. fold w1.
  destruct (truthy (geminiDocumentId d)).
  - rewrite deleteDocumentFromGemini_run, Hclient1. simpl.
    rewrite Hd. reflexivity.
  - rewrite Hclient1. simpl. rewrite Hd. reflexivity.
Qed.

(** Deleting a document that has no record throws and touches nothing: no
    blob is deleted and the retrieval service is not called. *)
Lemma delete_missing_record (i : string) (w : World) :
  documents w !! i = None ->
  exists e, Crud.deleteDocument svc i w = (Thrown e, w).
Proof.
  intros Hnone. unfold Crud.deleteDocument.
  destruct (table_deleteDocument_missing i w Hnone) as [e He].
  exists e. munfold. rewrite getDocumentById_run, Hnone.
  destruct (bool_decide _); cbn beta iota; rewrite He; reflexivity.
Qed.

(** X21. A failure of the blob store is not swallowed: when the record exists
    but the blob container cannot be reached, the delete throws and the record
    stays, with everything else. *)
Theorem delete_blocked_by_blob_store (i : string) (d : Document)
    (w : World) :
  tableConfigured (env w) -> ~ blobConfigured (env w) ->
  documents w !! i = Some d ->
  exists e, Crud.deleteDocument svc i w = (Thrown e, w).
Proof.
  intros Htable Hno Hd. unfold Crud.deleteDocument,
    AzureStorage.deleteDocument.
  destruct (getContainerClient_throws w Hno) as [e He].
  exists e. munfold. rewrite getDocumentById_run.
  rewrite bool_decide_eq_true_2 by exact Htable.
  rewrite Hd. cbn beta iota. rewrite He. reflexivity.
Qed.

(** X22. The DELETE handler answers 200 after removing an existing record and
    its blob, and 500 for a record that does not exist, so the same request
    sent twice is answered 200 and then 500. *)
Theorem DELETE_twice (i : string) (d : Document) (w : World) :
  blobConfigured (env w) -> tableConfigured (env w) ->
  documents w !! i = Some d ->
  exists w',
    DocumentRoute.DELETE svc i w
    = (Returned (DocumentRoute.mkResponse 200 "Deleted" None), w')
    /\ documents w' !! i = None
    /\ blobs w' !! blobName d = None
    /\ DocumentRoute.DELETE svc i w'
       = (Returned (DocumentRoute.mkResponse 500 "Delete failed" None), w').
Proof.
  intros Hblob Htable Hd.
  set (w' := setDocuments (delete i) (setBlobs (delete (blobName d)) w)).
  assert (Hgone : documents w' !! i = None)
    by (simpl; apply lookup_delete_eq).
  exists w'. split; [|split; [exact Hgone|split]].
  - unfold DocumentRoute.DELETE. munfold.
    rewrite (crud_deleteDocument_run i d w Hblob Htable Hd). reflexivity.
  - simpl. apply lookup_delete_eq.
  - unfold DocumentRoute.DELETE. munfold.
    unfold Crud.deleteDocument.
    destruct (table_deleteDocument_missing i w' Hgone) as [e He].
    munfold. rewrite getDocumentById_run, Hgone.
    destruct (bool_decide _); cbn beta iota; rewrite He; reflexivity.
Qed.

End DeleteMore.

Section DeleteMoreExamples.
Import Js WorldSpec.

Lemma delete_missing_record_witness :
  exists e,
    Crud.deleteDocument Examples.silentService "42" Examples.indexed
    = (Thrown e, Examples.indexed).
Proof.
  apply (delete_missing_record Examples.silentService "42" Examples.indexed).
  reflexivity.
Defined.

Lemma delete_blocked_by_blob_store_witness :
  let w := mkWorld (mkEnv (Some "pgcplus") (Some "key") None None None)
             ∅ {[ "1700000000001" := Examples.leavePolicy ]} None None
             0%N [] [] in
  exists e,
    Crud.deleteDocument Examples.silentService "1700000000001" w
    = (Thrown e, w).
Proof.
  apply (delete_blocked_by_blob_store Examples.silentService "1700000000001"
           Examples.leavePolicy).
  - split; reflexivity.
  - intros [H _]. discriminate.
  - reflexivity.
Defined.

Lemma DELETE_twice_witness :
  exists w',
    DocumentRoute.DELETE Examples.namelessService "1700000000001"
      Examples.indexed
    = (Returned (DocumentRoute.mkResponse 200 "Deleted" None), w')
    /\ documents w' !! "1700000000001" = None
    /\ blobs w' !! blobName Examples.leavePolicy = None
    /\ DocumentRoute.DELETE Examples.namelessService "1700000000001" w'
       = (Returned (DocumentRoute.mkResponse 500 "Delete failed" None), w').
Proof.
  apply (DELETE_twice Examples.namelessService "1700000000001"
           Examples.leavePolicy Examples.indexed).
  - split; reflexivity.
  - split; reflexivity.
  - reflexivity.
Defined.

End DeleteMoreExamples.

(* ===================================================================== *)
(** * Properties of the request handlers                                  *)
(* ===================================================================== *)

Section Handlers.
Import Js WorldSpec.

(** An update that throws has written nothing. *)
Lemma updateDocument_throws_clean (i : string) (u : TableStorage.Updates)
    (w w' : World) (e : string) :
  TableStorage.updateDocument i u w = (Thrown e, w') -> w' = w.
Proof.
  unfold TableStorage.updateDocument, TableStorage.getEntity,
    TableStorage.updateEntityMerge.
  destruct (classic_table w) as [Hcfg|Hno]; munfold.
  - rewrite (getTableClient_run w Hcfg). cbn beta iota.
    destruct (documents w !! i) as [d|]; cbn beta iota.
    + rewrite (getTableClient_run w Hcfg). cbn beta iota.
      destruct (documents w !! rowKey (TableStorage.spread d u));
        cbn beta iota; intros H; inversion H; reflexivity.
    + intros H; inversion H; reflexivity.
  - rewrite (getTableClient_throws w Hno). intros H; inversion H.
    reflexivity.
Qed.

Lemma parseStatus_name (s : string) (t : Status) :
  DocumentRoute.parseStatus s = Some t -> s = statusName t.
Proof.
  unfold DocumentRoute.parseStatus.
  destruct (String.eqb_spec s "processing") as [-> |_];
    [intros H; inversion H; reflexivity|].
  destruct (String.eqb_spec s "ready") as [-> |_];
    [intros H; inversion H; reflexivity|].
  destruct (String.eqb_spec s "failed") as [-> |_];
    [intros H; inversion H; reflexivity|].
  discriminate.
Qed.

(** X23. The PATCH handler never throws and answers 200, 400 or 500. It
    answers 400 exactly when the body was read, is not [null], and its
    status is not one of the three status names; a body that cannot be read
    and the body [null] are answered 500; whenever the answer is not 200,
    nothing was written. *)
Theorem PATCH_answers (i : string) (body : option DocumentRoute.Json)
    (w : World) :
  exists resp w',
    DocumentRoute.PATCH i body w = (Returned resp, w')
    /\ (DocumentRoute.httpStatus resp = 200
        \/ DocumentRoute.httpStatus resp = 400
        \/ DocumentRoute.httpStatus resp = 500)
    /\ (DocumentRoute.httpStatus resp = 400
        <-> exists b, body = Some (DocumentRoute.JValue b)
              /\ forall t, DocumentRoute.b_status b <> Some (statusName t))
    /\ (body = None \/ body = Some DocumentRoute.JNull
        -> DocumentRoute.httpStatus resp = 500)
    /\ (DocumentRoute.httpStatus resp <> 200
        -> w' = w /\ DocumentRoute.document resp = None).
Proof.
  unfold DocumentRoute.PATCH, Crud.updateDocumentStatus.
  destruct body as [[|b]|].
  - munfold. eexists _, _. split; [reflexivity|]. simpl.
    split; [right; right; reflexivity|]. split; [|split].
    + split; [discriminate|]. intros (b & Hb & _). discriminate.
    + reflexivity.
    + intros _. split; reflexivity.
  - destruct (DocumentRoute.b_status b) as [s|] eqn:Hs.
    + destruct (DocumentRoute.parseStatus s) as [t|] eqn:Hp.
      * pose proof (parseStatus_name s t Hp) as Hname.
        munfold.
        destruct (TableStorage.updateDocument i _ w) as [[d|e] w1] eqn:Hu.
        -- eexists _, _. split; [reflexivity|]. simpl.
           split; [left; reflexivity|]. split; [|split].
           ++ split; [discriminate|].
              intros (b' & Hb & Hall). inversion Hb; subst b'.
              exfalso. apply (Hall t). rewrite Hs, Hname. reflexivity.
           ++ intros [H|H]; discriminate.
           ++ intros Hne. exfalso. apply Hne. reflexivity.
        -- apply updateDocument_throws_clean in Hu. subst w1.
           eexists _, _. split; [reflexivity|]. simpl.
           split; [right; right; reflexivity|]. split; [|split].
           ++ split; [discriminate|].
              intros (b' & Hb & Hall). inversion Hb; subst b'.
              exfalso. apply (Hall t). rewrite Hs, Hname. reflexivity.
           ++ reflexivity.
           ++ intros _. split; reflexivity.
      * munfold. eexists _, _. split; [reflexivity|]. simpl.
        split; [right; left; reflexivity|]. split; [|split].
        -- split; [|reflexivity]. intros _. exists b.
           split; [reflexivity|]. intros t Ht. rewrite Hs in Ht.
           inversion Ht; subst s. destruct t; discriminate.
        -- intros [H|H]; discriminate.
        -- intros _. split; reflexivity.
    + munfold. eexists _, _. split; [reflexivity|]. simpl.
      split; [right; left; reflexivity|]. split; [|split].
      * split; [|reflexivity]. intros _. exists b.
        split; [reflexivity|]. intros t Ht. rewrite Hs in Ht.
        discriminate.
      * intros [H|H]; discriminate.
      * intros _. split; reflexivity.
  - munfold. eexists _, _. split; [reflexivity|]. simpl.
    split; [right; right; reflexivity|]. split; [|split].
    + split; [discriminate|]. intros (b & Hb & _). discriminate.
    + reflexivity.
    + intros _. split; reflexivity.
Qed.

(** X24. The GET handler of one document never answers 500: a storage that is
    not configured is reported as 404, like a record that does not exist. It
    answers 200 with the stored record exactly when the table is configured
    and holds the record, and it changes nothing. *)
Theorem GET_not_found (i : string) (w : World) :
  exists resp,
    DocumentRoute.GET i w = (Returned resp, w)
    /\ (DocumentRoute.httpStatus resp = 200
        \/ DocumentRoute.httpStatus resp = 404)
    /\ (forall d,
          resp = DocumentRoute.mkResponse 200 "" (Some d)
          <-> tableConfigured (env w) /\ documents w !! i = Some d)
    /\ (DocumentRoute.httpStatus resp = 404
        <-> ~ (tableConfigured (env w) /\ is_Some (documents w !! i))).
Proof.
  unfold DocumentRoute.GET, Crud.getDocumentById. munfold.
  rewrite getDocumentById_run.
  destruct (classic_table w) as [Hcfg|Hno].
  - rewrite bool_decide_eq_true_2 by exact Hcfg.
    destruct (documents w !! i) as [d|] eqn:Hd; cbn beta iota.
    + eexists. split; [reflexivity|]. simpl.
      split; [left; reflexivity|]. split.
      * intros d'. split.
        -- intros H; inversion H; subst. split; [exact Hcfg|reflexivity].
        -- intros [_ H]; inversion H; reflexivity.
      * split; [discriminate|]. intros Hn. exfalso. apply Hn.
        split; [exact Hcfg|eexists; reflexivity].
    + eexists. split; [reflexivity|]. simpl.
      split; [right; reflexivity|]. split.
      * intros d'. split; [discriminate|]. intros [_ H]; discriminate.
      * split; [|reflexivity]. intros _ [_ [x Hx]]. discriminate.
  - rewrite bool_decide_eq_false_2 by exact Hno. cbn beta iota.
    eexists. split; [reflexivity|]. simpl.
    split; [right; reflexivity|]. split.
    + intros d'. split; [discriminate|]. intros [H _]. exfalso.
      apply Hno, H.
    + split; [|reflexivity]. intros _ [H _]. apply Hno, H.
Qed.

End Handlers.

Section UploadHandler.
Import Js WorldSpec.

Variable svc : Gemini.
Variable formatFileSize : nat -> string.

Lemma updateDocument_returns_spread (i : string) (u : TableStorage.Updates)
    (w w' : World) (d : Document) :
  TableStorage.updateDocument i u w = (Returned d, w') ->
  exists entity, d = TableStorage.spread entity u.
Proof.
  unfold TableStorage.updateDocument, TableStorage.getEntity,
    TableStorage.updateEntityMerge.
  destruct (classic_table w) as [Hcfg|Hno]; munfold.
  - rewrite (getTableClient_run w Hcfg). cbn beta iota.
    destruct (documents w !! i) as [entity|]; cbn beta iota;
      [|discriminate].
    rewrite (getTableClient_run w Hcfg). cbn beta iota.
    destruct (documents w !! rowKey (TableStorage.spread entity u));
      cbn beta iota; [|discriminate].
    intros H; inversion H. exists entity. reflexivity.
  - rewrite (getTableClient_throws w Hno). discriminate.
Qed.

Lemma indexCreated_returns_ready (document : Document)
    (buffer fileName : string) (metadata : string * string * string)
    (w w' : World) (d : Document) :
  Crud.indexCreated svc document buffer fileName metadata w
  = (Returned d, w') ->
  status d = ready.
Proof.
  unfold Crud.indexCreated. munfold.
  destruct (DocumentIndexing.uploadDocumentToGemini svc buffer fileName
              metadata w) as [[r|e] w1].
  - destruct (TableStorage.updateDocument (id document) _ w1)
      as [[d1|e1] w2] eqn:Hu.
    + intros H; inversion H; subst.
      apply updateDocument_returns_spread in Hu. destruct Hu as [en ->].
      reflexivity.
    + destruct (TableStorage.updateDocument (id document) _ w2)
        as [[d2|e2] w3]; discriminate.
  - destruct (TableStorage.updateDocument (id document) _ w1)
      as [[d2|e2] w3]; discriminate.
Qed.

Lemma uploadAndCreateDocument_returns_ready (file fileName : string)
    (metadata : string * string * string) (w w' : World) (d : Document) :
  Crud.uploadAndCreateDocument svc formatFileSize file fileName metadata w
  = (Returned d, w') ->
  status d = ready.
Proof.
  unfold Crud.uploadAndCreateDocument.
  destruct metadata as [[mt mc] mv]. munfold.
  destruct (AzureStorage.uploadDocument file fileName _ w)
    as [[[uri bn]|e] w1]; [|discriminate].
  destruct (TableStorage.createDocument _ w1) as [[doc|e] w2];
    [|discriminate].
  apply indexCreated_returns_ready.
Qed.

Lemma includes_elem_of (l : list string) (s : string) :
  DocumentsRoute.includes l s = true <-> s ∈ l.
Proof.
  unfold DocumentsRoute.includes. rewrite existsb_exists. split.
  - intros (x & Hin & Heq). apply String.eqb_eq in Heq. subst x.
    apply list_elem_of_In. exact Hin.
  - intros Hin. exists s. split; [apply list_elem_of_In; exact Hin|].
    apply String.eqb_refl.
Qed.

(** X25. The upload handler never throws and answers 201, 400 or 500. It
    answers 400 exactly when the form was read and fails a check: no file, an
    empty title, category or version, a declared type outside the three
    allowed ones, or more than 100 MB. A request answered 400 has stored
    nothing, and a request answered 201 returns a record that is ready. *)
Theorem POST_answers (form : option DocumentsRoute.UploadForm) (w : World) :
  exists resp w',
    DocumentsRoute.POST svc formatFileSize form w = (Returned resp, w')
    /\ (DocumentRoute.httpStatus resp = 201
        \/ DocumentRoute.httpStatus resp = 400
        \/ DocumentRoute.httpStatus resp = 500)
    /\ (DocumentRoute.httpStatus resp = 400
        <-> exists f, form = Some f /\ rejected f)
    /\ (DocumentRoute.httpStatus resp = 400
        -> w' = w /\ DocumentRoute.document resp = None)
    /\ (DocumentRoute.httpStatus resp = 201
        -> exists d, DocumentRoute.document resp = Some d
                     /\ status d = ready).
Proof.
  unfold DocumentsRoute.POST.
  destruct form as [f|].
  - unfold rejected.
    destruct (DocumentsRoute.form_file f) as [file|] eqn:Hfile.
    + destruct (truthy (DocumentsRoute.form_title f)) eqn:Ht;
        [destruct (truthy (DocumentsRoute.form_category f)) eqn:Hc;
         [destruct (truthy (DocumentsRoute.form_version f)) eqn:Hv|]|];
        cbn [negb orb].
      2-4: munfold; eexists _, _; (split; [reflexivity|]); simpl;
           (split; [right; left; reflexivity|]);
           (split; [split; [|reflexivity]; intros _; exists f;
                    split; [reflexivity|]; rewrite Hfile; tauto|]);
           split; [intros _; split; reflexivity | discriminate].
      destruct (DocumentsRoute.includes DocumentsRoute.allowedTypes
                  (DocumentsRoute.f_type file)) eqn:Hty; cbn [negb].
      * apply includes_elem_of in Hty.
        destruct (Nat.ltb_spec DocumentsRoute.maxSize
                    (String.length (DocumentsRoute.f_bytes file)))
          as [Hbig|Hsmall].
        -- munfold. eexists _, _. split; [reflexivity|]. simpl.
           split; [right; left; reflexivity|].
           split; [split; [|reflexivity]; intros _; exists f;
                   split; [reflexivity|]; rewrite Hfile; tauto|].
           split; [intros _; split; reflexivity | discriminate].
        -- munfold.
           destruct (Crud.uploadAndCreateDocument svc formatFileSize _ _ _ w)
             as [[d|e] w1] eqn:Hup.
           ++ apply uploadAndCreateDocument_returns_ready in Hup.
              eexists _, _. split; [reflexivity|]. simpl.
              split; [left; reflexivity|].
              split; [split; [discriminate|]|].
              { intros (f' & Hf & Hrej). inversion Hf; subst f'.
                rewrite Hfile in Hrej.
                destruct Hrej as [H|[H|[H|[H|H]]]];
                  first [congruence | exact (H Hty) | lia]. }
              split; [discriminate|]. intros _. exists d.
              split; [reflexivity|exact Hup].
           ++ eexists _, _. split; [reflexivity|]. simpl.
              split; [right; right; reflexivity|].
              split; [split; [discriminate|]|].
              { intros (f' & Hf & Hrej). inversion Hf; subst f'.
                rewrite Hfile in Hrej.
                destruct Hrej as [H|[H|[H|[H|H]]]];
                  first [congruence | exact (H Hty) | lia]. }
              split; discriminate.
      * munfold. eexists _, _. split; [reflexivity|]. simpl.
        split; [right; left; reflexivity|].
        split; [split; [|reflexivity]; intros _; exists f;
                split; [reflexivity|]; rewrite Hfile|].
        { right; right; right; left. intros Hin.
          apply includes_elem_of in Hin. congruence. }
        split; [intros _; split; reflexivity | discriminate].
    + munfold. eexists _, _. split; [reflexivity|]. simpl.
      split; [right; left; reflexivity|].
      split; [split; [|reflexivity]; intros _; exists f;
              split; [reflexivity|]; rewrite Hfile; exact I|].
      split; [intros _; split; reflexivity | discriminate].
  - munfold. eexists _, _. split; [reflexivity|]. simpl.
    split; [right; right; reflexivity|].
    split; [split; [discriminate|]; intros (f & Hf & _); discriminate|].
    split; discriminate.
Qed.

End UploadHandler.

(* ===================================================================== *)
(** * Properties of the markers of the answer (app/page.tsx)              *)
(* ===================================================================== *)

Section Markers.
Import Js Search SearchSpec.

Context {tables : Unicode.CaseTables}.
Variable allDocuments : list Document.

Lemma chunkToCitationMap_bound (groundingChunks : list GroundingChunk)
    (i v : nat) :
  chunkToCitationMap allDocuments groundingChunks !! i = Some v ->
  i < length groundingChunks.
Proof.
  destruct (Inv_citationMap allDocuments groundingChunks)
    as [_ _ Hidx _ _].
  intros Hv. unfold chunkToCitationMap in Hv.
  apply chunkToCitationMapOf_Some in Hv as (cit & Hin & Hi & _).
  unfold citations in Hin.
  apply citationsOf_elem in Hin as (p & k & e & Hp & ->). simpl in Hi.
  assert (Hke : (k, e) ∈ citationMap allDocuments groundingChunks)
    by (eapply list_elem_of_lookup_2; exact Hp).
  apply (Hidx k e Hke i) in Hi as (c & Hc & _).
  eapply lookup_lt_Some. exact Hc.
Qed.

(** [citations.find(c => c.index === n)] on a list numbered from
    [start]. *)
Lemma find_by_index (cs : list Citation) (start p : nat) (cit : Citation) :
  c_index <$> cs = seq start (length cs) ->
  cs !! p = Some cit ->
  List.find (fun c => c_index c =? start + p)%nat cs = Some cit.
Proof.
  revert start p. induction cs as [|c cs IH]; intros start p Hidx Hp.
  - discriminate.
  - simpl in Hidx. inversion Hidx as [[Hc Hrest]].
    destruct p as [|p]; simpl in *.
    + inversion Hp; subst cit. rewrite Nat.add_0_r, Nat.eqb_refl.
      reflexivity.
    + rewrite Hc. destruct (Nat.eqb_spec start (start + S p)) as [E|_];
        [lia|].
      replace (start + S p) with (S start + p) by lia.
      apply IH; [rewrite Hc in Hrest; exact Hrest | exact Hp].
Qed.

(** X26. The marker of a fragment becomes the link of the citation of the
    fragment's document: the marker [k+1] in the answer, for a fragment at
    position [k], is replaced by the link whose number and title are those of
    the one citation that carries the document ID of the fragment. *)
Theorem marker_resolved (groundingChunks : list GroundingChunk) (k : nat)
    (chunk : GroundingChunk) (matched : string) :
  groundingChunks !! k = Some chunk ->
  exists p cit,
    citations allDocuments groundingChunks !! p = Some cit
    /\ c_documentId cit = documentIdOf allDocuments chunk
    /\ c_index cit = p + 1
    /\ k ∈ c_chunkIndices cit
    /\ SearchPage.replaceMarker (citations allDocuments groundingChunks)
         (Some (chunkToCitationMap allDocuments groundingChunks))
         matched (S k)
       = SearchPage.markdownLink (p + 1) (c_title cit).
Proof.
  intros Hk.
  destruct (fragment_citation allDocuments groundingChunks k chunk Hk)
    as (p & e & Hp & Hid & Hin & Hmap & _).
  exists p, (citationAt p e).
  split; [exact Hp|]. split; [exact Hid|]. split; [reflexivity|].
  split; [exact Hin|].
  unfold SearchPage.replaceMarker. rewrite Hmap.
  assert (Hfind :
    List.find (fun c => c_index c =? p + 1)%nat
      (citations allDocuments groundingChunks) = Some (citationAt p e)).
  { replace (p + 1) with (1 + p) by lia. apply find_by_index.
    - unfold citations. rewrite citationsOf_indices.
      unfold citationsOf. rewrite length_imap. reflexivity.
    - replace (1 + p) with (p + 1) in Hp by lia. exact Hp. }
  rewrite Hfind. reflexivity.
Qed.

(** X27. A marker that names no fragment is left as it is: the marker [0] and
    every marker above the number of fragments. *)
Theorem marker_unknown_kept (groundingChunks : list GroundingChunk)
    (n : nat) (matched : string) :
  n = 0 \/ length groundingChunks < n ->
  SearchPage.replaceMarker (citations allDocuments groundingChunks)
    (Some (chunkToCitationMap allDocuments groundingChunks)) matched n
  = matched.
Proof.
  intros Hn. unfold SearchPage.replaceMarker.
  destruct n as [|k]; [reflexivity|].
  destruct (chunkToCitationMap allDocuments groundingChunks !! k)
    as [v|] eqn:Hv; [|reflexivity].
  apply chunkToCitationMap_bound in Hv.
  destruct Hn as [Hn|Hn]; [discriminate | lia].
Qed.

End Markers.

Section MarkerScan.
Import Js Search WorldSpec.

Lemma append_snoc (num : string) (c : ascii) (rest : string) :
  (num +:+ String c EmptyString) +:+ rest = num +:+ String c rest.
Proof.
  induction num as [|x num IH]; [reflexivity|].
  change (String x ((num +:+ String c EmptyString) +:+ rest)
          = String x (num +:+ String c rest)).
  rewrite IH. reflexivity.
Qed.

Lemma append_empty (s : string) : s +:+ EmptyString = s.
Proof.
  induction s as [|x s IH]; [reflexivity|].
  change (String x (s +:+ EmptyString) = String x s).
  rewrite IH. reflexivity.
Qed.

(** With a callback that gives back what was matched, the scan gives back
    the text, whatever it was reading. *)
Lemma replaceMarkers_identity (callback : string -> nat -> string)
    (content : string) :
  (forall m n, callback m n = m) ->
  SearchPage.replaceMarkers callback None content = content
  /\ forall num,
       SearchPage.replaceMarkers callback (Some num) content
       = String "["%char (num +:+ content).
Proof.
  intros Hcb. induction content as [|c rest [IHn IHs]].
  - split; [reflexivity|]. intros num. rewrite append_empty. reflexivity.
  - assert (Hout :
      (if Ascii.eqb c "["%char
       then SearchPage.replaceMarkers callback (Some EmptyString) rest
       else String c (SearchPage.replaceMarkers callback None rest))
      = String c rest).
    { destruct (Ascii.eqb_spec c "["%char) as [-> |_].
      - rewrite IHs. reflexivity.
      - rewrite IHn. reflexivity. }
    split.
    + cbn [SearchPage.replaceMarkers]. exact Hout.
    + intros num. cbn [SearchPage.replaceMarkers]. rewrite Hout.
      destruct (SearchPage.isDigit c).
      * rewrite IHs, append_snoc. reflexivity.
      * destruct (Ascii.eqb_spec c "]"%char) as [-> |_]; cbn [andb].
        -- destruct (truthyStr num); [|reflexivity].
           rewrite Hcb, IHn.
           change (String "["%char ((num +:+ "]") +:+ rest)
                   = String "["%char (num +:+ String "]"%char rest)).
           rewrite append_snoc. reflexivity.
        -- reflexivity.
Qed.

(** X28. An answer shown without citations is shown as it is, whatever markers
    it holds, with a remap or without one. *)
Theorem answer_without_citations (chunkToCitationMap : option (gmap nat nat))
    (content : string) :
  SearchPage.processContent [] chunkToCitationMap content = content.
Proof.
  unfold SearchPage.processContent.
  apply replaceMarkers_identity.
  intros m n. unfold SearchPage.replaceMarker.
  destruct chunkToCitationMap as [map|]; destruct n as [|k];
    try reflexivity.
  destruct (map !! k); reflexivity.
Qed.

Lemma replaceMarkers_digits (callback : string -> nat -> string)
    (digits num rest : string) :
  allDigits digits = true -> truthyStr (num +:+ digits) = true ->
  SearchPage.replaceMarkers callback (Some num)
    (digits +:+ String "]"%char rest)
  = callback (String "["%char ((num +:+ digits) +:+ "]"))
      (SearchPage.parseDigits 0 (num +:+ digits))
    +:+ SearchPage.replaceMarkers callback None rest.
Proof.
  revert num. induction digits as [|c digits IH]; intros num Hd Hne.
  - rewrite append_empty in *.
    change (EmptyString +:+ String "]"%char rest)
      with (String "]"%char rest).
    cbn [SearchPage.replaceMarkers].
    change (SearchPage.isDigit "]"%char) with false. cbn iota.
    change (Ascii.eqb "]"%char "]"%char) with true.
    rewrite Hne. reflexivity.
  - cbn [allDigits] in Hd. apply andb_true_iff in Hd as [Hc Hd].
    change (String c digits +:+ String "]"%char rest)
      with (String c (digits +:+ String "]"%char rest)).
    cbn [SearchPage.replaceMarkers]. rewrite Hc.
    rewrite IH; [|exact Hd|].
    + rewrite append_snoc. reflexivity.
    + rewrite append_snoc. exact Hne.
Qed.

(** X29. The scan hands each marker to the callback: a bracketed run of digits
    at the head of the text is replaced by what the callback gives for it and
    for the number the digits spell, and the scan goes on behind the closing
    bracket. *)
Theorem marker_scanned (callback : string -> nat -> string)
    (digits rest : string) :
  allDigits digits = true -> digits <> EmptyString ->
  SearchPage.replaceMarkers callback None
    (String "["%char (digits +:+ String "]"%char rest))
  = callback (String "["%char (digits +:+ "]"))
      (SearchPage.parseDigits 0 digits)
    +:+ SearchPage.replaceMarkers callback None rest.
Proof.
  intros Hd Hne. cbn [SearchPage.replaceMarkers].
  change (Ascii.eqb "["%char "["%char) with true. cbn iota.
  assert (Htruthy : truthyStr (EmptyString +:+ digits) = true)
    by (destruct digits; [contradiction | reflexivity]).
  exact (replaceMarkers_digits callback digits EmptyString rest Hd Htruthy).
Qed.

Lemma marker_scanned_witness :
  let callback := fun (m : string) (n : nat) => m +:+ pretty (n + 1) in
  SearchPage.replaceMarkers callback None
    (String "["%char ("12" +:+ String "]"%char " days"))
  = callback (String "["%char ("12" +:+ "]"))
      (SearchPage.parseDigits 0 "12")
    +:+ SearchPage.replaceMarkers callback None " days".
Proof.
  apply (marker_scanned (fun m n => m +:+ pretty (n + 1)) "12" " days").
  - reflexivity.
  - discriminate.
Defined.

End MarkerScan.

Section MarkerExamples.
Import Js Search SearchSpec.

#[local] Existing Instance Examples.asciiTables.

Lemma marker_resolved_witness :
  exists p cit,
    citations Examples.library Examples.alternating !! p = Some cit
    /\ c_documentId cit
       = documentIdOf Examples.library
           (Examples.fragmentTitled "travel policy" "hotels")
    /\ c_index cit = p + 1
    /\ 3 ∈ c_chunkIndices cit
    /\ SearchPage.replaceMarker
         (citations Examples.library Examples.alternating)
         (Some (chunkToCitationMap Examples.library Examples.alternating))
         "[4]" 4
       = SearchPage.markdownLink (p + 1) (c_title cit).
Proof.
  apply (marker_resolved Examples.library Examples.alternating 3
           (Examples.fragmentTitled "travel policy" "hotels") "[4]").
  reflexivity.
Defined.

Lemma marker_unknown_kept_witness :
  SearchPage.replaceMarker
    (citations Examples.library Examples.alternating)
    (Some (chunkToCitationMap Examples.library Examples.alternating))
    "[9]" 9
  = "[9]".
Proof.
  apply (marker_unknown_kept Examples.library Examples.alternating 9 "[9]").
  right. simpl. lia.
Defined.

End MarkerExamples.

(* ===================================================================== *)
(** * Properties of the sign-in check, the guard and the list handler     *)
(* ===================================================================== *)

Section SignIn.
Import Js WorldSpec.

Lemma orStr_truthy (a : option string) (b : string) :
  truthyStr b = true -> truthyStr (orStr a b) = true.
Proof.
  intros Hb. unfold orStr. destruct a as [s|]; [|exact Hb].
  destruct (truthyStr s) eqn:Hs; [exact Hs | exact Hb].
Qed.

Lemma orStr_Some_truthy (s d : string) :
  truthyStr s = true -> orStr (Some s) d = s.
Proof. intros Hs. unfold orStr. rewrite Hs. reflexivity. Qed.

(** X30. Signing in succeeds exactly with the one configured pair of user name
    and password, and an environment variable that is unset or empty stands
    for its default: [admin] and [admin123]. The user returned is always the
    one with ID 1. *)
Theorem authorize_accepts (ADMIN_USERNAME ADMIN_PASSWORD : option string)
    (credentials : option Auth.Credentials) (user : Auth.User) :
  let adminUsername := orStr ADMIN_USERNAME "admin" in
  let adminPassword := orStr ADMIN_PASSWORD "admin123" in
  Auth.authorize ADMIN_USERNAME ADMIN_PASSWORD credentials = Some user
  <-> exists c,
        credentials = Some c
        /\ Auth.username c = Some adminUsername
        /\ Auth.password c = Some adminPassword
        /\ user = Auth.mkUser "1" adminUsername
                    (adminUsername +:+ "@pgcplus.local").
Proof.
  cbv zeta. unfold Auth.authorize.
  pose proof (orStr_truthy ADMIN_USERNAME "admin" eq_refl) as Hu.
  pose proof (orStr_truthy ADMIN_PASSWORD "admin123" eq_refl) as Hp.
  set (au := orStr ADMIN_USERNAME "admin") in *.
  set (ap := orStr ADMIN_PASSWORD "admin123") in *.
  split.
  - destruct credentials as [c|]; [|discriminate].
    destruct (Auth.username c) as [un|] eqn:Hun; cbn [truthy negb orb];
      [|discriminate].
    destruct (truthyStr un) eqn:Htu; cbn [negb orb]; [|discriminate].
    destruct (Auth.password c) as [pw|] eqn:Hpw; cbn [truthy negb orb];
      [|discriminate].
    destruct (truthyStr pw) eqn:Htp; cbn [negb orb]; [|discriminate].
    rewrite (orStr_Some_truthy un "" Htu), (orStr_Some_truthy pw "" Htp).
    destruct (String.eqb_spec un au) as [-> |_]; cbn [negb];
      [|discriminate].
    destruct (String.eqb_spec pw ap) as [-> |_]; cbn [negb];
      [|discriminate].
    intros H; inversion H. exists c. rewrite Hun, Hpw. auto.
  - intros (c & -> & Hun & Hpw & ->). rewrite Hun, Hpw.
    cbn [truthy]. rewrite Hu, Hp. cbn [negb orb].
    rewrite (orStr_Some_truthy au "" Hu), (orStr_Some_truthy ap "" Hp).
    rewrite !String.eqb_refl. reflexivity.
Qed.

Lemma prefix_app (a b : string) :
  String.prefix a b = true -> exists rest, b = a +:+ rest.
Proof.
  revert b. induction a as [|x a IH]; intros b H.
  - exists b. reflexivity.
  - destruct b as [|y b]; [discriminate|]. simpl in H.
    destruct (ascii_dec x y) as [-> |_]; [|discriminate].
    destruct (IH b H) as [rest ->]. exists rest. reflexivity.
Qed.

(** The middleware and the [authorized] callback guard the same pages: a
    request passes the one exactly when the other allows it.  A signed-in
    user is never redirected, and a redirect goes to the sign-in page with
    the path asked for, which then starts with [/documents]. *)
Lemma documents_guard (isLoggedIn : bool) (pathname : string) :
  (Auth.middleware isLoggedIn pathname = Auth.Next
   <-> Auth.authorized isLoggedIn pathname = true)
  /\ (isLoggedIn = true -> Auth.middleware isLoggedIn pathname = Auth.Next)
  /\ (forall to callbackUrl,
        Auth.middleware isLoggedIn pathname = Auth.Redirect to callbackUrl ->
        to = "/auth/signin" /\ callbackUrl = pathname
        /\ isLoggedIn = false
        /\ exists rest, pathname = "/documents" +:+ rest).
Proof.
  unfold Auth.middleware, Auth.authorized.
  destruct (String.prefix "/documents" pathname) eqn:Hpre;
    destruct isLoggedIn; cbn [andb negb].
  - split; [tauto|]. split; [reflexivity|]. discriminate.
  - split; [split; discriminate|]. split; [discriminate|].
    intros to cb H. inversion H; subst to cb.
    split; [reflexivity|]. split; [reflexivity|]. split; [reflexivity|].
    apply prefix_app. exact Hpre.
  - split; [tauto|]. split; [reflexivity|]. discriminate.
  - split; [tauto|]. split; [reflexivity|]. discriminate.
Qed.

Lemma getAllDocuments_run (w : World) :
  TableStorage.getAllDocuments w
  = if bool_decide (tableConfigured (env w))
    then (Returned (TableStorage.sortNewestFirst (TableStorage.listEntities w)),
          w)
    else (Thrown "Azure Storage credentials not configured", w).
Proof.
  unfold TableStorage.getAllDocuments. munfold.
  destruct (classic_table w) as [Hcfg|Hno].
  - rewrite bool_decide_eq_true_2 by exact Hcfg.
    rewrite (getTableClient_run w Hcfg). reflexivity.
  - rewrite bool_decide_eq_false_2 by exact Hno.
    rewrite (getTableClient_throws w Hno). reflexivity.
Qed.

(** The list handler never throws and changes nothing.  With the table
    configured it answers 200 with every record once, newest first; with
    the table not configured it answers 500 and no documents, where the
    handler of one document answers 404. *)
Lemma list_handler (w : World) :
  exists resp,
    DocumentsRoute.GET w = (Returned resp, w)
    /\ (tableConfigured (env w) ->
        DocumentsRoute.l_httpStatus resp = 200
        /\ DocumentsRoute.l_documents resp
           ≡ₚ (map_to_list (documents w)).*2
        /\ StronglySorted notOlder (DocumentsRoute.l_documents resp))
    /\ (~ tableConfigured (env w) ->
        resp = DocumentsRoute.mkListResponse 500
                 "Failed to fetch documents" []
        /\ forall i, exists r,
             DocumentRoute.GET i w = (Returned r, w)
             /\ DocumentRoute.httpStatus r = 404).
Proof.
  unfold DocumentsRoute.GET, Crud.getAllDocuments. munfold.
  rewrite getAllDocuments_run.
  destruct (classic_table w) as [Hcfg|Hno].
  - rewrite bool_decide_eq_true_2 by exact Hcfg.
    eexists. split; [reflexivity|]. split; [|contradiction].
    intros _. simpl. split; [reflexivity|]. split.
    + rewrite sortNewestFirst_Permutation. unfold TableStorage.listEntities.
      rewrite merge_sort_Permutation. reflexivity.
    + apply sortNewestFirst_sorted.
  - rewrite bool_decide_eq_false_2 by exact Hno.
    eexists. split; [reflexivity|]. split; [contradiction|].
    intros _. split; [reflexivity|]. intros i.
    unfold DocumentRoute.GET, Crud.getDocumentById. munfold.
    rewrite getDocumentById_run, bool_decide_eq_false_2 by exact Hno.
    eexists. split; reflexivity.
Qed.

End SignIn.
